(** * Neo4j FastMCP server: authorization gate and graph-mutation protocol

    A shallow embedding of the TypeScript sources of the repository:
    - [src/auth/oauth.ts]            ([OAuth])
    - [src/auth/descope-provider.ts] ([Descope])
    - [src/auth/api-key.ts]          ([ApiKey])
    - [src/neo4j/client.ts]          ([Neo4j])
    - [src/server.ts]                ([Server])
    - the Descope server and the API-key server ([DescopeServer],
      [ApiKeyServer]).

    Promises are modelled by their settled value, thrown values by a sum
    type, the graph database by an explicit labelled property graph that
    every statement transforms, and every call to the driver by an entry
    in an event log. *)

From Stdlib Require Import String Ascii List Bool Arith PeanoNat Lia.
Import ListNotations.
Local Open Scope string_scope.
Local Open Scope list_scope.
Local Open Scope nat_scope.

(* ===================================================================== *)
(** ** JavaScript values and string primitives *)
(* ===================================================================== *)

Module Js.

(** Strings are sequences of 8-bit code units.  HTTP header values are
    Latin-1 decoded by Node, so this is exact for them; for tool arguments
    it is exact on ASCII text, which is all the case conversions below are
    compared against. *)

(** [xs.includes(x)] on an array of strings. *)
Definition includes (xs : list string) (x : string) : bool :=
  existsb (String.eqb x) xs.

(** Truthiness of a [string | undefined]: [undefined] and the empty string
    are falsy. *)
Definition truthy (v : option string) : bool :=
  match v with
  | Some (String _ _) => true
  | _ => false
  end.

(** [s.startsWith(p)] *)
Definition startsWith (p s : string) : bool := String.prefix p s.

(** [s.slice(n)] for [n >= 0] *)
Fixpoint slice (n : nat) (s : string) : string :=
  match n, s with
  | 0, _ => s
  | S n', String _ s' => slice n' s'
  | S _, EmptyString => EmptyString
  end.

Definition lowerChar (c : ascii) : ascii :=
  let n := nat_of_ascii c in
  if (65 <=? n) && (n <=? 90) then ascii_of_nat (n + 32) else c.

Definition upperChar (c : ascii) : ascii :=
  let n := nat_of_ascii c in
  if (97 <=? n) && (n <=? 122) then ascii_of_nat (n - 32) else c.

Fixpoint mapString (f : ascii -> ascii) (s : string) : string :=
  match s with
  | EmptyString => EmptyString
  | String c s' => String (f c) (mapString f s')
  end.

(** [s.toLowerCase()] and [s.toUpperCase()] *)
Definition toLowerCase : string -> string := mapString lowerChar.
Definition toUpperCase : string -> string := mapString upperChar.

(** [[...new Set(xs)]]: a [Set] keeps the first occurrence of every value,
    in insertion order. *)
Fixpoint uniqFrom (seen xs : list string) : list string :=
  match xs with
  | [] => []
  | x :: xs' =>
      if includes seen x then uniqFrom seen xs'
      else x :: uniqFrom (x :: seen) xs'
  end.

Definition uniq (xs : list string) : list string := uniqFrom [] xs.

(** The class [\s] of a regular expression, on 8-bit code units:
    TAB, LF, VT, FF, CR, SPACE and NBSP. *)
Definition isWhiteSpace (c : ascii) : bool :=
  let n := nat_of_ascii c in
  ((9 <=? n) && (n <=? 13)) || (n =? 32) || (n =? 160).

(** The characters that [.] does not match: LF and CR. *)
Definition isLineTerminator (c : ascii) : bool :=
  let n := nat_of_ascii c in
  (n =? 10) || (n =? 13).

Fixpoint allChars (p : ascii -> bool) (s : string) : bool :=
  match s with
  | EmptyString => true
  | String c s' => p c && allChars p s'
  end.

Fixpoint existsChar (p : ascii -> bool) (s : string) : bool :=
  match s with
  | EmptyString => false
  | String c s' => p c || existsChar p s'
  end.

(** Length of the longest prefix of [s] made of characters in [p]. *)
Fixpoint spanLength (p : ascii -> bool) (s : string) : nat :=
  match s with
  | String c s' => if p c then S (spanLength p s') else 0
  | EmptyString => 0
  end.

(** [s.replace(/\s+/g, '_')]: every maximal run of white space becomes one
    underscore.  [inRun] tells that the previous character was white
    space. *)
Fixpoint replaceRuns (inRun : bool) (s : string) : string :=
  match s with
  | EmptyString => EmptyString
  | String c s' =>
      if isWhiteSpace c
      then (if inRun then replaceRuns true s'
            else String "_" (replaceRuns true s'))
      else String c (replaceRuns false s')
  end.

Definition replaceWhiteSpace (s : string) : string := replaceRuns false s.

Definition isLetter (c : ascii) : bool :=
  let n := nat_of_ascii c in
  ((65 <=? n) && (n <=? 90)) || ((97 <=? n) && (n <=? 122)).

Definition isDigit (c : ascii) : bool :=
  let n := nat_of_ascii c in
  (48 <=? n) && (n <=? 57).

(** The character class [[A-Za-z0-9_]]. *)
Definition isWordChar (c : ascii) : bool :=
  isLetter c || isDigit c || (nat_of_ascii c =? 95).

Fixpoint filterString (p : ascii -> bool) (s : string) : string :=
  match s with
  | EmptyString => EmptyString
  | String c s' => if p c then String c (filterString p s') else filterString p s'
  end.

(** Values a [throw] can carry in these sources: an [Error] with its
    message, or a fetch-API [Response]. *)
Record Response := mkResponse {
  body : option string;
  status : nat;
  statusText : string
}.

Inductive Thrown :=
| ThrownError (message : string)
| ThrownResponse (r : Response).

(** The settled value of a promise (or the completion of a call). *)
Inductive Result (A : Type) :=
| Ok (a : A)
| Throw (t : Thrown).

Arguments Ok {A} a.
Arguments Throw {A} t.

(** [error.message]; a [Response] has no such property. *)
Definition messageOf (t : Thrown) : string :=
  match t with
  | ThrownError m => m
  | ThrownResponse _ => "undefined"
  end.

End Js.

(* ===================================================================== *)
(** ** Domain records ([src/types.ts]) *)
(* ===================================================================== *)

Record Entity := mkEntity {
  e_name : string;
  e_type : string;
  e_observations : list string
}.

Record Relation := mkRelation {
  source : string;
  target : string;
  relationType : string
}.

Record KnowledgeGraph := mkKnowledgeGraph {
  entities : list Entity;
  relations : list Relation
}.

Record ObservationAddition := mkObservationAddition {
  oa_entityName : string;
  contents : list string
}.

Record ObservationDeletion := mkObservationDeletion {
  od_entityName : string;
  od_observations : list string
}.

(** The payload [jwt.verify] returns is cast to [AuthSession] unchecked, so
    [exp] is what the payload holds: [None] when it has no such member.  The
    other members are not compared with anything before a tool runs and
    are taken as the interface declares them. *)
Record AuthSession := mkAuthSession {
  userId : string;
  email : option string;
  scopes : list string;
  tokenType : string;
  iat : nat;
  exp : option nat
}.

(** The part of Node's [IncomingMessage] the providers read. *)
Record Request := mkRequest {
  authorization : option string;   (* request.headers.authorization *)
  x_api_key : option string        (* request.headers['x-api-key']  *)
}.

(* ===================================================================== *)
(** ** [OAuthProvider] ([src/auth/oauth.ts]) *)
(* ===================================================================== *)

Module OAuth.
Import Js.

(** [hasScope(session, requiredScope)] *)
Definition hasScope (session : AuthSession) (requiredScope : string) : bool :=
  includes (scopes session) requiredScope || includes (scopes session) "admin".

(** The regular expression [/^Bearer\s+(.+)$/i].  [\s+] is greedy: it first
    takes the whole run of white space and gives characters back one at a
    time; [(.+)$] then has to take everything up to the end of the input,
    which works when that rest is not empty and has no line terminator.
    [tryCapture j rest] tries [\s+] on [j], [j-1], ..., [1] characters. *)
Fixpoint tryCapture (j : nat) (rest : string) : option string :=
  match j with
  | 0 => None
  | S j' =>
      let captured := slice j rest in
      if negb (String.eqb captured "")
         && allChars (fun c => negb (isLineTerminator c)) captured
      then Some captured
      else tryCapture j' rest
  end.

(** [authHeader.match(/^Bearer\s+(.+)$/i)], giving [match[1]]. *)
Definition matchBearer (authHeader : string) : option string :=
  if String.eqb (toLowerCase (substring 0 6 authHeader)) "bearer"
  then let rest := slice 6 authHeader in
       tryCapture (spanLength isWhiteSpace rest) rest
  else None.

(** [extractTokenFromRequest(request)]; [None] is [null]. *)
Definition extractTokenFromRequest (request : Request) : option string :=
  let authHeader := authorization request in
  if negb (truthy authHeader) then None
  else match authHeader with
       | None => None
       | Some h =>
           match matchBearer h with
           | Some token => Some token
           | None => Some h
           end
       end.

Definition missingToken : Response :=
  mkResponse None 401 "Missing authorization token".
Definition tokenExpired : Response :=
  mkResponse None 401 "Token expired".
Definition invalidOrExpired : Response :=
  mkResponse None 401 "Invalid or expired token".

(** [Date.now() >= session.exp * 1000]: with no [exp] the product is [NaN]
    and the comparison is false. *)
Definition expired (now : nat) (session : AuthSession) : bool :=
  match exp session with
  | Some e => e * 1000 <=? now
  | None => false
  end.

Section WithJwt.

(** [jwt.verify(token, this.jwtSecret)] of the jsonwebtoken package: the
    decoded session, or the message of the error it throws. *)
Variable jwtVerify : string -> AuthSession + string.

(** [Date.now()] *)
Variable now : nat.

(** [verifyJWT(token)] *)
Definition verifyJWT (token : string) : Result AuthSession :=
  match jwtVerify token with
  | inl session => Ok session
  | inr message => Throw (ThrownError ("Invalid JWT token: " ++ message)%string)
  end.

(** The [try] block of [authenticateRequest]. *)
Definition verifyAndCheckExpiry (token : string) : Result AuthSession :=
  match verifyJWT token with
  | Ok session =>
      if expired now session
      then Throw (ThrownResponse tokenExpired)
      else Ok session
  | Throw t => Throw t
  end.

(** [authenticateRequest(request)]: whatever the [try] block throws, the
    [catch] clause throws the same 401 response. *)
Definition authenticateRequest (request : Request) : Result AuthSession :=
  let token := extractTokenFromRequest request in
  if negb (truthy token) then Throw (ThrownResponse missingToken)
  else match token with
       | None => Throw (ThrownResponse missingToken)
       | Some tok =>
           match verifyAndCheckExpiry tok with
           | Ok session => Ok session
           | Throw _ => Throw (ThrownResponse invalidOrExpired)
           end
       end.

End WithJwt.

End OAuth.

(* ===================================================================== *)
(** ** [DescopeAuthProvider] ([src/auth/descope-provider.ts]) *)
(* ===================================================================== *)

Module Descope.
Import Js.

(** [MCPScopes] of [src/types/descope.ts] *)
Definition READ : string := "mcp:read".
Definition WRITE : string := "mcp:write".
Definition ADMIN : string := "mcp:admin".

Record Tenant := mkTenant {
  tenant_permissions : option (list string);
  tenant_roles : option (list string)
}.

(** [DescopeAuthInfo.token]: the claims the provider reads.  [tenants] is a
    [Record<string, ...>], kept as the list of its entries in key order. *)
Record Token := mkToken {
  sub : string;
  token_email : option string;
  token_name : option string;
  token_exp : nat;
  token_permissions : option (list string);
  token_roles : option (list string);
  tenants : option (list (string * Tenant))
}.

Record DescopeAuthInfo := mkAuthInfo {
  jwt : string;
  token : Token
}.

Inductive AuthMethod := oauth | api_key.

Record DescopeSession := mkSession {
  userId : string;
  email : option string;
  name : option string;
  permissions : list string;
  roles : list string;
  authMethod : AuthMethod;
  session_jwt : option string;
  apiKeyId : option string;
  authenticated : bool;
  timestamp : nat;
  expiresAt : option nat
}.

(** [hasPermission(session, permission)] *)
Definition hasPermission (session : DescopeSession) (permission : string) : bool :=
  includes (permissions session) permission || includes (permissions session) ADMIN.

(** [hasRole(session, role)] *)
Definition hasRole (session : DescopeSession) (role : string) : bool :=
  includes (roles session) role || includes (roles session) "admin".

(** [hasAnyPermission(session, permissions)]: [permissions.some(...)] *)
Definition hasAnyPermission (session : DescopeSession) (wanted : list string)
  : bool :=
  existsb (hasPermission session) wanted.

(** [validateMCPScopes(session, requiredScopes)]: [requiredScopes.every(...)] *)
Definition validateMCPScopes (session : DescopeSession)
  (requiredScopes : list string) : bool :=
  forallb (hasPermission session) requiredScopes.

(** The [switch (role.toLowerCase())] of [extractPermissions]: what one
    role pushes. *)
Definition roleScopes (role : string) : list string :=
  let r := toLowerCase role in
  if String.eqb r "admin" then [ADMIN]
  else if String.eqb r "writer" then [WRITE; READ]
  else if String.eqb r "reader" then [READ]
  else [].

Definition orEmpty (xs : option (list string)) : list string :=
  match xs with
  | Some l => l
  | None => []
  end.

(** The array [permissions] of [extractPermissions] after the three
    blocks "direct", "role-based" and "tenant-based". *)
Definition collectedPermissions (authInfo : DescopeAuthInfo) : list string :=
  let tok := token authInfo in
  orEmpty (token_permissions tok)
  ++ match token_roles tok with
     | Some rs => flat_map roleScopes rs
     | None => []
     end
  ++ match tenants tok with
     | Some ts => flat_map (fun kv => orEmpty (tenant_permissions (snd kv))) ts
     | None => []
     end.

(** [extractPermissions(authInfo)] *)
Definition extractPermissions (authInfo : DescopeAuthInfo) : list string :=
  let permissions := collectedPermissions authInfo in
  let permissions :=
    if length permissions =? 0 then permissions ++ [READ] else permissions in
  uniq permissions.

(** [extractRoles(authInfo)] *)
Definition extractRoles (authInfo : DescopeAuthInfo) : list string :=
  let tok := token authInfo in
  uniq (orEmpty (token_roles tok)
        ++ match tenants tok with
           | Some ts => flat_map (fun kv => orEmpty (tenant_roles (snd kv))) ts
           | None => []
           end).

(** Calls made to the Descope SDK client, in order. *)
Inductive SdkCall :=
| ValidateSession (sessionToken : string)
| ExchangeAccessKey (apiKey : string).

Definition authenticationRequired : Response :=
  mkResponse
    (Some "Authentication required. Provide either Authorization: Bearer <token> or X-API-Key: <key>")
    401 "Unauthorized".

Section WithSdk.

(** [this.client.validateSession] and [this.client.exchangeAccessKey]: the
    verified authentication info, or the message of the error thrown. *)
Variable sdkValidateSession : string -> DescopeAuthInfo + string.
Variable sdkExchangeAccessKey : string -> DescopeAuthInfo + string.

(** [Date.now()] *)
Variable now : nat.

(** [validateSession(sessionToken)] *)
Definition validateSession (sessionToken : string)
  : Result DescopeAuthInfo * list SdkCall :=
  (match sdkValidateSession sessionToken with
   | inl authInfo => Ok authInfo
   | inr message =>
       Throw (ThrownError ("Session validation failed: " ++ message)%string)
   end,
   [ValidateSession sessionToken]).

(** [validateApiKey(apiKey)] *)
Definition validateApiKey (apiKey : string)
  : Result DescopeAuthInfo * list SdkCall :=
  (match sdkExchangeAccessKey apiKey with
   | inl authInfo => Ok authInfo
   | inr message => Throw (ThrownError ("Invalid API key: " ++ message)%string)
   end,
   [ExchangeAccessKey apiKey]).

Definition withMethod (m : AuthMethod)
  (r : Result DescopeAuthInfo * list SdkCall)
  : Result (DescopeAuthInfo * AuthMethod) * list SdkCall :=
  (match fst r with
   | Ok authInfo => Ok (authInfo, m)
   | Throw t => Throw t
   end, snd r).

(** The [else] branch of [authenticateRequest]: "Try API key". *)
Definition tryApiKey (request : Request)
  : Result (DescopeAuthInfo * AuthMethod) * list SdkCall :=
  let apiKey := x_api_key request in
  if negb (truthy apiKey)
  then (Throw (ThrownResponse authenticationRequired), [])
  else match apiKey with
       | Some k => withMethod api_key (validateApiKey k)
       | None => (Throw (ThrownResponse authenticationRequired), [])
       end.

(** The credential part of the [try] block: "Try Bearer token (OAuth)
    first", on [authHeader?.startsWith('Bearer ')]. *)
Definition resolveCredential (request : Request)
  : Result (DescopeAuthInfo * AuthMethod) * list SdkCall :=
  match authorization request with
  | Some authHeader =>
      if startsWith "Bearer " authHeader
      then withMethod oauth (validateSession (slice 7 authHeader))
      else tryApiKey request
  | None => tryApiKey request
  end.

(** "Convert to FastMCP session format". *)
Definition toSession (authInfo : DescopeAuthInfo) (m : AuthMethod)
  : DescopeSession :=
  let tok := token authInfo in
  {| userId := sub tok;
     email := token_email tok;
     name := token_name tok;
     permissions := extractPermissions authInfo;
     roles := extractRoles authInfo;
     authMethod := m;
     session_jwt := match m with oauth => Some (jwt authInfo) | api_key => None end;
     apiKeyId := match m with api_key => Some (sub tok) | oauth => None end;
     authenticated := true;
     timestamp := now;
     expiresAt := if token_exp tok =? 0 then None else Some (token_exp tok * 1000) |}.

(** [authenticateRequest(request)], with the SDK calls it made.  The
    [catch] clause rethrows a [Response] and wraps anything else. *)
Definition authenticateRequest (request : Request)
  : Result DescopeSession * list SdkCall :=
  let '(r, calls) := resolveCredential request in
  (match r with
   | Ok (authInfo, m) => Ok (toSession authInfo m)
   | Throw (ThrownResponse resp) => Throw (ThrownResponse resp)
   | Throw (ThrownError message) =>
       Throw (ThrownResponse
                (mkResponse (Some ("Authentication failed: " ++ message)%string)
                            401 "Unauthorized"))
   end, calls).

End WithSdk.

End Descope.

(* ===================================================================== *)
(** ** [ApiKeyProvider] ([src/auth/api-key.ts]) *)
(* ===================================================================== *)

Module ApiKey.
Import Js.

Record ApiKeySession := mkApiKeySession {
  apiKey : string;
  authenticated : bool;
  timestamp : nat
}.

Definition missingApiKey : Response :=
  mkResponse
    (Some "Missing API key. Provide either X-API-Key header or Authorization: Bearer <key>")
    401 "Unauthorized".

Definition invalidApiKey : Response :=
  mkResponse (Some "Invalid API key") 401 "Unauthorized".

(** The key the request provides: "Check X-API-Key header first", then
    "Fall back to Authorization header if X-API-Key not present". *)
Definition providedKey (request : Request) : option string :=
  let providedKey := x_api_key request in
  if negb (truthy providedKey)
  then match authorization request with
       | Some authHeader =>
           if startsWith "Bearer " authHeader
           then Some (slice 7 authHeader)
           else providedKey
       | None => providedKey
       end
  else providedKey.

(** [isAuthenticated(session?)]: [Boolean(session?.authenticated)] *)
Definition isAuthenticated (session : option ApiKeySession) : bool :=
  match session with
  | Some s => authenticated s
  | None => false
  end.

(** The constructor: [process.env.MCP_SERVER_API_KEY || process.env.API_KEY
    || ''], refused when empty.  The result is [this.validApiKey]. *)
Definition configuredKey (mcpServerApiKey apiKeyVar : option string)
  : Result string :=
  let validApiKey :=
    if truthy mcpServerApiKey then mcpServerApiKey
    else if truthy apiKeyVar then apiKeyVar
    else Some EmptyString in
  if negb (truthy validApiKey)
  then Throw (ThrownError "MCP_SERVER_API_KEY environment variable is required")
  else match validApiKey with
       | Some k => Ok k
       | None => Throw (ThrownError "MCP_SERVER_API_KEY environment variable is required")
       end.

Section WithKey.

(** [this.validApiKey], from the environment. *)
Variable validApiKey : string.

(** [Date.now()] *)
Variable now : nat.

(** [authenticateRequest(request)] *)
Definition authenticateRequest (request : Request) : Result ApiKeySession :=
  let providedKey := providedKey request in
  if negb (truthy providedKey)
  then Throw (ThrownResponse missingApiKey)
  else match providedKey with
       | None => Throw (ThrownResponse missingApiKey)
       | Some key =>
           if negb (String.eqb key validApiKey)
           then Throw (ThrownResponse invalidApiKey)
           else Ok {| apiKey := key; authenticated := true; timestamp := now |}
       end.

End WithKey.

End ApiKey.

(* ===================================================================== *)
(** ** The graph database and [Neo4jClient] ([src/neo4j/client.ts]) *)
(* ===================================================================== *)

Module Neo4j.
Import Js.

(** *** The store: a labelled property graph and the driver's event log *)

(** A node with the properties these sources read or write; an absent
    property is [None] (Cypher's [null]). *)
Record Node := mkNode {
  nid : nat;
  labels : list string;
  n_name : option string;
  n_type : option string;
  n_observations : option (list string);
  n_content : option string;
  n_created_at : option nat;
  n_updated_at : option nat
}.

Record Edge := mkEdge {
  src : nat;       (* id of startNode(r) *)
  tgt : nat;       (* id of endNode(r)   *)
  etype : string   (* type(r)            *)
}.

Record Graph := mkGraph {
  nodes : list Node;
  edges : list Edge
}.

Definition emptyGraph : Graph := mkGraph [] [].

(** Values bound to the [$parameters] of a statement. *)
Inductive Value :=
| VString (s : string)
| VStrings (l : list string)
| VNumber (n : nat)
| VEntities (l : list Entity)
| VAdditions (l : list ObservationAddition)
| VDeletions (l : list ObservationDeletion)
| VProperties (l : list (string * string))
| VUndefined.

(** The two arguments of [session.run(text, parameters)]. *)
Record Statement := mkStatement {
  text : string;
  parameters : list (string * Value)
}.

Inductive Event :=
| SessionOpened                 (* driver.session(...)          *)
| Ran (s : Statement)           (* session.run(...)             *)
| SessionClosed                 (* session.close()              *)
| VerifiedConnectivity.         (* driver.verifyConnectivity()  *)

Record Store := mkStore {
  graph : Graph;
  events : list Event;
  reachable : bool    (* whether driver.verifyConnectivity() succeeds *)
}.

Definition record (e : Event) (st : Store) : Store :=
  mkStore (graph st) (events st ++ [e]) (reachable st).

Definition openSession (st : Store) : Store := record SessionOpened st.
Definition closeSession (st : Store) : Store := record SessionClosed st.

(** An updating statement: logged, and the graph transformed. *)
Definition run (s : Statement) (f : Graph -> Graph) (st : Store) : Store :=
  mkStore (f (graph st)) (events st ++ [Ran s]) (reachable st).

(** A statement that updates the graph and returns records. *)
Definition runReturning {A : Type} (s : Statement) (f : Graph -> A * Graph)
  (st : Store) : A * Store :=
  let '(a, g) := f (graph st) in
  (a, mkStore g (events st ++ [Ran s]) (reachable st)).

(** *** Pattern matching and updates shared by the statements *)

Definition hasLabel (l : string) (n : Node) : bool := includes (labels n) l.

Definition nameIs (s : string) (n : Node) : bool :=
  match n_name n with
  | Some x => String.eqb x s
  | None => false
  end.

(** The node pattern [(:Memory {name: s})]. *)
Definition isMemory (s : string) (n : Node) : bool :=
  hasLabel "Memory" n && nameIs s n.

Definition matchMemory (s : string) (g : Graph) : list nat :=
  map nid (filter (isMemory s) (nodes g)).

Definition findNode (i : nat) (g : Graph) : option Node :=
  find (fun n => nid n =? i) (nodes g).

Definition freshId (g : Graph) : nat :=
  S (fold_right Nat.max 0 (map nid (nodes g))).

Definition updateNode (i : nat) (f : Node -> Node) (g : Graph) : Graph :=
  mkGraph (map (fun n => if nid n =? i then f n else n) (nodes g)) (edges g).

Definition coalesce (o : option (list string)) : list string :=
  match o with
  | Some l => l
  | None => []
  end.

Definition edgeEqb (a b : Edge) : bool :=
  (src a =? src b) && (tgt a =? tgt b) && String.eqb (etype a) (etype b).

Definition touches (i : nat) (e : Edge) : bool :=
  (src e =? i) || (tgt e =? i).

(** [MERGE (from)-[r:T]->(to)] on bound endpoints. *)
Definition mergeEdge (e : Edge) (g : Graph) : Graph :=
  if existsb (edgeEqb e) (edges g) then g
  else mkGraph (nodes g) (edges g ++ [e]).

(** [DETACH DELETE e] *)
Definition detachDelete (i : nat) (g : Graph) : Graph :=
  mkGraph (filter (fun n => negb (nid n =? i)) (nodes g))
          (filter (fun e => negb (touches i e)) (edges g)).

Definition nl : string := String (ascii_of_nat 10) EmptyString.

(** *** createEntities *)

(** The template literal of [createEntities].  The source escapes the
    dollar sign and the back quotes of its last line, so the text holds
    the characters [${entity.type}] themselves between back quotes. *)
Definition createEntitiesQuery : string :=
  String.concat nl
    [ "";
      "        UNWIND $entities as entity";
      "        MERGE (e:Memory { name: entity.name })";
      "        SET e += entity, e.type = entity.type";
      "        SET e:`${entity.type}`";
      "      " ].

(** The label the last [SET] clause of [createEntitiesQuery] names. *)
Definition entityTypeLabel : string := "${entity.type}".

Definition newMemory (i : nat) (s : string) : Node :=
  mkNode i ["Memory"] (Some s) None None None None None.

(** [MERGE (e:Memory { name: entity.name })] for one row: bind [e] to every
    matching node, or create one.  The rows pair the entity with the id
    bound to [e]. *)
Definition mergeMemory (entity : Entity) (g : Graph)
  : Graph * list (Entity * nat) :=
  match matchMemory (e_name entity) g with
  | [] =>
      let i := freshId g in
      (mkGraph (nodes g ++ [newMemory i (e_name entity)]) (edges g),
       [(entity, i)])
  | ids => (g, map (pair entity) ids)
  end.

(** The [MERGE] clause over the rows of [UNWIND]: each row sees the nodes
    created for the rows before it. *)
Fixpoint mergeAll (es : list Entity) (g : Graph)
  : Graph * list (Entity * nat) :=
  match es with
  | [] => (g, [])
  | e :: es' =>
      let '(g1, rows1) := mergeMemory e g in
      let '(g2, rows2) := mergeAll es' g1 in
      (g2, rows1 ++ rows2)
  end.

(** [SET e += entity, e.type = entity.type]: the map [entity] has the keys
    [name], [type] and [observations]. *)
Definition setEntity (entity : Entity) (n : Node) : Node :=
  mkNode (nid n) (labels n)
         (Some (e_name entity)) (Some (e_type entity))
         (Some (e_observations entity))
         (n_content n) (n_created_at n) (n_updated_at n).

Definition addLabel (l : string) (n : Node) : Node :=
  mkNode (nid n) (if includes (labels n) l then labels n else labels n ++ [l])
         (n_name n) (n_type n) (n_observations n)
         (n_content n) (n_created_at n) (n_updated_at n).

(** The effect of the whole statement, clause by clause. *)
Definition createEntitiesUpdate (es : list Entity) (g : Graph) : Graph :=
  let '(g1, rows) := mergeAll es g in
  let g2 := fold_left (fun g r => updateNode (snd r) (setEntity (fst r)) g) rows g1 in
  fold_left (fun g r => updateNode (snd r) (addLabel entityTypeLabel) g) rows g2.

Definition createEntities (es : list Entity) (st : Store)
  : list Entity * Store :=
  let st := openSession st in
  let st := run (mkStatement createEntitiesQuery [("entities", VEntities es)])
                (createEntitiesUpdate es) st in
  (es, closeSession st).

(** *** createRelations *)

(** The template literal of [createRelations]: here too the dollar sign
    and the back quotes are escaped in the source, so the text does not
    depend on the relation. *)
Definition createRelationQuery (relation : Relation) : string :=
  String.concat nl
    [ "";
      "          MATCH (from:Memory {name: $source}), (to:Memory {name: $target})";
      "          MERGE (from)-[r:`${relation.relationType}`]->(to)";
      "        " ].

(** The relationship type the back-quoted identifier of the pattern
    [[r:`${relation.relationType}`]] names. *)
Definition relationTypeName : string := "${relation.relationType}".

Definition relationParameters (relation : Relation) : list (string * Value) :=
  [ ("source", VString (source relation));
    ("target", VString (target relation));
    ("relationType", VString (relationType relation)) ].

(** [MATCH (from ...), (to ...)] gives the product of the matches; [MERGE]
    then runs once per row. *)
Definition createRelationUpdate (relation : Relation) (g : Graph) : Graph :=
  let rows := list_prod (matchMemory (source relation) g)
                        (matchMemory (target relation) g) in
  fold_left (fun g r => mergeEdge (mkEdge (fst r) (snd r) relationTypeName) g)
            rows g.

Definition createRelationStep (st : Store) (relation : Relation) : Store :=
  run (mkStatement (createRelationQuery relation) (relationParameters relation))
      (createRelationUpdate relation) st.

Definition createRelations (rs : list Relation) (st : Store)
  : list Relation * Store :=
  let st := openSession st in
  let st := fold_left createRelationStep rs st in
  (rs, closeSession st).

(** *** addObservations *)

Definition addObservationsQuery : string :=
  String.concat nl
    [ "";
      "        UNWIND $observations as obs  ";
      "        MATCH (e:Memory { name: obs.entityName })";
      "        WITH e, [o in obs.contents WHERE NOT o IN coalesce(e.observations, [])] as new";
      "        SET e.observations = coalesce(e.observations, []) + new";
      "        RETURN e.name as name, new";
      "      " ].

(** A row after the [WITH] clause: the id bound to [e] and the list [new]. *)
Record AddRow := mkAddRow {
  row_e : nat;
  row_new : list string
}.

(** [[o in obs.contents WHERE NOT o IN coalesce(e.observations, [])]] *)
Definition newObservations (existing : option (list string))
  (contents : list string) : list string :=
  filter (fun o => negb (includes (coalesce existing) o)) contents.

(** [UNWIND], [MATCH] and [WITH]: read against the graph as it is before
    the [SET] clause starts. *)
Definition addObservationsRows (obs : list ObservationAddition) (g : Graph)
  : list AddRow :=
  flat_map
    (fun o =>
       map (fun n => mkAddRow (nid n)
                       (newObservations (n_observations n) (contents o)))
           (filter (isMemory (oa_entityName o)) (nodes g)))
    obs.

(** [SET e.observations = coalesce(e.observations, []) + new] *)
Definition appendObservations (new : list string) (n : Node) : Node :=
  mkNode (nid n) (labels n) (n_name n) (n_type n)
         (Some (coalesce (n_observations n) ++ new))
         (n_content n) (n_created_at n) (n_updated_at n).

Record AddedObservations := mkAdded {
  entityName : string;
  addedObservations : list string
}.

(** [e.name] as the driver hands it to JavaScript. *)
Definition nameOf (i : nat) (g : Graph) : string :=
  match findNode i g with
  | Some n => match n_name n with Some s => s | None => "" end
  | None => ""
  end.

Definition addObservationsUpdate (obs : list ObservationAddition) (g : Graph)
  : list AddedObservations * Graph :=
  let rows := addObservationsRows obs g in
  let g' := fold_left
              (fun g r => updateNode (row_e r) (appendObservations (row_new r)) g)
              rows g in
  (map (fun r => mkAdded (nameOf (row_e r) g') (row_new r)) rows, g').

Definition addObservations (obs : list ObservationAddition) (st : Store)
  : list AddedObservations * Store :=
  let st := openSession st in
  let '(result, st) :=
    runReturning (mkStatement addObservationsQuery [("observations", VAdditions obs)])
                 (addObservationsUpdate obs) st in
  (result, closeSession st).

(** *** deleteEntities *)

Definition deleteEntitiesQuery : string :=
  String.concat nl
    [ "";
      "        UNWIND $entities as name";
      "        MATCH (e:Memory { name: name })";
      "        DETACH DELETE e";
      "      " ].

Definition deleteEntitiesUpdate (entityNames : list string) (g : Graph) : Graph :=
  let rows := flat_map (fun s => matchMemory s g) entityNames in
  fold_left (fun g i => detachDelete i g) rows g.

Definition deleteEntities (entityNames : list string) (st : Store) : Store :=
  let st := openSession st in
  let st := run (mkStatement deleteEntitiesQuery [("entities", VStrings entityNames)])
                (deleteEntitiesUpdate entityNames) st in
  closeSession st.

(** *** deleteObservations *)

Definition deleteObservationsQuery : string :=
  String.concat nl
    [ "";
      "        UNWIND $deletions as d  ";
      "        MATCH (e:Memory { name: d.entityName })";
      "        SET e.observations = [o in coalesce(e.observations, []) WHERE NOT o IN d.observations]";
      "      " ].

Definition removeObservations (gone : list string) (n : Node) : Node :=
  mkNode (nid n) (labels n) (n_name n) (n_type n)
         (Some (filter (fun o => negb (includes gone o))
                       (coalesce (n_observations n))))
         (n_content n) (n_created_at n) (n_updated_at n).

Definition deleteObservationsUpdate (ds : list ObservationDeletion) (g : Graph)
  : Graph :=
  let rows := flat_map
                (fun d => map (fun i => (i, od_observations d))
                              (matchMemory (od_entityName d) g))
                ds in
  fold_left (fun g r => updateNode (fst r) (removeObservations (snd r)) g) rows g.

Definition deleteObservations (ds : list ObservationDeletion) (st : Store)
  : Store :=
  let st := openSession st in
  let st := run (mkStatement deleteObservationsQuery [("deletions", VDeletions ds)])
                (deleteObservationsUpdate ds) st in
  closeSession st.

(** *** deleteRelations *)

Definition deleteRelationQuery (relation : Relation) : string :=
  String.concat nl
    [ "";
      "          MATCH (source:Memory {name: $source})-[r:`${relation.relationType}`]->(target:Memory {name: $target})";
      "          DELETE r";
      "        " ].

Definition deleteRelationUpdate (relation : Relation) (g : Graph) : Graph :=
  let sources := matchMemory (source relation) g in
  let targets := matchMemory (target relation) g in
  mkGraph (nodes g)
          (filter (fun e => negb (existsb (Nat.eqb (src e)) sources
                                  && existsb (Nat.eqb (tgt e)) targets
                                  && String.eqb (etype e) relationTypeName))
                  (edges g)).

Definition deleteRelationStep (st : Store) (relation : Relation) : Store :=
  run (mkStatement (deleteRelationQuery relation) (relationParameters relation))
      (deleteRelationUpdate relation) st.

Definition deleteRelations (rs : list Relation) (st : Store) : Store :=
  let st := openSession st in
  let st := fold_left deleteRelationStep rs st in
  closeSession st.

(** *** loadGraph, searchNodes, findNodes *)

Definition loadGraphQuery : string :=
  String.concat nl
    [ "";
      "        CALL db.index.fulltext.queryNodes('search', $filter) ";
      "        YIELD node as entity, score";
      "        OPTIONAL MATCH (entity)-[r]-(other)";
      "        RETURN collect(distinct {";
      "          name: entity.name, ";
      "          type: entity.type, ";
      "          observations: entity.observations";
      "        }) as nodes,";
      "        collect(distinct {";
      "          source: startNode(r).name, ";
      "          target: endNode(r).name, ";
      "          relationType: type(r)";
      "        }) as relations";
      "      " ].

(** The maps the two [collect(distinct ...)] build; [None] is [null]. *)
Definition NodeMap : Type := option string * option string * option (list string).
Definition RelMap : Type := option string * option string * option string.

Definition optEqb {A : Type} (eqb : A -> A -> bool) (a b : option A) : bool :=
  match a, b with
  | Some x, Some y => eqb x y
  | None, None => true
  | _, _ => false
  end.

Fixpoint listEqb {A : Type} (eqb : A -> A -> bool) (a b : list A) : bool :=
  match a, b with
  | [], [] => true
  | x :: a', y :: b' => eqb x y && listEqb eqb a' b'
  | _, _ => false
  end.

Definition nodeMapEqb (a b : NodeMap) : bool :=
  optEqb String.eqb (fst (fst a)) (fst (fst b))
  && optEqb String.eqb (snd (fst a)) (snd (fst b))
  && optEqb (listEqb String.eqb) (snd a) (snd b).

Definition relMapEqb (a b : RelMap) : bool :=
  optEqb String.eqb (fst (fst a)) (fst (fst b))
  && optEqb String.eqb (snd (fst a)) (snd (fst b))
  && optEqb String.eqb (snd a) (snd b).

(** [collect(distinct x)]: first occurrences, in row order. *)
Fixpoint distinctFrom {A : Type} (eqb : A -> A -> bool) (seen l : list A)
  : list A :=
  match l with
  | [] => []
  | x :: l' =>
      if existsb (eqb x) seen then distinctFrom eqb seen l'
      else x :: distinctFrom eqb (x :: seen) l'
  end.

Definition distinct {A : Type} (eqb : A -> A -> bool) (l : list A) : list A :=
  distinctFrom eqb [] l.

Definition nodeMapOf (n : Node) : NodeMap :=
  (n_name n, n_type n, n_observations n).

Definition propertyName (i : nat) (g : Graph) : option string :=
  match findNode i g with
  | Some n => n_name n
  | None => None
  end.

Definition relMapOf (g : Graph) (e : Edge) : RelMap :=
  (propertyName (src e) g, propertyName (tgt e) g, Some (etype e)).

(** The rows [OPTIONAL MATCH (entity)-[r]-(other)] gives for one entity:
    one per relationship at the node, or a single row where [r] is
    [null]. *)
Definition relationRows (g : Graph) (n : Node) : list RelMap :=
  match filter (touches (nid n)) (edges g) with
  | [] => [(None, None, None)]
  | es => map (relMapOf g) es
  end.

(** [node.name] and friends in a JavaScript condition. *)
Definition truthyName (s : option string) : option string :=
  if truthy s then s else None.

Definition toEntity (m : NodeMap) : option Entity :=
  match truthyName (fst (fst m)) with
  | Some s =>
      Some (mkEntity s
                     (match snd (fst m) with Some t => t | None => "" end)
                     (coalesce (snd m)))
  | None => None
  end.

Definition toRelation (m : RelMap) : option Relation :=
  match truthyName (fst (fst m)), truthyName (snd (fst m)), truthyName (snd m) with
  | Some s, Some t, Some r => Some (mkRelation s t r)
  | _, _, _ => None
  end.

Fixpoint filterMap {A B : Type} (f : A -> option B) (l : list A) : list B :=
  match l with
  | [] => []
  | x :: l' =>
      match f x with
      | Some y => y :: filterMap f l'
      | None => filterMap f l'
      end
  end.

Section WithIndex.

(** The full-text index [search], created [FOR (m:Memory) ON EACH
    [m.name, m.type, m.observations]]: [queryNodes q n] tells whether
    [db.index.fulltext.queryNodes('search', q)] yields the indexed node
    [n].  The engine is outside the repository. *)
Variable queryNodes : string -> Node -> bool.

(** The nodes the procedure call yields. *)
Definition yielded (filterQuery : string) (g : Graph) : list Node :=
  filter (fun n => hasLabel "Memory" n && queryNodes filterQuery n) (nodes g).

(** The single record of the aggregating [RETURN], then the [filter] and
    [map] of [loadGraph]. *)
Definition loadGraphResult (filterQuery : string) (g : Graph) : KnowledgeGraph :=
  let matched := yielded filterQuery g in
  let nodeMaps := distinct nodeMapEqb (map nodeMapOf matched) in
  let relMaps := distinct relMapEqb (flat_map (relationRows g) matched) in
  mkKnowledgeGraph (filterMap toEntity nodeMaps) (filterMap toRelation relMaps).

(** [loadGraph(filterQuery = '*')] *)
Definition loadGraph (filterQuery : option string) (st : Store)
  : KnowledgeGraph * Store :=
  let filterQuery := match filterQuery with Some q => q | None => "*" end in
  let st := openSession st in
  let '(result, st) :=
    runReturning (mkStatement loadGraphQuery [("filter", VString filterQuery)])
                 (fun g => (loadGraphResult filterQuery g, g)) st in
  (result, closeSession st).

(** [searchNodes(query)] *)
Definition searchNodes (query : string) (st : Store) : KnowledgeGraph * Store :=
  loadGraph (Some query) st.

(** The query [`name:(${names.join(' ')})`] of [findNodes]. *)
Definition findNodesFilter (names : list string) : string :=
  ("name:(" ++ String.concat " " names ++ ")")%string.

(** [findNodes(names)] *)
Definition findNodes (names : list string) (st : Store) : KnowledgeGraph * Store :=
  loadGraph (Some (findNodesFilter names)) st.

End WithIndex.

(** [verifyConnection()] *)
Definition verifyConnection (st : Store) : bool * Store :=
  (reachable st, record VerifiedConnectivity st).

End Neo4j.

(* ===================================================================== *)
(** ** The FastMCP framework, as these servers use it *)
(* ===================================================================== *)

Module FastMCP.
Import Js Neo4j.

(** A request reaches a tool only through the [authenticate] hook of the
    server: when the hook throws, the framework answers with what it
    threw and no tool runs. *)
Definition serve {S P : Type} (authenticate : Request -> Result S)
  (tool : S -> Store -> Result P * Store)
  (request : Request) (st : Store) : Result P * Store :=
  match authenticate request with
  | Ok session => tool session st
  | Throw t => (Throw t, st)
  end.

(** The arguments of a call are parsed against the [parameters] schema of
    the tool before [execute] runs; a call that does not parse is answered
    with an error. *)
Definition invalidParams : Thrown := ThrownError "Invalid parameters".

Definition withParameters {A S P : Type} {Raw : Type}
  (parse : Raw -> option A)
  (execute : A -> S -> Store -> Result P * Store)
  (raw : Raw) (session : S) (st : Store) : Result P * Store :=
  match parse raw with
  | Some args => execute args session st
  | None => (Throw invalidParams, st)
  end.

Fixpoint parseArray {Raw A : Type} (parse : Raw -> option A) (l : list Raw)
  : option (list A) :=
  match l with
  | [] => Some []
  | x :: l' =>
      match parse x, parseArray parse l' with
      | Some a, Some l'' => Some (a :: l'')
      | _, _ => None
      end
  end.

End FastMCP.

(* ===================================================================== *)
(** ** [Neo4jMCPServer] ([src/server.ts]) *)
(* ===================================================================== *)

Module Server.
Import Js Neo4j.

(** A call of one of the ten tools, with its parsed arguments. *)
Inductive ToolCall :=
| create_entities (entities : list Entity)
| create_relations (relations : list Relation)
| add_observations (observations : list ObservationAddition)
| delete_entities (entityNames : list string)
| delete_observations (deletions : list ObservationDeletion)
| delete_relations (relations : list Relation)
| read_graph
| search_nodes (query : string)
| find_nodes (names : list string)
| health_check.

(** What [execute] returns, before [JSON.stringify]. *)
Inductive Payload :=
| EntitiesJson (l : list Entity)
| RelationsJson (l : list Relation)
| AddedJson (l : list AddedObservations)
| Text (s : string)
| GraphJson (k : KnowledgeGraph)
| StatusJson (connected : bool) (user : string) (sessionScopes : list string).

(** The scope each tool is registered with (section 6 of the
    specification). *)
Definition requiredScope (call : ToolCall) : string :=
  match call with
  | read_graph | search_nodes _ | find_nodes _ => "read"
  | health_check => "admin"
  | _ => "write"
  end.

(** An item of the [relations] argument as it arrives: a JSON object whose
    string members may be missing. *)
Record RawRelation := mkRawRelation {
  raw_source : option string;
  raw_target : option string;
  raw_relationType : option string
}.

(** [z.object({ source: z.string(), target: z.string(),
    relationType: z.string() })], the schema of the items of both
    [create_relations] and [delete_relations]. *)
Definition parseRelation (r : RawRelation) : option Relation :=
  match raw_source r, raw_target r, raw_relationType r with
  | Some s, Some t, Some ty => Some (mkRelation s t ty)
  | _, _, _ => None
  end.

Definition parseRelations (l : list RawRelation) : option (list Relation) :=
  FastMCP.parseArray parseRelation l.

Section WithIndex.

Variable queryNodes : string -> Node -> bool.

(** The two checks that open every [execute]. *)
Definition guarded (session : option AuthSession) (scope : string)
  (body : AuthSession -> Store -> Payload * Store) (st : Store)
  : Result Payload * Store :=
  match session with
  | None => (Throw (ThrownError "Authentication required"), st)
  | Some s =>
      if negb (OAuth.hasScope s scope)
      then (Throw (ThrownError
                     ("Insufficient permissions: " ++ scope ++ " scope required")%string),
            st)
      else let '(p, st') := body s st in (Ok p, st')
  end.

(** [execute] of each tool registered by [setupTools]. *)
Definition execute (call : ToolCall) (session : option AuthSession) (st : Store)
  : Result Payload * Store :=
  match call with
  | create_entities es =>
      guarded session "write"
        (fun _ st => let '(r, st) := createEntities es st in (EntitiesJson r, st)) st
  | create_relations rs =>
      guarded session "write"
        (fun _ st => let '(r, st) := createRelations rs st in (RelationsJson r, st)) st
  | add_observations obs =>
      guarded session "write"
        (fun _ st => let '(r, st) := addObservations obs st in (AddedJson r, st)) st
  | delete_entities ns =>
      guarded session "write"
        (fun _ st => (Text "Entities deleted successfully", deleteEntities ns st)) st
  | delete_observations ds =>
      guarded session "write"
        (fun _ st => (Text "Observations deleted successfully",
                      deleteObservations ds st)) st
  | delete_relations rs =>
      guarded session "write"
        (fun _ st => (Text "Relations deleted successfully",
                      deleteRelations rs st)) st
  | read_graph =>
      guarded session "read"
        (fun _ st => let '(k, st) := loadGraph queryNodes None st in (GraphJson k, st)) st
  | search_nodes q =>
      guarded session "read"
        (fun _ st => let '(k, st) := searchNodes queryNodes q st in (GraphJson k, st)) st
  | find_nodes ns =>
      guarded session "read"
        (fun _ st => let '(k, st) := findNodes queryNodes ns st in (GraphJson k, st)) st
  | health_check =>
      guarded session "admin"
        (fun s st => let '(connected, st) := verifyConnection st in
                     (StatusJson connected (userId s) (scopes s), st)) st
  end.

(** The [delete_relations] tool from the raw arguments on. *)
Definition callDeleteRelations (raw : list RawRelation)
  (session : option AuthSession) (st : Store) : Result Payload * Store :=
  FastMCP.withParameters parseRelations
    (fun rs => execute (delete_relations rs)) raw session st.

Section WithJwt.

Variable jwtVerify : string -> AuthSession + string.
Variable now : nat.

(** The server as constructed: [authenticate] is
    [oauthProvider.authenticateRequest]. *)
Definition handle (request : Request) (call : ToolCall) (st : Store)
  : Result Payload * Store :=
  FastMCP.serve (OAuth.authenticateRequest jwtVerify now)
                (fun session => execute call (Some session)) request st.

End WithJwt.

End WithIndex.

End Server.

(* ===================================================================== *)
(** ** The Descope server ([Neo4jMCPServer] over [DescopeAuthProvider]):
       [requirePermission], [create_relations] and [delete_relations] *)
(* ===================================================================== *)

Module DescopeServer.
Import Js Neo4j.

(** [requirePermission(session, permission)] *)
Definition requirePermission (session : Descope.DescopeSession)
  (permission : string) : Result unit :=
  if negb (Descope.hasPermission session permission)
  then Throw (ThrownError ("Insufficient permissions. Required: " ++ permission)%string)
  else Ok tt.

(** [relation.toUpperCase().replace(/\s+/g, '_')], the text both handlers
    write in the relationship-type position of their pattern. *)
Definition relationTypeToken (relation : string) : string :=
  replaceWhiteSpace (toUpperCase relation).

(** Whether a text is a relationship-type name: a letter or underscore,
    then letters, digits and underscores.  For such a text [t] the pattern
    [[r:t]] matches exactly the relationships of type [t]. *)
Definition isTypeName (s : string) : bool :=
  match s with
  | EmptyString => false
  | String c s' =>
      (isLetter c || (nat_of_ascii c =? 95)) && allChars isWordChar s'
  end.

(** An item of the [relations] argument of [create_relations]. *)
Record RelationInput := mkRelationInput {
  from : string;
  to : string;
  relation : string;
  properties : option (list (string * string))
}.

Definition createRelationQuery (rel : RelationInput) : string :=
  String.concat nl
    [ "";
      "              MATCH (from:Entity {name: $from})";
      "              MATCH (to:Entity {name: $to})";
      ("              CREATE (from)-[r:" ++ relationTypeToken (relation rel)
         ++ " $properties]->(to)")%string;
      "              SET r.created_at = datetime()";
      "              RETURN from.name as from_name, to.name as to_name, type(r) as relation_type";
      "            " ].

(** The statement [create_relations] runs for one item. *)
Definition createRelationStatement (rel : RelationInput) : Statement :=
  mkStatement (createRelationQuery rel)
    [ ("from", VString (from rel));
      ("to", VString (to rel));
      ("properties", VProperties (match properties rel with
                                  | Some p => p
                                  | None => []
                                  end)) ].

(** The arguments of [delete_relations]: one pair, and an optional type. *)
Record DeleteArgs := mkDeleteArgs {
  d_from : string;
  d_to : string;
  relation_type : option string
}.

Record RawDeleteArgs := mkRawDeleteArgs {
  raw_from : option string;
  raw_to : option string;
  raw_relation_type : option string
}.

(** [z.object({ from: z.string(), to: z.string(),
    relation_type: z.string().optional() })] *)
Definition parseDeleteArgs (r : RawDeleteArgs) : option DeleteArgs :=
  match raw_from r, raw_to r with
  | Some f, Some t => Some (mkDeleteArgs f t (raw_relation_type r))
  | _, _ => None
  end.

Definition deleteTypedQuery (relType : string) : string :=
  String.concat nl
    [ "";
      ("              MATCH (from:Entity {name: $from})-[r:" ++ relType
         ++ "]->(to:Entity {name: $to})")%string;
      "              DELETE r";
      "              RETURN count(r) as deleted_count";
      "            " ].

Definition deleteAnyQuery : string :=
  String.concat nl
    [ "";
      "              MATCH (from:Entity {name: $from})-[r]->(to:Entity {name: $to})";
      "              DELETE r";
      "              RETURN count(r) as deleted_count";
      "            " ].

(** The type the handler filters on: [if (params.relation_type)] takes the
    branch with a type only for a non-empty string. *)
Definition requestedType (args : DeleteArgs) : option string :=
  if truthy (relation_type args)
  then match relation_type args with
       | Some t => Some (relationTypeToken t)
       | None => None
       end
  else None.

Definition deleteStatement (args : DeleteArgs) : Statement :=
  mkStatement
    (match requestedType args with
     | Some relType => deleteTypedQuery relType
     | None => deleteAnyQuery
     end)
    [ ("from", VString (d_from args)); ("to", VString (d_to args)) ].

(** The node pattern [(:Entity {name: s})]. *)
Definition isEntity (s : string) (n : Node) : bool :=
  hasLabel "Entity" n && nameIs s n.

Definition matchEntity (s : string) (g : Graph) : list nat :=
  map nid (filter (isEntity s) (nodes g)).

(** The relationships the [MATCH] of the statement binds to [r]. *)
Definition matched (args : DeleteArgs) (g : Graph) (e : Edge) : bool :=
  existsb (Nat.eqb (src e)) (matchEntity (d_from args) g)
  && existsb (Nat.eqb (tgt e)) (matchEntity (d_to args) g)
  && match requestedType args with
     | Some relType => String.eqb (etype e) relType
     | None => true
     end.

(** [DELETE r] and [RETURN count(r)]. *)
Definition deleteRelationsUpdate (args : DeleteArgs) (g : Graph) : nat * Graph :=
  (length (filter (matched args g) (edges g)),
   mkGraph (nodes g) (filter (fun e => negb (matched args g e)) (edges g))).

Record Deleted := mkDeleted {
  success : bool;
  deleted_from : string;
  deleted_to : string;
  deleted_type : option string;
  relations_deleted : nat
}.

(** The handler of [delete_relations]. *)
Definition delete_relations (args : DeleteArgs)
  (session : Descope.DescopeSession) (st : Store) : Result Deleted * Store :=
  match requirePermission session Descope.WRITE with
  | Throw t => (Throw t, st)
  | Ok _ =>
      let st := openSession st in
      let '(count, st) :=
        runReturning (deleteStatement args) (deleteRelationsUpdate args) st in
      (Ok (mkDeleted true (d_from args) (d_to args) (relation_type args) count),
       closeSession st)
  end.

(** The tool from the raw arguments on. *)
Definition callDeleteRelations (raw : RawDeleteArgs)
  (session : Descope.DescopeSession) (st : Store) : Result Deleted * Store :=
  FastMCP.withParameters parseDeleteArgs delete_relations raw session st.

End DescopeServer.

(* ===================================================================== *)
(** ** The API-key server ([Neo4jMCPServerWithApiKey]): [create_entities] *)
(* ===================================================================== *)

Module ApiKeyServer.
Import Js Neo4j.

Record ApiKeyAuthSession := mkApiKeyAuthSession {
  authenticated : bool;
  apiKey : string;
  permissions : list string;
  timestamp : nat
}.

(** [hasPermission(session, permission)] *)
Definition hasPermission (session : ApiKeyAuthSession) (permission : string) : bool :=
  includes (permissions session) permission
  || includes (permissions session) "mcp:admin".

(** [requirePermission(session, permission)] *)
Definition requirePermission (session : ApiKeyAuthSession) (permission : string)
  : Result unit :=
  if negb (hasPermission session permission)
  then Throw (ThrownError ("Insufficient permissions. Required: " ++ permission)%string)
  else Ok tt.

(** An item of the [entities] argument: [observations] is optional. *)
Record EntityInput := mkEntityInput {
  name : string;
  type : string;
  observations : option (list string)
}.

Definition mergeEntityQuery : string :=
  String.concat nl
    [ "";
      "              MERGE (e:Entity {name: $name})";
      "              SET e.type = $type, e.created_at = datetime(), e.updated_at = datetime()";
      "              RETURN e";
      "              " ].

Definition createObservationQuery : string :=
  String.concat nl
    [ "";
      "                  MATCH (e:Entity {name: $entityName})";
      "                  CREATE (o:Observation {content: $content, created_at: datetime()})";
      "                  CREATE (e)-[:HAS_OBSERVATION]->(o)";
      "                  " ].

Definition isEntity (s : string) (n : Node) : bool :=
  hasLabel "Entity" n && nameIs s n.

Definition matchEntity (s : string) (g : Graph) : list nat :=
  map nid (filter (isEntity s) (nodes g)).

Section WithClock.

(** [datetime()] as the database evaluates it during the call. *)
Variable now : nat.

Definition newEntity (i : nat) (s : string) : Node :=
  mkNode i ["Entity"] (Some s) None None None None None.

(** [SET e.type = $type, e.created_at = datetime(), e.updated_at = datetime()] *)
Definition setType (t : string) (n : Node) : Node :=
  mkNode (nid n) (labels n) (n_name n) (Some t) (n_observations n)
         (n_content n) (Some now) (Some now).

(** The first statement: [MERGE] binds [e] to the matching nodes or to a
    new one, [SET] then updates each of them. *)
Definition mergeEntityUpdate (entity : EntityInput) (g : Graph) : Graph :=
  let '(g1, rows) :=
    match matchEntity (name entity) g with
    | [] =>
        let i := freshId g in
        (mkGraph (nodes g ++ [newEntity i (name entity)]) (edges g), [i])
    | ids => (g, ids)
    end in
  fold_left (fun g i => updateNode i (setType (type entity)) g) rows g1.

Definition newObservation (i : nat) (content : string) : Node :=
  mkNode i ["Observation"] None None None (Some content) (Some now) None.

(** The two [CREATE] clauses for one row. *)
Definition attachObservation (content : string) (g : Graph) (e : nat) : Graph :=
  let o := freshId g in
  mkGraph (nodes g ++ [newObservation o content])
          (edges g ++ [mkEdge e o "HAS_OBSERVATION"]).

(** The second statement, for one observation. *)
Definition createObservationUpdate (entityName content : string) (g : Graph)
  : Graph :=
  fold_left (attachObservation content) (matchEntity entityName g) g.

Definition createObservationStep (entityName : string) (st : Store)
  (content : string) : Store :=
  run (mkStatement createObservationQuery
         [ ("entityName", VString entityName); ("content", VString content) ])
      (createObservationUpdate entityName content) st.

Record Created := mkCreated {
  created_name : string;
  created_type : string;
  created : bool
}.

(** The body of the [for] loop over [params.entities]. *)
Definition createEntityStep (acc : list Created * Store) (entity : EntityInput)
  : list Created * Store :=
  let '(results, st) := acc in
  let st := run (mkStatement mergeEntityQuery
                   [ ("name", VString (name entity));
                     ("type", VString (type entity)) ])
                (mergeEntityUpdate entity) st in
  let st := match observations entity with
            | Some obs => fold_left (createObservationStep (name entity)) obs st
            | None => st
            end in
  (results ++ [mkCreated (name entity) (type entity) true], st).

(** The handler of [create_entities]. *)
Definition create_entities (entities : list EntityInput)
  (session : ApiKeyAuthSession) (st : Store) : Result (list Created) * Store :=
  match requirePermission session "mcp:write" with
  | Throw t => (Throw t, st)
  | Ok _ =>
      let st := openSession st in
      let '(results, st) := fold_left createEntityStep entities ([], st) in
      (Ok results, closeSession st)
  end.

End WithClock.

(** The contents of the observations an entity node owns, in the order
    of their [HAS_OBSERVATION] relationships. *)
Definition contentOf (g : Graph) (i : nat) : list string :=
  match findNode i g with
  | Some n =>
      if hasLabel "Observation" n
      then match n_content n with Some c => [c] | None => [] end
      else []
  | None => []
  end.

Definition observationsOf (g : Graph) (e : nat) : list string :=
  flat_map (fun r => if (src r =? e) && String.eqb (etype r) "HAS_OBSERVATION"
                     then contentOf g (tgt r) else [])
           (edges g).

End ApiKeyServer.

(* ===================================================================== *)
(** ** Reading a statement text, and the sanitizer the specification
       describes *)
(* ===================================================================== *)

Module Query.
Import Js.

Fixpoint takeUntil (p : ascii -> bool) (s : string) : string :=
  match s with
  | EmptyString => EmptyString
  | String c s' => if p c then EmptyString else String c (takeUntil p s')
  end.

(** The text written in the relationship-type position of the pattern
    [[r:...]] of a statement: what follows [[r:] up to the next space or
    closing bracket. *)
Definition typePosition (text : string) : option string :=
  match index 0 "[r:" text with
  | Some i =>
      Some (takeUntil (fun c => (nat_of_ascii c =? 32) || (nat_of_ascii c =? 93))
                      (slice (i + 3) text))
  | None => None
  end.

Definition backQuote : ascii := ascii_of_nat 96.

Fixpoint dropLast (s : string) : string :=
  match s with
  | EmptyString => EmptyString
  | String c EmptyString => EmptyString
  | String c s' => String c (dropLast s')
  end.

(** The name a Cypher identifier denotes: a back-quoted identifier
    denotes the text between the quotes. *)
Definition unquote (s : string) : string :=
  match s with
  | String c s' =>
      if Ascii.eqb c backQuote then dropLast s' else s
  | EmptyString => s
  end.

(** The relationship type the pattern [[r:...]] of a statement names. *)
Definition relationshipType (text : string) : option string :=
  option_map unquote (typePosition text).

(** Whether [s] occurs in [text]. *)
Definition occurs (s text : string) : bool :=
  match index 0 s text with
  | Some _ => true
  | None => false
  end.

(** The sanitizer in the words of the specification: white space becomes
    an underscore, the text is upper-cased, and only the characters
    [[A-Za-z0-9_]] are kept.  No source function is embedded here; it is
    what the queries of the sources are compared with. *)
Definition specSanitize (relationType : string) : string :=
  filterString isWordChar (toUpperCase (replaceWhiteSpace relationType)).

End Query.

(* ===================================================================== *)
(** ** A JavaScript [Map] with string keys *)
(* ===================================================================== *)

Module JsMap.

(** The entries in insertion order. *)
Definition t (V : Type) : Type := list (string * V).

(** [m.get(k)] *)
Fixpoint get {V : Type} (k : string) (m : t V) : option V :=
  match m with
  | [] => None
  | (k', v) :: m' => if String.eqb k' k then Some v else get k m'
  end.

(** [m.set(k, v)]: an existing key keeps its place and takes the value. *)
Fixpoint set {V : Type} (k : string) (v : V) (m : t V) : t V :=
  match m with
  | [] => [(k, v)]
  | (k', v') :: m' =>
      if String.eqb k' k then (k, v) :: m' else (k', v') :: set k v m'
  end.

(** [m.delete(k)]: whether the key was there, and the map without it. *)
Definition delete {V : Type} (k : string) (m : t V) : bool * t V :=
  (match get k m with Some _ => true | None => false end,
   filter (fun kv => negb (String.eqb (fst kv) k)) m).

End JsMap.

(* ===================================================================== *)
(** ** The OAuth flow of [DescopeAuthProvider]
       ([src/auth/descope-provider.ts]) *)
(* ===================================================================== *)

Module DescopeFlow.
Import Js.

Record OAuthState := mkOAuthState {
  codeVerifier : string;
  state : string;
  nonce : string;
  provider : string;
  redirectUri : string;
  timestamp : nat
}.

(** The options handed to [client.oauth.start]. *)
Record StartOptions := mkStartOptions {
  scope : string;
  start_state : string;
  start_nonce : string;
  codeChallenge : string
}.

(** [tokenResponse.data] of [client.oauth.exchange]. *)
Record Exchanged := mkExchanged {
  sessionJwt : string;
  refreshJwt : string
}.

(** What [completeOAuthFlow] returns. *)
Record Completed := mkCompleted {
  completed_jwt : string;
  completed_token : Descope.Token;
  completed_refreshToken : string
}.

(** The 15 minutes of [15 * 60 * 1000]. *)
Definition stateLifetime : nat := 15 * 60 * 1000.

(** [now - state.timestamp > 15 * 60 * 1000] *)
Definition expired (now : nat) (s : OAuthState) : bool :=
  stateLifetime <? now - timestamp s.

(** [cleanupExpiredStates()]: the keys of the expired states are collected
    first, and each is deleted afterwards. *)
Definition cleanupExpiredStates (now : nat) (states : JsMap.t OAuthState)
  : JsMap.t OAuthState :=
  let expiredStates := map fst (filter (fun kv => expired now (snd kv)) states) in
  fold_left (fun m key => snd (JsMap.delete key m)) expiredStates states.

Section WithSdk.

(** [client.oauth.start(provider, redirectUri, options)]: the URL of
    [response.data.url], or the message of the error thrown. *)
Variable oauthStart : string -> string -> StartOptions -> string + string.

(** [client.oauth.exchange(code, { codeVerifier })] *)
Variable oauthExchange : string -> string -> Exchanged + string.

(** [client.validateSession(jwt)] *)
Variable sdkValidateSession : string -> Descope.DescopeAuthInfo + string.

(** [generateCodeChallenge(verifier)]: a SHA-256 digest. *)
Variable generateCodeChallenge : string -> string.

(** [initiateOAuthFlow(provider, redirectUri, scopes)].  The three random
    draws ([generateCodeVerifier()] and the two [crypto.randomBytes]) are
    arguments.  The state is stored before the SDK is called. *)
Definition initiateOAuthFlow (drawnVerifier drawnState drawnNonce : string)
  (now : nat) (provider redirectUri : string) (scopes : list string)
  (states : JsMap.t OAuthState)
  : Result (string * string) * JsMap.t OAuthState :=
  let oauthState :=
    mkOAuthState drawnVerifier drawnState drawnNonce provider redirectUri now in
  let states := JsMap.set drawnState oauthState states in
  (match oauthStart provider redirectUri
           (mkStartOptions (String.concat " " scopes) drawnState drawnNonce
                           (generateCodeChallenge drawnVerifier)) with
   | inl url => Ok (url, drawnState)
   | inr message =>
       Throw (ThrownError ("Failed to initiate OAuth flow: " ++ message)%string)
   end, states).

(** The [try] block of [completeOAuthFlow]. *)
Definition completeSteps (now : nat) (code state : string)
  (states : JsMap.t OAuthState) : Result Completed * JsMap.t OAuthState :=
  match JsMap.get state states with
  | None => (Throw (ThrownError "Invalid or expired OAuth state"), states)
  | Some oauthState =>
      if expired now oauthState
      then (Throw (ThrownError "OAuth state expired"),
            snd (JsMap.delete state states))
      else match oauthExchange code (codeVerifier oauthState) with
           | inr message => (Throw (ThrownError message), states)
           | inl tokenResponse =>
               let states := snd (JsMap.delete state states) in
               match sdkValidateSession (sessionJwt tokenResponse) with
               | inr message => (Throw (ThrownError message), states)
               | inl authInfo =>
                   (Ok (mkCompleted (sessionJwt tokenResponse)
                                    (Descope.token authInfo)
                                    (refreshJwt tokenResponse)),
                    states)
               end
           end
  end.

(** [completeOAuthFlow(code, state)]: the [catch] clause wraps every error. *)
Definition completeOAuthFlow (now : nat) (code state : string)
  (states : JsMap.t OAuthState) : Result Completed * JsMap.t OAuthState :=
  let '(r, states') := completeSteps now code state states in
  (match r with
   | Ok done => Ok done
   | Throw t =>
       Throw (ThrownError ("Failed to complete OAuth flow: " ++ messageOf t)%string)
   end, states').

End WithSdk.

End DescopeFlow.

(* ===================================================================== *)
(** ** The key registry of the API-key server
       ([Neo4jMCPServerWithApiKey]) *)
(* ===================================================================== *)

Module ApiKeyRegistry.
Import Js.

(** The values of [validApiKeys]: [{ permissions }]. *)
Definition Keys : Type := JsMap.t (list string).

(** [generateApiKey()], from the hexadecimal text of the random bytes. *)
Definition generateApiKey (randomHex : string) : string :=
  ("mcp_" ++ randomHex)%string.

(** The constructor: the default key is [process.env.DEFAULT_API_KEY] or a
    generated one, and it gets the three permissions. *)
Definition initialKeys (defaultApiKeyVar : option string) (randomHex : string)
  : Keys :=
  let defaultApiKey :=
    if truthy defaultApiKeyVar
    then match defaultApiKeyVar with Some k => k | None => generateApiKey randomHex end
    else generateApiKey randomHex in
  JsMap.set defaultApiKey ["mcp:read"; "mcp:write"; "mcp:admin"] [].

(** [addApiKey(permissions = ['mcp:read'])] *)
Definition addApiKey (randomHex : string) (permissions : option (list string))
  (keys : Keys) : string * Keys :=
  let permissions := match permissions with Some p => p | None => ["mcp:read"] end in
  let apiKey := generateApiKey randomHex in
  (apiKey, JsMap.set apiKey permissions keys).

(** [removeApiKey(apiKey)] *)
Definition removeApiKey (apiKey : string) (keys : Keys) : bool * Keys :=
  JsMap.delete apiKey keys.

Definition apiKeyRequired : Response :=
  mkResponse (Some "API key required. Provide X-API-Key header") 401 "Unauthorized".

Definition invalidApiKey : Response :=
  mkResponse (Some "Invalid API key") 401 "Unauthorized".

(** The [auth] hook handed to FastMCP by [initialize]. *)
Definition auth (keys : Keys) (now : nat) (request : Request)
  : Result ApiKeyServer.ApiKeyAuthSession :=
  let apiKey := x_api_key request in
  if negb (truthy apiKey) then Throw (ThrownResponse apiKeyRequired)
  else match apiKey with
       | None => Throw (ThrownResponse apiKeyRequired)
       | Some k =>
           match JsMap.get k keys with
           | None => Throw (ThrownResponse invalidApiKey)
           | Some permissions =>
               Ok (ApiKeyServer.mkApiKeyAuthSession true k permissions now)
           end
       end.

End ApiKeyRegistry.

(* ===================================================================== *)
(** ** [Neo4jMCPServerNoAuth] ([src/server-no-auth.ts]) *)
(* ===================================================================== *)

Module ServerNoAuth.
Import Js Neo4j.

(** What [execute] returns, before [JSON.stringify]; the status has no
    [session] member here. *)
Inductive Payload :=
| EntitiesJson (l : list Entity)
| RelationsJson (l : list Relation)
| AddedJson (l : list AddedObservations)
| Text (s : string)
| GraphJson (k : KnowledgeGraph)
| StatusJson (connected : bool).

Section WithIndex.

Variable queryNodes : string -> Node -> bool.

(** [execute] of each tool registered by [setupTools]. *)
Definition execute (call : Server.ToolCall) (st : Store) : Payload * Store :=
  match call with
  | Server.create_entities es =>
      let '(r, st) := createEntities es st in (EntitiesJson r, st)
  | Server.create_relations rs =>
      let '(r, st) := createRelations rs st in (RelationsJson r, st)
  | Server.add_observations obs =>
      let '(r, st) := addObservations obs st in (AddedJson r, st)
  | Server.delete_entities ns =>
      (Text "Entities deleted successfully", deleteEntities ns st)
  | Server.delete_observations ds =>
      (Text "Observations deleted successfully", deleteObservations ds st)
  | Server.delete_relations rs =>
      (Text "Relations deleted successfully", deleteRelations rs st)
  | Server.read_graph =>
      let '(k, st) := loadGraph queryNodes None st in (GraphJson k, st)
  | Server.search_nodes q =>
      let '(k, st) := searchNodes queryNodes q st in (GraphJson k, st)
  | Server.find_nodes ns =>
      let '(k, st) := findNodes queryNodes ns st in (GraphJson k, st)
  | Server.health_check =>
      let '(connected, st) := verifyConnection st in (StatusJson connected, st)
  end.

End WithIndex.

End ServerNoAuth.

(* ===================================================================== *)
(** ** The Descope server: [add_observations] *)
(* ===================================================================== *)

Module DescopeTools.
Import Js Neo4j.

(** The arguments of [add_observations]. *)
Record AddArgs := mkAddArgs {
  entity_name : string;
  observations : list string
}.

Definition addObservationQuery : string :=
  String.concat nl
    [ "";
      "              MATCH (e:Entity {name: $entityName})";
      "              CREATE (o:Observation {content: $content, created_at: datetime()})";
      "              CREATE (e)-[:HAS_OBSERVATION]->(o)";
      "              RETURN o.content as content";
      "              " ].

Record Added := mkAdded {
  success : bool;
  entity : string;
  observations_added : list string
}.

Section WithClock.

(** [datetime()] as the database evaluates it during the call. *)
Variable now : nat.

(** The statement for one observation: the two [CREATE] clauses run for
    every entity the [MATCH] binds, and [RETURN] gives one record for each
    of them. *)
Definition addObservationUpdate (entityName content : string) (g : Graph)
  : list string * Graph :=
  let bound := DescopeServer.matchEntity entityName g in
  (map (fun _ => content) bound,
   fold_left (ApiKeyServer.attachObservation now content) bound g).

(** The body of the loop: [if (result.records.length > 0)], the content of
    the first record is pushed. *)
Definition addObservationStep (entityName : string)
  (acc : list string * Store) (content : string) : list string * Store :=
  let '(added, st) := acc in
  let '(records, st) :=
    runReturning (mkStatement addObservationQuery
                    [ ("entityName", VString entityName);
                      ("content", VString content) ])
                 (addObservationUpdate entityName content) st in
  (match records with
   | first :: _ => added ++ [first]
   | [] => added
   end, st).

(** The handler of [add_observations]. *)
Definition add_observations (args : AddArgs)
  (session : Descope.DescopeSession) (st : Store) : Result Added * Store :=
  match DescopeServer.requirePermission session Descope.WRITE with
  | Throw t => (Throw t, st)
  | Ok _ =>
      let st := openSession st in
      let '(added, st) :=
        fold_left (addObservationStep (entity_name args))
                  (observations args) ([], st) in
      (Ok (mkAdded true (entity_name args) added), closeSession st)
  end.

End WithClock.

End DescopeTools.

(* ===================================================================== *)
(** ** Notions used to state and prove the properties *)
(* ===================================================================== *)

Module Aux.
Import Js Neo4j.

(** What the [SET] clause of [addObservations] does to one node over all
    the rows. *)
Definition applyRows (rows : list AddRow) (n : Node) : Node :=
  fold_left (fun n r => if nid n =? row_e r
                        then appendObservations (row_new r) n else n)
            rows n.

(** The rows of [addObservations] for one item over a list of nodes. *)
Definition rowsOf (o : ObservationAddition) (l : list Node) : list AddRow :=
  map (fun n => mkAddRow (nid n) (newObservations (n_observations n) (contents o)))
      (filter (isMemory (oa_entityName o)) l).

(** What a [SET] clause that applies [F] to the node bound in each row
    does to one node, the rows binding the ids [ids]. *)
Definition applyUpdates (F : Node -> Node) (ids : list nat) (n : Node) : Node :=
  fold_left (fun n i => if nid n =? i then F n else n) ids n.

(** What the two [SET] clauses of [createEntities] make of a node. *)
Definition stored (entity : Entity) (n : Node) : Node :=
  addLabel entityTypeLabel (setEntity entity n).

(** A graph as the database keeps it: node ids are unique and every
    relationship joins two nodes of the graph. *)
Definition wellFormed (g : Graph) : Prop :=
  NoDup (map nid (nodes g))
  /\ forall e, In e (edges g) ->
               In (src e) (map nid (nodes g)) /\ In (tgt e) (map nid (nodes g)).

(** Every name is the name of at most one entity. *)
Definition uniqueNames (g : Graph) : Prop :=
  forall s, length (filter (isMemory s) (nodes g)) <= 1.

(** The payload of [src/server.ts] without the [session] member of the
    status. *)
Definition withoutSession (p : Server.Payload) : ServerNoAuth.Payload :=
  match p with
  | Server.EntitiesJson l => ServerNoAuth.EntitiesJson l
  | Server.RelationsJson l => ServerNoAuth.RelationsJson l
  | Server.AddedJson l => ServerNoAuth.AddedJson l
  | Server.Text s => ServerNoAuth.Text s
  | Server.GraphJson k => ServerNoAuth.GraphJson k
  | Server.StatusJson connected _ _ => ServerNoAuth.StatusJson connected
  end.

(** Whether the pattern of [createRelations] and [deleteRelations] for
    [relation] matches the relationship [e] over the nodes of [g]. *)
Definition linked (relation : Relation) (g : Graph) (e : Edge) : bool :=
  existsb (Nat.eqb (src e)) (matchMemory (source relation) g)
  && existsb (Nat.eqb (tgt e)) (matchMemory (target relation) g)
  && String.eqb (etype e) relationTypeName.

(** The observations a batch of deletions lists for the node [n], and
    whether the batch names the node at all. *)
Definition listedFor (ds : list ObservationDeletion) (n : Node) : list string :=
  flat_map (fun d => if isMemory (od_entityName d) n then od_observations d else [])
           ds.

Definition namedBy (ds : list ObservationDeletion) (n : Node) : bool :=
  existsb (fun d => isMemory (od_entityName d) n) ds.

(** A sample of what the full-text index [search] does with the query
    [name:(...)] of [findNodes].  The analyzer of the index splits a name
    into words at white space and lower-cases them, and the query yields
    the nodes one of whose words is one of the terms between the
    parentheses.  The engine is outside the repository; the sample serves
    to run [findNodes] on concrete graphs. *)
Fixpoint splitWords (current s : string) : list string :=
  match s with
  | EmptyString =>
      match current with EmptyString => [] | _ => [current] end
  | String c s' =>
      if isWhiteSpace c
      then match current with
           | EmptyString => splitWords EmptyString s'
           | _ => current :: splitWords EmptyString s'
           end
      else splitWords (current ++ String c EmptyString)%string s'
  end.

Definition words (s : string) : list string :=
  splitWords EmptyString (toLowerCase s).

Definition nameTerms (query : string) : list string :=
  if startsWith "name:(" query then words (Query.dropLast (slice 6 query)) else [].

Definition wordIndex (query : string) (n : Node) : bool :=
  match n_name n with
  | Some s => existsb (includes (nameTerms query)) (words s)
  | None => false
  end.

End Aux.

(* ===================================================================== *)
(** * Properties *)
(* ===================================================================== *)

Import Js.

(** ** Arrays of strings *)

Lemma includes_In (xs : list string) (x : string) :
  includes xs x = true <-> In x xs.
Proof.
  unfold includes. rewrite existsb_exists. split.
  - intros [y [Hy Heq]]. apply String.eqb_eq in Heq. now subst.
  - intros H. exists x. split; [assumption | apply String.eqb_refl].
Qed.

Lemma includes_false (xs : list string) (x : string) :
  includes xs x = false <-> ~ In x xs.
Proof.
  rewrite <- includes_In. destruct (includes xs x); split; intro H;
    try reflexivity; try discriminate; try (intro; discriminate).
  exfalso. now apply H.
Qed.

Lemma uniqFrom_In (xs seen : list string) (x : string) :
  In x (uniqFrom seen xs) <-> In x xs /\ ~ In x seen.
Proof.
  revert seen. induction xs as [| y ys IH]; intros seen; simpl.
  - tauto.
  - destruct (includes seen y) eqn:E.
    + apply includes_In in E. rewrite IH. split.
      * intros [H1 H2]. tauto.
      * intros [[-> | H1] H2]; [contradiction | tauto].
    + apply includes_false in E. simpl. rewrite IH. simpl. split.
      * intros [-> | [H1 H2]]; [tauto |]. split; [tauto |].
        intro H. apply H2. now right.
      * intros [[-> | H1] H2]; [now left |].
        destruct (string_dec y x) as [-> | Hne]; [now left |].
        right. split; [assumption |]. intros [H | H]; [now apply Hne | now apply H2].
Qed.

Lemma uniqFrom_NoDup (xs seen : list string) : NoDup (uniqFrom seen xs).
Proof.
  revert seen. induction xs as [| y ys IH]; intros seen; simpl.
  - constructor.
  - destruct (includes seen y) eqn:E; [apply IH |].
    constructor; [| apply IH].
    rewrite uniqFrom_In. intros [_ H]. apply H. now left.
Qed.

Lemma uniq_In (xs : list string) (x : string) : In x (uniq xs) <-> In x xs.
Proof. unfold uniq. rewrite uniqFrom_In. simpl. tauto. Qed.

Lemma uniq_NoDup (xs : list string) : NoDup (uniq xs).
Proof. apply uniqFrom_NoDup. Qed.

(** ** The event log of the client *)

Import Neo4j.

Lemma events_createRelationSteps (rs : list Relation) (st : Store) :
  events (fold_left createRelationStep rs st)
  = events st
    ++ map (fun r => Ran (mkStatement (createRelationQuery r) (relationParameters r))) rs.
Proof.
  revert st. induction rs as [| r rs IH]; intros st; simpl.
  - now rewrite app_nil_r.
  - rewrite IH. simpl. now rewrite <- app_assoc.
Qed.

Lemma events_deleteRelationSteps (rs : list Relation) (st : Store) :
  events (fold_left deleteRelationStep rs st)
  = events st
    ++ map (fun r => Ran (mkStatement (deleteRelationQuery r) (relationParameters r))) rs.
Proof.
  revert st. induction rs as [| r rs IH]; intros st; simpl.
  - now rewrite app_nil_r.
  - rewrite IH. simpl. now rewrite <- app_assoc.
Qed.

(** Every tool body touches the store: the log grows. *)
Ltac log_grows :=
  cbn; rewrite ?events_createRelationSteps, ?events_deleteRelationSteps;
  cbn; rewrite ?length_app; cbn; lia.

(** ** C1: the authorization gate of [src/server.ts] *)

Lemma expired_spec (now : nat) (session : AuthSession) :
  OAuth.expired now session = false
  <-> forall e, exp session = Some e -> now < e * 1000.
Proof.
  unfold OAuth.expired. destruct (exp session) as [e |].
  - rewrite Nat.leb_gt. split.
    + intros H e' [= <-]. exact H.
    + intros H. now apply H.
  - split; [discriminate | reflexivity].
Qed.

Lemma hasScope_spec (session : AuthSession) (scope : string) :
  OAuth.hasScope session scope = true
  <-> In scope (scopes session) \/ In "admin" (scopes session).
Proof.
  unfold OAuth.hasScope. rewrite orb_true_iff, !includes_In. tauto.
Qed.

Lemma guarded_denied queryNodes (call : Server.ToolCall)
  (session : AuthSession) (st : Store) :
  OAuth.hasScope session (Server.requiredScope call) = false ->
  Server.execute queryNodes call (Some session) st
  = (Throw (ThrownError ("Insufficient permissions: "
                          ++ Server.requiredScope call ++ " scope required")%string),
     st).
Proof.
  intros H. destruct call; cbn [Server.requiredScope] in *;
    unfold Server.execute, Server.guarded; rewrite H; reflexivity.
Qed.

Lemma guarded_granted queryNodes (call : Server.ToolCall)
  (session : AuthSession) (st : Store) :
  OAuth.hasScope session (Server.requiredScope call) = true ->
  exists payload st',
    Server.execute queryNodes call (Some session) st = (Ok payload, st')
    /\ length (events st) < length (events st').
Proof.
  intros H. destruct call; cbn [Server.requiredScope] in *;
    unfold Server.execute, Server.guarded; rewrite H; cbn [negb];
    eexists; eexists; (split; [reflexivity | log_grows]).
Qed.

(** C1.  For every session and each of the ten tools, the check
    [hasScope] succeeds exactly when the required scope or ["admin"] is
    among the scopes of the session; a session without them gets the
    "Insufficient permissions" error and the store is left untouched (not
    even a session is opened); a session with them gets the result of the
    tool, which has accessed the store.  The required scope is ["read"]
    for [read_graph], [search_nodes] and [find_nodes], ["admin"] for
    [health_check] and ["write"] for the six mutations. *)
Theorem C1_authorization_gate :
  forall (queryNodes : string -> Node -> bool) (call : Server.ToolCall)
         (session : AuthSession) (st : Store),
    (forall scope,
        OAuth.hasScope session scope = true
        <-> In scope (scopes session) \/ In "admin" (scopes session))
    /\ (OAuth.hasScope session (Server.requiredScope call) = false ->
        Server.execute queryNodes call (Some session) st
        = (Throw (ThrownError ("Insufficient permissions: "
                                ++ Server.requiredScope call
                                ++ " scope required")%string),
           st))
    /\ (OAuth.hasScope session (Server.requiredScope call) = true ->
        exists payload st',
          Server.execute queryNodes call (Some session) st = (Ok payload, st')
          /\ length (events st) < length (events st'))
    /\ Server.requiredScope call
       = match call with
         | Server.read_graph | Server.search_nodes _ | Server.find_nodes _ => "read"
         | Server.create_entities _ | Server.create_relations _
         | Server.add_observations _ | Server.delete_entities _
         | Server.delete_observations _ | Server.delete_relations _ => "write"
         | Server.health_check => "admin"
         end.
Proof.
  intros queryNodes call session st. split; [| split; [| split]].
  - intros scope. apply hasScope_spec.
  - apply guarded_denied.
  - apply guarded_granted.
  - destruct call; reflexivity.
Qed.

Lemma C1_authorization_gate_witness :
  Server.execute (fun _ _ => true) (Server.delete_entities ["A"])
    (Some (mkAuthSession "u1" None ["read"] "Bearer" 0 (Some 10)))
    (mkStore emptyGraph [] true)
  = (Throw (ThrownError "Insufficient permissions: write scope required"),
     mkStore emptyGraph [] true)
  /\ exists payload st',
      Server.execute (fun _ _ => true) Server.health_check
        (Some (mkAuthSession "u2" None ["admin"] "Bearer" 0 (Some 10)))
        (mkStore emptyGraph [] true)
      = (Ok payload, st')
      /\ length (events (mkStore emptyGraph [] true)) < length (events st').
Proof.
  split.
  - apply (proj1 (proj2 (C1_authorization_gate
                           (fun _ _ => true) (Server.delete_entities ["A"])
                           (mkAuthSession "u1" None ["read"] "Bearer" 0 (Some 10))
                           (mkStore emptyGraph [] true)))).
    reflexivity.
  - apply (proj1 (proj2 (proj2 (C1_authorization_gate
                                  (fun _ _ => true) Server.health_check
                                  (mkAuthSession "u2" None ["admin"] "Bearer" 0 (Some 10))
                                  (mkStore emptyGraph [] true))))).
    reflexivity.
Defined.

(** ** C4: the capability resolver of the Descope provider *)

Lemma collectedPermissions_In (a : Descope.DescopeAuthInfo) (s : string) :
  In s (Descope.collectedPermissions a)
  <-> In s (Descope.orEmpty (Descope.token_permissions (Descope.token a)))
      \/ (exists rs role, Descope.token_roles (Descope.token a) = Some rs
                          /\ In role rs /\ In s (Descope.roleScopes role))
      \/ (exists ts kv, Descope.tenants (Descope.token a) = Some ts
                        /\ In kv ts
                        /\ In s (Descope.orEmpty (Descope.tenant_permissions (snd kv)))).
Proof.
  unfold Descope.collectedPermissions. rewrite !in_app_iff.
  destruct (Descope.token_roles (Descope.token a)) as [rs |];
    destruct (Descope.tenants (Descope.token a)) as [ts |];
    rewrite ?in_flat_map; simpl; split.
  all: try (intros [H | [[role [H1 H2]] | [kv [H1 H2]]]];
            [ now left
            | right; left; exists rs, role; auto
            | right; right; exists ts, kv; auto ]).
  all: try (intros [H | [[role [H1 H2]] | []]];
            [ now left | right; left; exists rs, role; auto ]).
  all: try (intros [H | [[] | [kv [H1 H2]]]];
            [ now left | right; right; exists ts, kv; auto ]).
  all: try (intros [H | [[] | []]]; now left).
  all: intros [H | [[rs' [role [E [H1 H2]]]] | [ts' [kv [E [H1 H2]]]]]];
    try discriminate; try (now left);
    try (injection E as <-; right; left; now exists role);
    try (injection E as <-; right; right; now exists kv).
Qed.

Lemma extractPermissions_In (a : Descope.DescopeAuthInfo) (s : string) :
  In s (Descope.extractPermissions a)
  <-> In s (Descope.collectedPermissions a)
      \/ (Descope.collectedPermissions a = [] /\ s = Descope.READ).
Proof.
  unfold Descope.extractPermissions. rewrite uniq_In.
  destruct (Descope.collectedPermissions a) as [| p ps]; simpl.
  - split; [intros [<- | []]; right; auto | intros [[] | [_ ->]]; now left].
  - split; [intros H; now left | intros [H | [E _]]; [assumption | discriminate]].
Qed.




(** ** C3: which credential a provider validates *)

Lemma descope_bearer_first sdkV sdkK now (request : Request) (h : string) :
  authorization request = Some h ->
  startsWith "Bearer " h = true ->
  Descope.authenticateRequest sdkV sdkK now request
  = Descope.authenticateRequest sdkV sdkK now (mkRequest (Some h) None)
  /\ snd (Descope.authenticateRequest sdkV sdkK now request)
     = [Descope.ValidateSession (slice 7 h)].
Proof.
  intros Ha Hb.
  unfold Descope.authenticateRequest, Descope.resolveCredential.
  rewrite Ha. cbn [authorization]. rewrite Hb.
  unfold Descope.withMethod, Descope.validateSession. cbn [fst snd].
  split; [reflexivity |].
  destruct (sdkV (slice 7 h)); reflexivity.
Qed.

Lemma descope_api_key_fallback sdkV sdkK now (request : Request) :
  match authorization request with
  | Some h => startsWith "Bearer " h
  | None => false
  end = false ->
  snd (Descope.authenticateRequest sdkV sdkK now request)
  = match x_api_key request with
    | Some (String c k) => [Descope.ExchangeAccessKey (String c k)]
    | _ => []
    end.
Proof.
  intros Hb.
  unfold Descope.authenticateRequest, Descope.resolveCredential.
  assert (E : match authorization request with
              | Some authHeader =>
                  if startsWith "Bearer " authHeader
                  then Descope.withMethod Descope.oauth
                         (Descope.validateSession sdkV (slice 7 authHeader))
                  else Descope.tryApiKey sdkK request
              | None => Descope.tryApiKey sdkK request
              end = Descope.tryApiKey sdkK request).
  { destruct (authorization request) as [h |]; [rewrite Hb |]; reflexivity. }
  rewrite E. unfold Descope.tryApiKey.
  destruct (x_api_key request) as [[| c k] |]; cbn; reflexivity.
Qed.

Lemma descope_missing sdkV sdkK now (request : Request) :
  authorization request = None ->
  x_api_key request = None ->
  Descope.authenticateRequest sdkV sdkK now request
  = (Throw (ThrownResponse Descope.authenticationRequired), []).
Proof.
  intros Ha Hk.
  unfold Descope.authenticateRequest, Descope.resolveCredential, Descope.tryApiKey.
  rewrite Ha, Hk. reflexivity.
Qed.

Lemma apikey_missing validApiKey now (request : Request) :
  authorization request = None ->
  x_api_key request = None ->
  ApiKey.authenticateRequest validApiKey now request
  = Throw (ThrownResponse ApiKey.missingApiKey).
Proof.
  intros Ha Hk. unfold ApiKey.authenticateRequest, ApiKey.providedKey.
  rewrite Ha, Hk. reflexivity.
Qed.

(** C3 (as the code has it).  The Descope provider validates the bearer
    token, and nothing else, whenever the [Authorization] header starts
    with ["Bearer "]: the outcome does not depend on the [X-API-Key]
    header and the only SDK call is the session validation.  It turns to
    the [X-API-Key] header only when there is no such bearer value.  The
    static-key provider reads [X-API-Key] first and the bearer value only
    when [X-API-Key] is absent or empty.  With both headers absent, each
    provider throws a 401 response, no SDK call is made, and a server that
    authenticates with it answers with that response without running any
    tool: the store is unchanged. *)
Theorem C3_credential_precedence :
  forall (sdkV sdkK : string -> Descope.DescopeAuthInfo + string)
         (now : nat) (validApiKey : string) (request : Request),
    (forall h,
        authorization request = Some h -> startsWith "Bearer " h = true ->
        Descope.authenticateRequest sdkV sdkK now request
        = Descope.authenticateRequest sdkV sdkK now (mkRequest (Some h) None)
        /\ snd (Descope.authenticateRequest sdkV sdkK now request)
           = [Descope.ValidateSession (slice 7 h)])
    /\ (match authorization request with
        | Some h => startsWith "Bearer " h
        | None => false
        end = false ->
        snd (Descope.authenticateRequest sdkV sdkK now request)
        = match x_api_key request with
          | Some (String c k) => [Descope.ExchangeAccessKey (String c k)]
          | _ => []
          end)
    /\ (truthy (x_api_key request) = true ->
        ApiKey.providedKey request = x_api_key request)
    /\ (forall h,
           truthy (x_api_key request) = false ->
           authorization request = Some h -> startsWith "Bearer " h = true ->
           ApiKey.providedKey request = Some (slice 7 h))
    /\ (authorization request = None -> x_api_key request = None ->
        Descope.authenticateRequest sdkV sdkK now request
        = (Throw (ThrownResponse Descope.authenticationRequired), [])
        /\ ApiKey.authenticateRequest validApiKey now request
           = Throw (ThrownResponse ApiKey.missingApiKey)
        /\ status Descope.authenticationRequired = 401
        /\ status ApiKey.missingApiKey = 401
        /\ (forall (P : Type)
                   (tool : Descope.DescopeSession -> Store -> Result P * Store)
                   (st : Store),
               FastMCP.serve
                 (fun r => fst (Descope.authenticateRequest sdkV sdkK now r))
                 tool request st
               = (Throw (ThrownResponse Descope.authenticationRequired), st))
        /\ (forall (P : Type)
                   (tool : ApiKey.ApiKeySession -> Store -> Result P * Store)
                   (st : Store),
               FastMCP.serve (ApiKey.authenticateRequest validApiKey now)
                 tool request st
               = (Throw (ThrownResponse ApiKey.missingApiKey), st))).
Proof.
  intros sdkV sdkK now validApiKey request.
  split; [| split; [| split; [| split]]].
  - intros h. apply descope_bearer_first.
  - apply descope_api_key_fallback.
  - intros Ht. unfold ApiKey.providedKey. rewrite Ht. reflexivity.
  - intros h Ht Ha Hb. unfold ApiKey.providedKey. rewrite Ht, Ha, Hb. reflexivity.
  - intros Ha Hk. repeat split.
    + now apply descope_missing.
    + now apply apikey_missing.
    + intros P tool st. unfold FastMCP.serve.
      rewrite (descope_missing sdkV sdkK now request Ha Hk). reflexivity.
    + intros P tool st. unfold FastMCP.serve.
      rewrite (apikey_missing validApiKey now request Ha Hk). reflexivity.
Qed.

Lemma C3_credential_precedence_witness :
  snd (Descope.authenticateRequest
         (fun _ => inr "expired") (fun _ => inr "unknown key") 0
         (mkRequest (Some "Bearer abc") (Some "key-1")))
  = [Descope.ValidateSession "abc"]
  /\ snd (Descope.authenticateRequest
            (fun _ => inr "expired") (fun _ => inr "unknown key") 0
            (mkRequest (Some "Basic abc") (Some "key-1")))
     = [Descope.ExchangeAccessKey "key-1"]
  /\ ApiKey.providedKey (mkRequest (Some "Bearer abc") (Some "key-1")) = Some "key-1"
  /\ ApiKey.providedKey (mkRequest (Some "Bearer abc") None) = Some "abc"
  /\ ApiKey.authenticateRequest "key-1" 0 (mkRequest None None)
     = Throw (ThrownResponse ApiKey.missingApiKey).
Proof.
  split; [| split; [| split; [| split]]].
  - apply (proj1 (C3_credential_precedence
                    (fun _ => inr "expired") (fun _ => inr "unknown key") 0 "key-1"
                    (mkRequest (Some "Bearer abc") (Some "key-1")))
             "Bearer abc"); reflexivity.
  - apply (proj1 (proj2 (C3_credential_precedence
                           (fun _ => inr "expired") (fun _ => inr "unknown key") 0 "key-1"
                           (mkRequest (Some "Basic abc") (Some "key-1"))))).
    reflexivity.
  - apply (proj1 (proj2 (proj2 (C3_credential_precedence
                                  (fun _ => inr "expired") (fun _ => inr "unknown key")
                                  0 "key-1"
                                  (mkRequest (Some "Bearer abc") (Some "key-1")))))).
    reflexivity.
  - apply (proj1 (proj2 (proj2 (proj2 (C3_credential_precedence
                                  (fun _ => inr "expired") (fun _ => inr "unknown key")
                                  0 "key-1"
                                  (mkRequest (Some "Bearer abc") None)))))
             "Bearer abc"); reflexivity.
  - apply (proj2 (proj2 (proj2 (proj2 (C3_credential_precedence
                                  (fun _ => inr "expired") (fun _ => inr "unknown key")
                                  0 "key-1" (mkRequest None None))))));
      reflexivity.
Defined.

(** C3 as stated fails on the static-key provider: with both headers
    present it takes the key of [X-API-Key] and never looks at the bearer
    value, so a request with a valid key and any bearer value is
    accepted. *)
Lemma C3_counterexample :
  ~ (forall (request : Request) (h : string),
        authorization request = Some h -> startsWith "Bearer " h = true ->
        ApiKey.providedKey request = Some (slice 7 h))
  /\ ApiKey.authenticateRequest "key-1" 0
       (mkRequest (Some "Bearer not-the-key") (Some "key-1"))
     = Ok (ApiKey.mkApiKeySession "key-1" true 0).
Proof.
  split; [| reflexivity].
  intros H.
  specialize (H (mkRequest (Some "Bearer not-the-key") (Some "key-1"))
                "Bearer not-the-key" eq_refl eq_refl).
  discriminate H.
Qed.

(** ** C10: token extraction of the OAuth provider *)

Lemma extractToken_none (request : Request) :
  OAuth.extractTokenFromRequest request = None
  <-> authorization request = None \/ authorization request = Some "".
Proof.
  unfold OAuth.extractTokenFromRequest.
  destruct (authorization request) as [[| c h] |]; cbn.
  - split; auto.
  - destruct (OAuth.matchBearer (String c h)); split;
      try discriminate; intros [H | H]; discriminate.
  - split; auto.
Qed.

Lemma extractToken_fallback (request : Request) (h : string) :
  authorization request = Some h -> h <> "" ->
  OAuth.matchBearer h = None ->
  OAuth.extractTokenFromRequest request = Some h.
Proof.
  intros Ha Hne Hm. unfold OAuth.extractTokenFromRequest. rewrite Ha.
  destruct h as [| c h]; [contradiction |]. cbn. now rewrite Hm.
Qed.

(** C10 (as the code has it).  When the [Authorization] header is present
    and not empty and the pattern [Bearer <token>] does not match it, the
    whole header value is the token, and it is verified as a JWT: the
    request is accepted when the verification succeeds and the token has
    not expired.  The extraction gives [null] exactly when the header is
    absent or empty, and every such request is rejected with the 401
    "Missing authorization token". *)
Theorem C10_token_extraction :
  forall (jwtVerify : string -> AuthSession + string) (now : nat)
         (request : Request),
    (forall h,
        authorization request = Some h -> h <> "" ->
        OAuth.matchBearer h = None ->
        OAuth.extractTokenFromRequest request = Some h
        /\ OAuth.authenticateRequest jwtVerify now request
           = match OAuth.verifyAndCheckExpiry jwtVerify now h with
             | Ok session => Ok session
             | Throw _ => Throw (ThrownResponse OAuth.invalidOrExpired)
             end
        /\ (forall session,
               jwtVerify h = inl session ->
               (forall e, exp session = Some e -> now < e * 1000) ->
               OAuth.authenticateRequest jwtVerify now request = Ok session))
    /\ (OAuth.extractTokenFromRequest request = None
        <-> authorization request = None \/ authorization request = Some "")
    /\ (OAuth.extractTokenFromRequest request = None ->
        OAuth.authenticateRequest jwtVerify now request
        = Throw (ThrownResponse OAuth.missingToken)
        /\ status OAuth.missingToken = 401).
Proof.
  intros jwtVerify now request. split; [| split].
  - intros h Ha Hne Hm.
    pose proof (extractToken_fallback request h Ha Hne Hm) as He.
    assert (Hauth : OAuth.authenticateRequest jwtVerify now request
                    = match OAuth.verifyAndCheckExpiry jwtVerify now h with
                      | Ok session => Ok session
                      | Throw _ => Throw (ThrownResponse OAuth.invalidOrExpired)
                      end).
    { unfold OAuth.authenticateRequest. rewrite He.
      destruct h as [| c h]; [contradiction |]. reflexivity. }
    split; [assumption | split; [assumption |]].
    intros session Hv Hexp. rewrite Hauth.
    unfold OAuth.verifyAndCheckExpiry, OAuth.verifyJWT. rewrite Hv.
    now rewrite (proj2 (expired_spec now session) Hexp).
  - apply extractToken_none.
  - intros He. unfold OAuth.authenticateRequest. rewrite He. split; reflexivity.
Qed.

Lemma C10_token_extraction_witness :
  OAuth.extractTokenFromRequest (mkRequest (Some "raw.jwt.token") None)
  = Some "raw.jwt.token"
  /\ OAuth.authenticateRequest
       (fun t => inl (mkAuthSession t None ["read"] "Bearer" 0 (Some 10))) 5
       (mkRequest (Some "raw.jwt.token") None)
     = Ok (mkAuthSession "raw.jwt.token" None ["read"] "Bearer" 0 (Some 10))
  /\ OAuth.authenticateRequest
       (fun t => inl (mkAuthSession t None ["read"] "Bearer" 0 (Some 10))) 5
       (mkRequest None None)
     = Throw (ThrownResponse OAuth.missingToken).
Proof.
  pose proof (C10_token_extraction
                (fun t => inl (mkAuthSession t None ["read"] "Bearer" 0 (Some 10))) 5
                (mkRequest (Some "raw.jwt.token") None)) as [Hraw _].
  destruct (Hraw "raw.jwt.token" eq_refl ltac:(discriminate) eq_refl)
    as [He [_ Hok]].
  split; [exact He | split].
  - apply Hok; [reflexivity | intros e [= <-]; lia].
  - apply (proj2 (proj2 (C10_token_extraction
                           (fun t => inl (mkAuthSession t None ["read"] "Bearer" 0 (Some 10))) 5
                           (mkRequest None None)))).
    reflexivity.
Defined.

(** C10 as stated fails on an [Authorization] header that is present with
    an empty value: the pattern does not match it, and the extraction
    gives [null], not the header value. *)
Lemma C10_counterexample :
  ~ (forall (request : Request) (h : string),
        authorization request = Some h -> OAuth.matchBearer h = None ->
        OAuth.extractTokenFromRequest request = Some h)
  /\ ~ (forall (request : Request),
           OAuth.extractTokenFromRequest request = None ->
           authorization request = None).
Proof.
  split; intros H.
  - specialize (H (mkRequest (Some "") None) "" eq_refl eq_refl). discriminate H.
  - specialize (H (mkRequest (Some "") None) eq_refl). discriminate H.
Qed.

(** ** C5: a relation whose endpoint is missing *)

Lemma nodes_mergeEdges (rows : list (nat * nat)) (ty : string) (g : Graph) :
  nodes (fold_left (fun g r => mergeEdge (mkEdge (fst r) (snd r) ty) g) rows g)
  = nodes g.
Proof.
  revert g. induction rows as [| r rows IH]; intros g; simpl; [reflexivity |].
  rewrite IH. unfold mergeEdge.
  destruct (existsb _ (edges g)); reflexivity.
Qed.

Lemma nodes_createRelationUpdate (r : Relation) (g : Graph) :
  nodes (createRelationUpdate r g) = nodes g.
Proof. apply nodes_mergeEdges. Qed.

Lemma matchMemory_nodes (s : string) (g g' : Graph) :
  nodes g' = nodes g -> matchMemory s g' = matchMemory s g.
Proof. unfold matchMemory. now intros ->. Qed.

Lemma list_prod_nil_r {A B : Type} (l : list A) : list_prod l (@nil B) = [].
Proof. induction l as [| a l IH]; simpl; [reflexivity | assumption]. Qed.

Lemma createRelationUpdate_missing (r : Relation) (g : Graph) :
  matchMemory (source r) g = [] \/ matchMemory (target r) g = [] ->
  createRelationUpdate r g = g.
Proof.
  unfold createRelationUpdate. intros [-> | ->]; [reflexivity |].
  now rewrite list_prod_nil_r.
Qed.

Lemma nodes_createRelationSteps (rs : list Relation) (st : Store) :
  nodes (graph (fold_left createRelationStep rs st)) = nodes (graph st).
Proof.
  revert st. induction rs as [| r rs IH]; intros st; simpl; [reflexivity |].
  rewrite IH. apply nodes_createRelationUpdate.
Qed.

Lemma graph_createRelationSteps (rs : list Relation) (st st' : Store) :
  graph st = graph st' ->
  graph (fold_left createRelationStep rs st)
  = graph (fold_left createRelationStep rs st').
Proof.
  revert st st'. induction rs as [| r rs IH]; intros st st' H; simpl;
    [assumption |].
  apply IH. simpl. now rewrite H.
Qed.

Import Aux.

Lemma existsb_eqb_In (x : nat) (l : list nat) :
  existsb (Nat.eqb x) l = true <-> In x l.
Proof.
  rewrite existsb_exists. split.
  - intros [y [Hy E]]. apply Nat.eqb_eq in E. now subst.
  - intros H. exists x. split; [assumption | apply Nat.eqb_refl].
Qed.

Lemma edgeEqb_eq (a b : Edge) : edgeEqb a b = true <-> a = b.
Proof.
  unfold edgeEqb. rewrite !andb_true_iff, !Nat.eqb_eq, String.eqb_eq.
  destruct a, b; cbn [src tgt etype]. split.
  - intros [[-> ->] ->]. reflexivity.
  - intros H. injection H as -> -> ->. auto.
Qed.

Lemma mergeEdge_present (e : Edge) (g : Graph) :
  In e (edges g) -> mergeEdge e g = g.
Proof.
  intros H. unfold mergeEdge.
  assert (E : existsb (edgeEqb e) (edges g) = true).
  { apply existsb_exists. exists e. split; [exact H | now apply edgeEqb_eq]. }
  now rewrite E.
Qed.

Lemma mergeEdge_spec (e : Edge) (g : Graph) :
  nodes (mergeEdge e g) = nodes g
  /\ In e (edges (mergeEdge e g))
  /\ exists extra, edges (mergeEdge e g) = edges g ++ extra
                   /\ forall x, In x extra -> x = e.
Proof.
  unfold mergeEdge. destruct (existsb (edgeEqb e) (edges g)) eqn:E.
  - split; [reflexivity |]. split.
    + apply existsb_exists in E as (x & Hx & Hex).
      apply edgeEqb_eq in Hex. now subst.
    + exists []. rewrite app_nil_r. split; [reflexivity | intros x []].
  - cbn [nodes edges]. split; [reflexivity |]. split.
    + apply in_or_app. right. now left.
    + exists [e]. split; [reflexivity |]. intros x [-> | []]. reflexivity.
Qed.

Lemma mergeEdges_spec (rows : list (nat * nat)) (ty : string) (g : Graph) :
  let g' := fold_left (fun g r => mergeEdge (mkEdge (fst r) (snd r) ty) g) rows g in
  (forall r, In r rows -> In (mkEdge (fst r) (snd r) ty) (edges g'))
  /\ exists extra,
      edges g' = edges g ++ extra
      /\ forall x, In x extra -> exists r, In r rows /\ x = mkEdge (fst r) (snd r) ty.
Proof.
  revert g. induction rows as [| r rows IH]; intros g; cbn [fold_left].
  - split; [intros r [] |]. exists []. rewrite app_nil_r.
    split; [reflexivity | intros x []].
  - destruct (mergeEdge_spec (mkEdge (fst r) (snd r) ty) g)
      as (_ & Hin & extra1 & He1 & Hx1).
    destruct (IH (mergeEdge (mkEdge (fst r) (snd r) ty) g))
      as (Hall & extra2 & He2 & Hx2).
    cbv zeta in *. split.
    + intros r' [<- | Hr']; [| now apply Hall].
      rewrite He2. apply in_or_app. now left.
    + exists (extra1 ++ extra2). rewrite He2, He1, app_assoc.
      split; [reflexivity |].
      intros x Hx. apply in_app_or in Hx as [Hx | Hx].
      * exists r. split; [now left | now apply Hx1].
      * destruct (Hx2 x Hx) as (r' & Hr' & ->). exists r'. split; [now right | reflexivity].
Qed.

Lemma linked_nodes (r : Relation) (g g' : Graph) (e : Edge) :
  nodes g' = nodes g -> linked r g' e = linked r g e.
Proof.
  intros H. unfold linked.
  now rewrite !(matchMemory_nodes _ g g' H).
Qed.

Lemma linked_spec (r : Relation) (g : Graph) (e : Edge) :
  linked r g e = true
  <-> In (src e) (matchMemory (source r) g)
      /\ In (tgt e) (matchMemory (target r) g)
      /\ etype e = relationTypeName.
Proof.
  unfold linked.
  rewrite !andb_true_iff, !existsb_eqb_In, String.eqb_eq. tauto.
Qed.

Lemma createRelation_spec (r : Relation) (g : Graph) :
  nodes (createRelationUpdate r g) = nodes g
  /\ (forall i j, In i (matchMemory (source r) g) ->
                  In j (matchMemory (target r) g) ->
                  In (mkEdge i j relationTypeName) (edges (createRelationUpdate r g)))
  /\ exists extra,
      edges (createRelationUpdate r g) = edges g ++ extra
      /\ forall x, In x extra -> linked r g x = true.
Proof.
  split; [apply nodes_createRelationUpdate |].
  unfold createRelationUpdate.
  destruct (mergeEdges_spec
              (list_prod (matchMemory (source r) g) (matchMemory (target r) g))
              relationTypeName g) as (Hall & extra & He & Hx).
  cbv zeta in *. split.
  - intros i j Hi Hj.
    apply (Hall (i, j)). now apply in_prod.
  - exists extra. split; [exact He |].
    intros x Hin. destruct (Hx x Hin) as ([i j] & Hr & ->).
    apply in_prod_iff in Hr as [Hi Hj].
    apply linked_spec. cbn [src tgt etype fst snd]. auto.
Qed.

Lemma createRelation_present (r : Relation) (g : Graph) :
  (forall i j, In i (matchMemory (source r) g) ->
               In j (matchMemory (target r) g) ->
               In (mkEdge i j relationTypeName) (edges g)) ->
  createRelationUpdate r g = g.
Proof.
  intros H. unfold createRelationUpdate.
  assert (Hrows : forall p, In p (list_prod (matchMemory (source r) g)
                                            (matchMemory (target r) g)) ->
                            In (mkEdge (fst p) (snd p) relationTypeName) (edges g)).
  { intros [i j] Hp. apply in_prod_iff in Hp as [Hi Hj]. now apply H. }
  induction (list_prod (matchMemory (source r) g) (matchMemory (target r) g))
    as [| p rows IH]; cbn [fold_left]; [reflexivity |].
  rewrite mergeEdge_present by (apply Hrows; now left).
  apply IH. intros q Hq. apply Hrows. now right.
Qed.

Lemma graph_createRelationFold (rs : list Relation) (st : Store) :
  graph (fold_left createRelationStep rs st)
  = fold_left (fun g r => createRelationUpdate r g) rs (graph st).
Proof.
  revert st. induction rs as [| r rs IH]; intros st; cbn [fold_left];
    [reflexivity |].
  rewrite IH. reflexivity.
Qed.

Lemma graph_deleteRelationFold (rs : list Relation) (st : Store) :
  graph (fold_left deleteRelationStep rs st)
  = fold_left (fun g r => deleteRelationUpdate r g) rs (graph st).
Proof.
  revert st. induction rs as [| r rs IH]; intros st; cbn [fold_left];
    [reflexivity |].
  rewrite IH. reflexivity.
Qed.

Lemma createRelationFold_spec (rs : list Relation) (g : Graph) :
  let g' := fold_left (fun g r => createRelationUpdate r g) rs g in
  nodes g' = nodes g
  /\ (forall r i j, In r rs ->
                    In i (matchMemory (source r) g) ->
                    In j (matchMemory (target r) g) ->
                    In (mkEdge i j relationTypeName) (edges g'))
  /\ exists extra,
      edges g' = edges g ++ extra
      /\ forall x, In x extra -> exists r, In r rs /\ linked r g x = true.
Proof.
  revert g. induction rs as [| r rs IH]; intros g; cbn [fold_left].
  - split; [reflexivity |]. split; [intros r i j [] |].
    exists []. rewrite app_nil_r. split; [reflexivity | intros x []].
  - destruct (createRelation_spec r g) as (Hn1 & Hall1 & extra1 & He1 & Hx1).
    destruct (IH (createRelationUpdate r g)) as (Hn2 & Hall2 & extra2 & He2 & Hx2).
    cbv zeta in *. split; [now rewrite Hn2 |]. split.
    + intros r' i j [<- | Hr'] Hi Hj.
      * rewrite He2. apply in_or_app. left. now apply Hall1.
      * apply (Hall2 r' i j Hr');
          now rewrite (matchMemory_nodes _ g (createRelationUpdate r g) Hn1).
    + exists (extra1 ++ extra2). rewrite He2, He1, app_assoc.
      split; [reflexivity |].
      intros x Hx. apply in_app_or in Hx as [Hx | Hx].
      * exists r. split; [now left | now apply Hx1].
      * destruct (Hx2 x Hx) as (r' & Hr' & Hl). exists r'.
        split; [now right |].
        now rewrite <- (linked_nodes r' g (createRelationUpdate r g) x Hn1).
Qed.

(** C5.  In a batch given to [createRelations], an item whose source or
    target names no entity of the graph creates nothing: when its turn
    comes, the graph is left as it is (no edge, no new entity), and the
    batch never changes the set of entities.  The other items are applied
    as if the item were not in the batch: each of them that names an
    existing source and an existing target has its relationship between
    them afterwards, the relationships that were there are kept, and
    every other relationship in the graph joins the endpoints of one of
    those items. *)
Theorem C5_missing_endpoint_is_skipped :
  forall (before after : list Relation) (r : Relation) (st : Store),
    matchMemory (source r) (graph st) = []
    \/ matchMemory (target r) (graph st) = [] ->
    (let reached := fold_left createRelationStep before (openSession st) in
     graph (createRelationStep reached r) = graph reached)
    /\ graph (snd (createRelations (before ++ r :: after) st))
       = graph (snd (createRelations (before ++ after) st))
    /\ nodes (graph (snd (createRelations (before ++ r :: after) st)))
       = nodes (graph st)
    /\ (forall r' i j,
           In r' (before ++ after) ->
           In i (matchMemory (source r') (graph st)) ->
           In j (matchMemory (target r') (graph st)) ->
           In (mkEdge i j relationTypeName)
              (edges (graph (snd (createRelations (before ++ r :: after) st)))))
    /\ (forall e,
           In e (edges (graph st)) ->
           In e (edges (graph (snd (createRelations (before ++ r :: after) st)))))
    /\ (forall e,
           In e (edges (graph (snd (createRelations (before ++ r :: after) st)))) ->
           In e (edges (graph st))
           \/ exists r',
               In r' (before ++ after)
               /\ In (src e) (matchMemory (source r') (graph st))
               /\ In (tgt e) (matchMemory (target r') (graph st))
               /\ etype e = relationTypeName).
Proof.
  intros before after r st Hmiss.
  assert (Hskip : graph (createRelationStep
                           (fold_left createRelationStep before (openSession st)) r)
                  = graph (fold_left createRelationStep before (openSession st))).
  { assert (Hn : nodes (graph (fold_left createRelationStep before (openSession st)))
                 = nodes (graph st))
      by (now rewrite nodes_createRelationSteps).
    simpl. apply createRelationUpdate_missing.
    now rewrite (matchMemory_nodes (source r) _ _ Hn),
                (matchMemory_nodes (target r) _ _ Hn). }
  assert (Hsame : graph (snd (createRelations (before ++ r :: after) st))
                  = graph (snd (createRelations (before ++ after) st))).
  { unfold createRelations. cbn [snd closeSession record graph].
    rewrite !fold_left_app. cbn [fold_left].
    apply graph_createRelationSteps. exact Hskip. }
  split; [exact Hskip | split; [exact Hsame | split]].
  - unfold createRelations. cbn [snd closeSession record graph].
    now rewrite nodes_createRelationSteps.
  - rewrite Hsame. unfold createRelations. cbn [snd closeSession record graph].
    rewrite graph_createRelationFold.
    destruct (createRelationFold_spec (before ++ after) (graph (openSession st)))
      as (_ & Hall & extra & He & Hx).
    cbv zeta in Hall, He. cbn [openSession record graph] in Hall, He, Hx.
    split; [| split].
    + intros r' i j Hr' Hi Hj. now apply (Hall r' i j).
    + intros e Hin. cbn [openSession record graph]. rewrite He.
      apply in_or_app. now left.
    + intros e Hin. cbn [openSession record graph] in Hin. rewrite He in Hin.
      apply in_app_or in Hin as [Hin | Hin]; [now left |].
      right. destruct (Hx e Hin) as (r' & Hr' & Hl).
      exists r'. split; [exact Hr' |]. now apply linked_spec.
Qed.

Lemma C5_missing_endpoint_is_skipped_witness :
  let st := mkStore (mkGraph [mkNode 1 ["Memory"] (Some "A") (Some "T")
                                (Some []) None None None] [])
                    [] true in
  graph (snd (createRelations
                [mkRelation "A" "B" "LIKES"; mkRelation "A" "A" "KNOWS"] st))
  = graph (snd (createRelations [mkRelation "A" "A" "KNOWS"] st))
  /\ In (mkEdge 1 1 relationTypeName)
        (edges (graph (snd (createRelations
                              [mkRelation "A" "B" "LIKES"; mkRelation "A" "A" "KNOWS"]
                              st))))
  /\ edges (graph (snd (createRelations
                          [mkRelation "A" "B" "LIKES"; mkRelation "A" "A" "KNOWS"] st)))
     = [mkEdge 1 1 relationTypeName].
Proof.
  cbv zeta.
  destruct (C5_missing_endpoint_is_skipped
              [] [mkRelation "A" "A" "KNOWS"] (mkRelation "A" "B" "LIKES")
              (mkStore (mkGraph [mkNode 1 ["Memory"] (Some "A") (Some "T")
                                   (Some []) None None None] [])
                       [] true)
              (or_intror eq_refl))
    as (_ & Hsame & _ & Hmade & _).
  split; [exact Hsame | split; [| reflexivity]].
  apply (Hmade (mkRelation "A" "A" "KNOWS") 1 1); cbn; auto.
Defined.

(** ** C2: the relation type in the statements *)

Lemma append_assoc (a b c : string) : ((a ++ b) ++ c = a ++ (b ++ c))%string.
Proof. induction a as [| x a IH]; simpl; [reflexivity | now rewrite IH]. Qed.

Lemma upperChar_idem (c : ascii) : upperChar (upperChar c) = upperChar c.
Proof. destruct c as [[] [] [] [] [] [] [] []]; reflexivity. Qed.

Lemma replaceRuns_no_space (b : bool) (s : string) :
  existsChar isWhiteSpace (replaceRuns b s) = false.
Proof.
  revert b. induction s as [| c s IH]; intros b; simpl; [reflexivity |].
  destruct (isWhiteSpace c) eqn:E.
  - destruct b; simpl; apply IH.
  - simpl. rewrite E. apply IH.
Qed.

Lemma replaceRuns_upper (b : bool) (s : string) :
  toUpperCase (replaceRuns b (toUpperCase s)) = replaceRuns b (toUpperCase s).
Proof.
  unfold toUpperCase. revert b.
  induction s as [| c s IH]; intros b; simpl; [reflexivity |].
  destruct (isWhiteSpace (upperChar c)).
  - destruct b; simpl; now rewrite IH.
  - simpl. now rewrite upperChar_idem, IH.
Qed.

Lemma events_createRelations (rs : list Relation) (st : Store) :
  events (snd (createRelations rs st))
  = events st
    ++ [SessionOpened]
    ++ map (fun r => Ran (mkStatement (createRelationQuery r) (relationParameters r))) rs
    ++ [SessionClosed].
Proof.
  unfold createRelations. cbn [snd closeSession record events].
  rewrite events_createRelationSteps. cbn [openSession record events].
  now rewrite <- !app_assoc.
Qed.

Lemma events_deleteRelations (rs : list Relation) (st : Store) :
  events (deleteRelations rs st)
  = events st
    ++ [SessionOpened]
    ++ map (fun r => Ran (mkStatement (deleteRelationQuery r) (relationParameters r))) rs
    ++ [SessionClosed].
Proof.
  unfold deleteRelations. cbn [closeSession record events].
  rewrite events_deleteRelationSteps. cbn [openSession record events].
  now rewrite <- !app_assoc.
Qed.

(** C2 (as the code has it).  [createRelations] and [deleteRelations] of
    the client run one statement per relation, in order, and hand the
    source, the target and the relation type of the caller to the store as
    the bound parameters [source], [target] and [relationType]; the source
    and the target never enter the statement text.  In the Descope server
    the text written in the relationship-type position of
    [create_relations] and [delete_relations] is the caller's type
    upper-cased with every run of white space replaced by one underscore:
    it has no white space and no lower-case letter, it is not otherwise
    restricted, and it is the only part of the text that comes from the
    caller, the names being the bound parameters [from] and [to]. *)
Theorem C2_relation_type_in_statements :
  (forall (rs : list Relation) (st : Store),
      events (snd (createRelations rs st))
      = events st
        ++ [SessionOpened]
        ++ map (fun r => Ran (mkStatement (createRelationQuery r)
                                [ ("source", VString (source r));
                                  ("target", VString (target r));
                                  ("relationType", VString (relationType r)) ])) rs
        ++ [SessionClosed]
      /\ events (deleteRelations rs st)
         = events st
           ++ [SessionOpened]
           ++ map (fun r => Ran (mkStatement (deleteRelationQuery r)
                                   [ ("source", VString (source r));
                                     ("target", VString (target r));
                                     ("relationType", VString (relationType r)) ])) rs
           ++ [SessionClosed])
  /\ (forall r r' : Relation,
         relationType r = relationType r' ->
         createRelationQuery r = createRelationQuery r'
         /\ deleteRelationQuery r = deleteRelationQuery r')
  /\ (exists before after : string,
         forall rel : DescopeServer.RelationInput,
           DescopeServer.createRelationQuery rel
           = (before ++ DescopeServer.relationTypeToken (DescopeServer.relation rel)
                ++ after)%string
           /\ map fst (parameters (DescopeServer.createRelationStatement rel))
              = ["from"; "to"; "properties"])
  /\ (exists before after : string,
         forall (args : DescopeServer.DeleteArgs) (t : string),
           DescopeServer.relation_type args = Some t -> t <> "" ->
           text (DescopeServer.deleteStatement args)
           = (before ++ DescopeServer.relationTypeToken t ++ after)%string
           /\ parameters (DescopeServer.deleteStatement args)
              = [ ("from", VString (DescopeServer.d_from args));
                  ("to", VString (DescopeServer.d_to args)) ])
  /\ (forall t : string,
         DescopeServer.relationTypeToken t = replaceWhiteSpace (toUpperCase t)
         /\ existsChar isWhiteSpace (DescopeServer.relationTypeToken t) = false
         /\ toUpperCase (DescopeServer.relationTypeToken t)
            = DescopeServer.relationTypeToken t)
  /\ DescopeServer.relationTypeToken "works-for (since 2020)" = "WORKS-FOR_(SINCE_2020)".
Proof.
  split; [| split; [| split; [| split; [| split]]]].
  - intros rs st. split; [apply events_createRelations | apply events_deleteRelations].
  - intros r r' _. split; reflexivity.
  - exists (String.concat nl
              [ "";
                "              MATCH (from:Entity {name: $from})";
                "              MATCH (to:Entity {name: $to})";
                "              CREATE (from)-[r:" ]).
    exists (String.concat nl
              [ " $properties]->(to)";
                "              SET r.created_at = datetime()";
                "              RETURN from.name as from_name, to.name as to_name, type(r) as relation_type";
                "            " ]).
    intros rel. split; [| reflexivity].
    unfold DescopeServer.createRelationQuery. cbn [String.concat].
    rewrite !append_assoc. reflexivity.
  - exists (String.concat nl
              [ ""; "              MATCH (from:Entity {name: $from})-[r:" ]).
    exists (String.concat nl
              [ "]->(to:Entity {name: $to})";
                "              DELETE r";
                "              RETURN count(r) as deleted_count";
                "            " ]).
    intros args t Ht Hne. unfold DescopeServer.deleteStatement, DescopeServer.requestedType.
    rewrite Ht. destruct t as [| c t]; [contradiction |].
    cbn [truthy text parameters]. split; [| reflexivity].
    unfold DescopeServer.deleteTypedQuery. cbn [String.concat].
    rewrite !append_assoc. reflexivity.
  - intros t. split; [reflexivity | split].
    + apply replaceRuns_no_space.
    + apply replaceRuns_upper.
  - reflexivity.
Qed.

Lemma C2_relation_type_in_statements_witness :
  (createRelationQuery (mkRelation "A" "B" "LIKES")
   = createRelationQuery (mkRelation "C" "D" "LIKES")
   /\ deleteRelationQuery (mkRelation "A" "B" "LIKES")
      = deleteRelationQuery (mkRelation "C" "D" "LIKES"))
  /\ exists before after : string,
      text (DescopeServer.deleteStatement
              (DescopeServer.mkDeleteArgs "A" "B" (Some "works for")))
      = (before ++ "WORKS_FOR" ++ after)%string.
Proof.
  split.
  - apply (proj1 (proj2 C2_relation_type_in_statements)
             (mkRelation "A" "B" "LIKES") (mkRelation "C" "D" "LIKES")).
    reflexivity.
  - destruct (proj1 (proj2 (proj2 (proj2 C2_relation_type_in_statements))))
      as [before [after H]].
    exists before, after.
    apply (H (DescopeServer.mkDeleteArgs "A" "B" (Some "works for")) "works for").
    + reflexivity.
    + discriminate.
Defined.

(** C2 as stated fails.  The statements of the client name one and the
    same relationship type whatever the caller's type is, so it is not the
    sanitized form of the caller's type; and the text the Descope server
    writes keeps characters outside [[A-Za-z0-9_]]. *)
Lemma C2_counterexample :
  ~ (forall r : Relation,
        Query.relationshipType (createRelationQuery r)
        = Some (Query.specSanitize (relationType r)))
  /\ ~ (forall r : Relation,
           Query.relationshipType (deleteRelationQuery r)
           = Some (Query.specSanitize (relationType r)))
  /\ ~ (forall t : string,
           allChars isWordChar (DescopeServer.relationTypeToken t) = true).
Proof.
  split; [| split]; intros H.
  - specialize (H (mkRelation "A" "B" "likes it")). discriminate H.
  - specialize (H (mkRelation "A" "B" "likes it")). discriminate H.
  - specialize (H "a-b"). discriminate H.
Qed.

(** ** C9: [delete_relations] with and without a relation type *)

Lemma parseRelations_complete (raw : list Server.RawRelation) (rs : list Relation) :
  Server.parseRelations raw = Some rs ->
  forall item, In item raw -> Server.raw_relationType item <> None.
Proof.
  unfold Server.parseRelations. revert rs.
  induction raw as [| x raw IH]; intros rs H item Hin; [destruct Hin |].
  simpl in H.
  destruct (Server.parseRelation x) as [a |] eqn:Ex; [| discriminate].
  destruct (FastMCP.parseArray Server.parseRelation raw) as [l |] eqn:El;
    [| discriminate].
  destruct Hin as [<- | Hin].
  - unfold Server.parseRelation in Ex.
    destruct (Server.raw_source x), (Server.raw_target x),
      (Server.raw_relationType x); discriminate.
  - now apply (IH l).
Qed.

Lemma matched_spec (args : DescopeServer.DeleteArgs) (g : Graph) (e : Edge) :
  DescopeServer.matched args g e = true
  <-> In (src e) (DescopeServer.matchEntity (DescopeServer.d_from args) g)
      /\ In (tgt e) (DescopeServer.matchEntity (DescopeServer.d_to args) g)
      /\ match DescopeServer.requestedType args with
         | Some relType => etype e = relType
         | None => True
         end.
Proof.
  unfold DescopeServer.matched.
  rewrite !andb_true_iff, !existsb_eqb_In.
  destruct (DescopeServer.requestedType args) as [ty |].
  - rewrite String.eqb_eq. tauto.
  - intuition auto.
Qed.

Lemma deleteRelationsUpdate_edges (args : DescopeServer.DeleteArgs) (g : Graph)
  (e : Edge) :
  In e (edges (snd (DescopeServer.deleteRelationsUpdate args g)))
  <-> In e (edges g) /\ DescopeServer.matched args g e = false.
Proof.
  unfold DescopeServer.deleteRelationsUpdate. cbn [snd edges].
  rewrite filter_In, negb_true_iff. tauto.
Qed.

(** C9 (as the code has it).  The [delete_relations] tool of
    [src/server.ts] requires [relationType] in every item: a batch with an
    item that lacks it is rejected when the arguments are parsed and the
    store is not touched.  The [delete_relations] tool of the Descope
    server takes one pair and accepts a missing [relation_type]; without a
    type (or with an empty one) it removes every relationship from a node
    named [from] to a node named [to] whatever its type, and with a type
    whose token is a relationship-type name it removes those of that type
    only; nodes and all other relationships are kept. *)
Theorem C9_delete_relations :
  (forall (raw : list Server.RawRelation) (rs : list Relation),
      Server.parseRelations raw = Some rs ->
      forall item, In item raw -> Server.raw_relationType item <> None)
  /\ (forall queryNodes (raw : list Server.RawRelation)
             (session : option AuthSession) (st : Store),
         (exists item, In item raw /\ Server.raw_relationType item = None) ->
         Server.callDeleteRelations queryNodes raw session st
         = (Throw FastMCP.invalidParams, st))
  /\ (forall (f t : string) (ty : option string),
         DescopeServer.parseDeleteArgs (DescopeServer.mkRawDeleteArgs (Some f) (Some t) ty)
         = Some (DescopeServer.mkDeleteArgs f t ty))
  /\ (forall (args : DescopeServer.DeleteArgs) (session : Descope.DescopeSession)
             (st : Store),
         Descope.hasPermission session Descope.WRITE = true ->
         graph (snd (DescopeServer.delete_relations args session st))
         = snd (DescopeServer.deleteRelationsUpdate args (graph st)))
  /\ (forall (args : DescopeServer.DeleteArgs) (g : Graph),
         truthy (DescopeServer.relation_type args) = false ->
         nodes (snd (DescopeServer.deleteRelationsUpdate args g)) = nodes g
         /\ forall e,
             In e (edges (snd (DescopeServer.deleteRelationsUpdate args g)))
             <-> In e (edges g)
                 /\ ~ (In (src e) (DescopeServer.matchEntity (DescopeServer.d_from args) g)
                       /\ In (tgt e) (DescopeServer.matchEntity (DescopeServer.d_to args) g)))
  /\ (forall (args : DescopeServer.DeleteArgs) (g : Graph) (t : string),
         DescopeServer.relation_type args = Some t -> t <> "" ->
         DescopeServer.isTypeName (DescopeServer.relationTypeToken t) = true ->
         nodes (snd (DescopeServer.deleteRelationsUpdate args g)) = nodes g
         /\ forall e,
             In e (edges (snd (DescopeServer.deleteRelationsUpdate args g)))
             <-> In e (edges g)
                 /\ ~ (In (src e) (DescopeServer.matchEntity (DescopeServer.d_from args) g)
                       /\ In (tgt e) (DescopeServer.matchEntity (DescopeServer.d_to args) g)
                       /\ etype e = DescopeServer.relationTypeToken t)).
Proof.
  split; [| split; [| split; [| split; [| split]]]].
  - apply parseRelations_complete.
  - intros queryNodes raw session st [item [Hin Hnone]].
    unfold Server.callDeleteRelations, FastMCP.withParameters.
    destruct (Server.parseRelations raw) as [rs |] eqn:E; [| reflexivity].
    exfalso. exact (parseRelations_complete raw rs E item Hin Hnone).
  - reflexivity.
  - intros args session st Hp. unfold DescopeServer.delete_relations,
      DescopeServer.requirePermission. rewrite Hp. cbn [negb].
    unfold runReturning. cbn [openSession record graph].
    destruct (DescopeServer.deleteRelationsUpdate args (graph st)) as [count g'].
    reflexivity.
  - intros args g Hf. split; [reflexivity |].
    intros e. rewrite deleteRelationsUpdate_edges.
    assert (Hm : DescopeServer.matched args g e = false
                 <-> ~ DescopeServer.matched args g e = true)
      by (destruct (DescopeServer.matched args g e); split; congruence).
    rewrite Hm, matched_spec. unfold DescopeServer.requestedType. rewrite Hf.
    tauto.
  - intros args g t Ht Hne _. split; [reflexivity |].
    intros e. rewrite deleteRelationsUpdate_edges.
    assert (Hm : DescopeServer.matched args g e = false
                 <-> ~ DescopeServer.matched args g e = true)
      by (destruct (DescopeServer.matched args g e); split; congruence).
    rewrite Hm, matched_spec. unfold DescopeServer.requestedType. rewrite Ht.
    destruct t as [| c t]; [contradiction |]. cbn [truthy]. tauto.
Qed.

Lemma C9_delete_relations_witness :
  Server.callDeleteRelations (fun _ _ => true)
    [Server.mkRawRelation (Some "A") (Some "B") None]
    (Some (mkAuthSession "u" None ["write"] "Bearer" 0 (Some 10)))
    (mkStore emptyGraph [] true)
  = (Throw FastMCP.invalidParams, mkStore emptyGraph [] true)
  /\ In (mkEdge 2 1 "LIKES")
        (edges (snd (DescopeServer.deleteRelationsUpdate
                       (DescopeServer.mkDeleteArgs "A" "B" None)
                       (mkGraph [ mkNode 1 ["Entity"] (Some "A") None None None None None;
                                  mkNode 2 ["Entity"] (Some "B") None None None None None ]
                                [ mkEdge 1 2 "LIKES"; mkEdge 1 2 "KNOWS";
                                  mkEdge 2 1 "LIKES" ]))))
  /\ In (mkEdge 1 2 "KNOWS")
        (edges (snd (DescopeServer.deleteRelationsUpdate
                       (DescopeServer.mkDeleteArgs "A" "B" (Some "likes"))
                       (mkGraph [ mkNode 1 ["Entity"] (Some "A") None None None None None;
                                  mkNode 2 ["Entity"] (Some "B") None None None None None ]
                                [ mkEdge 1 2 "LIKES"; mkEdge 1 2 "KNOWS";
                                  mkEdge 2 1 "LIKES" ])))).
Proof.
  split; [| split].
  - apply (proj1 (proj2 C9_delete_relations)).
    exists (Server.mkRawRelation (Some "A") (Some "B") None).
    split; [now left | reflexivity].
  - apply (proj2 (proj1 (proj2 (proj2 (proj2 (proj2 C9_delete_relations))))
                    (DescopeServer.mkDeleteArgs "A" "B" None) _ eq_refl)).
    split; [simpl; tauto |].
    cbn. intros [[H | []] _]. discriminate H.
  - apply (proj2 (proj2 (proj2 (proj2 (proj2 (proj2 C9_delete_relations))))
                    (DescopeServer.mkDeleteArgs "A" "B" (Some "likes")) _
                    "likes" eq_refl ltac:(discriminate) eq_refl)).
    split; [simpl; tauto |].
    cbn. intros [_ [_ H]]. discriminate H.
Defined.

(** C9 as stated fails on [src/server.ts]: its [delete_relations] does
    not accept an item without [relationType]; such a call is rejected and
    the relationships between the pair stay. *)
Lemma C9_counterexample :
  ~ (exists rs : list Relation,
        Server.parseRelations [Server.mkRawRelation (Some "A") (Some "B") None]
        = Some rs)
  /\ (let st := mkStore
                  (mkGraph [ mkNode 1 ["Memory"] (Some "A") (Some "T") (Some []) None None None;
                             mkNode 2 ["Memory"] (Some "B") (Some "T") (Some []) None None None ]
                           [ mkEdge 1 2 "LIKES"; mkEdge 1 2 "KNOWS" ])
                  [] true in
      Server.callDeleteRelations (fun _ _ => true)
        [Server.mkRawRelation (Some "A") (Some "B") None]
        (Some (mkAuthSession "u" None ["write"] "Bearer" 0 (Some 10))) st
      = (Throw FastMCP.invalidParams, st)).
Proof.
  split; [intros [rs H]; discriminate H | reflexivity].
Qed.

(** ** C7: [addObservations] appends the set difference *)

Import Aux.

Lemma nid_applyRows (rows : list AddRow) (n : Node) :
  nid (applyRows rows n) = nid n.
Proof.
  unfold applyRows. revert n.
  induction rows as [| r rows IH]; intros n; simpl; [reflexivity |].
  rewrite IH. destruct (nid n =? row_e r); reflexivity.
Qed.

Lemma applyRows_miss (rows : list AddRow) (n : Node) :
  (forall r, In r rows -> row_e r <> nid n) -> applyRows rows n = n.
Proof.
  unfold applyRows. induction rows as [| r rows IH]; intros H; simpl;
    [reflexivity |].
  destruct (Nat.eqb_spec (nid n) (row_e r)) as [E | _].
  - exfalso. apply (H r); [now left | now symmetry].
  - apply IH. intros r' Hr'. apply H. now right.
Qed.

Lemma applyRows_app (r1 r2 : list AddRow) (n : Node) :
  applyRows (r1 ++ r2) n = applyRows r2 (applyRows r1 n).
Proof. unfold applyRows. apply fold_left_app. Qed.

Lemma updateRows_graph (rows : list AddRow) (g : Graph) :
  fold_left (fun g r => updateNode (row_e r) (appendObservations (row_new r)) g)
            rows g
  = mkGraph (map (applyRows rows) (nodes g)) (edges g).
Proof.
  revert g. induction rows as [| r rows IH]; intros g; simpl.
  - destruct g as [ns es]. simpl. f_equal.
    induction ns as [| n ns IHn]; simpl; [reflexivity | now rewrite <- IHn].
  - rewrite IH. unfold updateNode. cbn [nodes edges]. now rewrite map_map.
Qed.

Lemma nid_inj (l : list Node) (a b : Node) :
  NoDup (map nid l) -> In a l -> In b l -> nid a = nid b -> a = b.
Proof.
  induction l as [| m l IH]; simpl; intros Hnd Ha Hb E; [destruct Ha |].
  apply NoDup_cons_iff in Hnd as [Hm Hnd].
  destruct Ha as [-> | Ha], Hb as [-> | Hb].
  - reflexivity.
  - exfalso. apply Hm. rewrite E. now apply in_map.
  - exfalso. apply Hm. rewrite <- E. now apply in_map.
  - now apply IH.
Qed.

Lemma find_by_id (F : Node -> Node) (l : list Node) (n : Node) :
  (forall m, nid (F m) = nid m) ->
  NoDup (map nid l) -> In n l ->
  find (fun m => nid m =? nid n) (map F l) = Some (F n).
Proof.
  intros HF. induction l as [| m l IH]; simpl; intros Hnd Hin; [destruct Hin |].
  apply NoDup_cons_iff in Hnd as [Hm Hnd]. rewrite HF.
  destruct (Nat.eqb_spec (nid m) (nid n)) as [E | Hne].
  - destruct Hin as [-> | Hin]; [reflexivity |].
    exfalso. apply Hm. rewrite E. now apply in_map.
  - destruct Hin as [-> | Hin]; [contradiction |]. now apply IH.
Qed.

Lemma isMemory_name (s : string) (n : Node) :
  isMemory s n = true -> n_name n = Some s.
Proof.
  unfold isMemory, nameIs. intros H. apply andb_true_iff in H as [_ H].
  destruct (n_name n) as [x |]; [| discriminate].
  apply String.eqb_eq in H. now subst.
Qed.

Lemma rowsOf_In (o : ObservationAddition) (l : list Node) (r : AddRow) :
  In r (rowsOf o l) ->
  exists m, In m l /\ isMemory (oa_entityName o) m = true /\ row_e r = nid m.
Proof.
  unfold rowsOf. rewrite in_map_iff. intros [m [<- Hm]].
  apply filter_In in Hm as [Hin Hmem]. now exists m.
Qed.

Lemma rowsOf_hit_once (o : ObservationAddition) (l : list Node) (n : Node) :
  NoDup (map nid l) -> In n l -> isMemory (oa_entityName o) n = true ->
  applyRows (rowsOf o l) n
  = appendObservations (newObservations (n_observations n) (contents o)) n.
Proof.
  induction l as [| m l IH]; intros Hnd Hin Hmem; [destruct Hin |].
  simpl in Hnd. apply NoDup_cons_iff in Hnd as [Hm Hnd].
  assert (Hrest : forall n', nid n' = nid m ->
                             applyRows (rowsOf o l) n' = n').
  { intros n' E. apply applyRows_miss. intros r Hr.
    apply rowsOf_In in Hr as [m' [Hm' [_ ->]]].
    intros E'. apply Hm. rewrite <- E, <- E'. now apply in_map. }
  unfold rowsOf in *. simpl.
  destruct Hin as [-> | Hin].
  - rewrite Hmem. simpl. unfold applyRows at 1. simpl. rewrite Nat.eqb_refl.
    apply (Hrest (appendObservations _ n)). reflexivity.
  - assert (Hne : nid n <> nid m).
    { intros E. apply Hm. rewrite <- E. now apply in_map. }
    destruct (isMemory (oa_entityName o) m).
    + simpl. unfold applyRows at 1. simpl.
      destruct (Nat.eqb_spec (nid n) (nid m)); [contradiction |].
      now apply IH.
    + now apply IH.
Qed.

Lemma rows_of_others_miss (os : list ObservationAddition) (s : string)
  (l : list Node) (n : Node) :
  NoDup (map nid l) -> In n l -> isMemory s n = true ->
  (forall o', In o' os -> oa_entityName o' <> s) ->
  forall r, In r (flat_map (fun o => rowsOf o l) os) -> row_e r <> nid n.
Proof.
  intros Hnd Hin Hmem Hos r Hr.
  apply in_flat_map in Hr as [o' [Ho' Hr]].
  apply rowsOf_In in Hr as [m [Hm [Hmem' ->]]].
  intros E. assert (m = n) by (now apply (nid_inj l)). subst m.
  apply isMemory_name in Hmem, Hmem'. rewrite Hmem in Hmem'.
  injection Hmem' as E'. now apply (Hos o').
Qed.

Lemma addObservations_graph (obs : list ObservationAddition) (st : Store) :
  fst (addObservations obs st) = fst (addObservationsUpdate obs (graph st))
  /\ graph (snd (addObservations obs st))
     = snd (addObservationsUpdate obs (graph st)).
Proof.
  unfold addObservations, runReturning. cbn [openSession record graph].
  destruct (addObservationsUpdate obs (graph st)) as [result g'].
  split; reflexivity.
Qed.

Lemma newObservations_In (existing : option (list string))
  (contents : list string) (s : string) :
  In s (newObservations existing contents)
  <-> In s contents /\ ~ In s (coalesce existing).
Proof.
  unfold newObservations. rewrite filter_In, negb_true_iff, includes_false.
  tauto.
Qed.

Lemma rowsOf_hit (o : ObservationAddition) (l : list Node) (n m : Node) :
  NoDup (map nid l) -> In n l -> nid m = nid n ->
  applyRows (rowsOf o l) m
  = if isMemory (oa_entityName o) n
    then appendObservations (newObservations (n_observations n) (contents o)) m
    else m.
Proof.
  revert m. induction l as [| k l IH]; intros m Hnd Hin Hid; [destruct Hin |].
  cbn [map] in Hnd. apply NoDup_cons_iff in Hnd as [Hk Hnd].
  assert (Hrest : forall x, nid x = nid k -> applyRows (rowsOf o l) x = x).
  { intros x E. apply applyRows_miss. intros r Hr.
    apply rowsOf_In in Hr as [k' [Hk' [_ ->]]].
    intros E'. apply Hk. rewrite <- E, <- E'. now apply in_map. }
  unfold rowsOf in *. cbn [filter].
  destruct Hin as [-> | Hin].
  - destruct (isMemory (oa_entityName o) n) eqn:Hmem.
    + cbn [map]. unfold applyRows at 1. cbn [fold_left row_e row_new].
      rewrite Hid, Nat.eqb_refl.
      apply (Hrest (appendObservations _ m)). exact Hid.
    + apply Hrest. exact Hid.
  - assert (Hne : nid m <> nid k).
    { rewrite Hid. intros E. apply Hk. rewrite <- E. now apply in_map. }
    destruct (isMemory (oa_entityName o) k).
    + cbn [map]. unfold applyRows at 1. cbn [fold_left row_e row_new].
      destruct (Nat.eqb_spec (nid m) (nid k)); [contradiction |].
      now apply IH.
    + now apply IH.
Qed.

Lemma rowsOf_all (obs : list ObservationAddition) (l : list Node) (n m : Node) :
  NoDup (map nid l) -> In n l -> nid m = nid n ->
  let mine := filter (fun o => isMemory (oa_entityName o) n) obs in
  let m' := applyRows (flat_map (fun o => rowsOf o l) obs) m in
  n_name m' = n_name m
  /\ (mine = [] -> m' = m)
  /\ (mine <> [] ->
      n_observations m'
      = Some (coalesce (n_observations m)
              ++ flat_map (fun o => newObservations (n_observations n) (contents o))
                          mine)).
Proof.
  intros Hnd Hin. revert m.
  induction obs as [| o obs IH]; intros m Hid; cbn [filter flat_map].
  - split; [reflexivity |]. split; [reflexivity | intros H; now contradiction H].
  - rewrite applyRows_app, (rowsOf_hit o l n m Hnd Hin Hid).
    destruct (isMemory (oa_entityName o) n).
    + destruct (IH (appendObservations
                      (newObservations (n_observations n) (contents o)) m) Hid)
        as (Hname & Hnone & Hsome).
      cbv zeta in Hname, Hnone, Hsome. cbv zeta.
      split; [exact Hname |]. split; [discriminate |]. intros _.
      cbn [flat_map].
      destruct (filter (fun o0 => isMemory (oa_entityName o0) n) obs) as [| o1 rest]
        eqn:E.
      * rewrite (Hnone eq_refl). cbn [flat_map n_observations appendObservations].
        now rewrite app_nil_r.
      * rewrite Hsome by discriminate.
        cbn [n_observations appendObservations coalesce].
        now rewrite <- app_assoc.
    + now apply IH.
Qed.

Lemma name_applyRows (rows : list AddRow) (n : Node) :
  n_name (applyRows rows n) = n_name n.
Proof.
  unfold applyRows. revert n.
  induction rows as [| r rows IH]; intros n; cbn [fold_left]; [reflexivity |].
  rewrite IH. now destruct (nid n =? row_e r).
Qed.

Lemma nameOf_applyRows (rows : list AddRow) (g : Graph) (n : Node) :
  NoDup (map nid (nodes g)) -> In n (nodes g) ->
  nameOf (nid n) (mkGraph (map (applyRows rows) (nodes g)) (edges g))
  = match n_name n with Some s => s | None => "" end.
Proof.
  intros Hnd Hin. unfold nameOf, findNode. cbn [nodes].
  rewrite (find_by_id (applyRows rows) (nodes g) n (nid_applyRows rows) Hnd Hin).
  now rewrite name_applyRows.
Qed.

Lemma addObservations_result (obs : list ObservationAddition) (g : Graph) :
  NoDup (map nid (nodes g)) ->
  fst (addObservationsUpdate obs g)
  = flat_map
      (fun o =>
         map (fun m => mkAdded (oa_entityName o)
                         (newObservations (n_observations m) (contents o)))
             (filter (isMemory (oa_entityName o)) (nodes g)))
      obs.
Proof.
  intros Hnd. unfold addObservationsUpdate. cbn [fst].
  rewrite updateRows_graph.
  generalize (addObservationsRows obs g) at 1 as rows. intros rows.
  unfold addObservationsRows.
  induction obs as [| o obs IH]; cbn [flat_map map]; [reflexivity |].
  rewrite map_app, IH. f_equal.
  rewrite map_map. apply map_ext_in. intros m Hm.
  apply filter_In in Hm as [Hin Hmem]. cbn [row_e row_new].
  rewrite (nameOf_applyRows rows g m Hnd Hin).
  now rewrite (isMemory_name _ _ Hmem).
Qed.

(** C7 (as the code has it).  For every batch given to [addObservations]
    and every entity node, with [existing] the observations of the entity
    before the call: each item of the batch for the entity is answered by
    one record carrying those strings of its [contents] that are not in
    [existing], in the order and as often as [contents] has them; the
    entity ends with [existing] followed by these lists, item after item,
    and an entity no item names is left as it is.  So a string the entity
    already had is neither appended nor counted more often than before,
    and for a single item whose [contents] has no repetition the result
    has none either (given that [existing] has none). *)
Theorem C7_addObservations_set_difference :
  forall (obs : list ObservationAddition) (n : Node) (st : Store),
    NoDup (map nid (nodes (graph st))) ->
    In n (nodes (graph st)) ->
    let existing := coalesce (n_observations n) in
    let new := fun o => newObservations (n_observations n) (contents o) in
    let mine := filter (fun o => isMemory (oa_entityName o) n) obs in
    let result := fst (addObservations obs st) in
    let st' := snd (addObservations obs st) in
    (mine <> [] ->
     exists n', findNode (nid n) (graph st') = Some n'
                /\ n_name n' = n_name n
                /\ n_observations n' = Some (existing ++ flat_map new mine))
    /\ (mine = [] -> findNode (nid n) (graph st') = Some n)
    /\ result
       = flat_map
           (fun o =>
              map (fun m => mkAdded (oa_entityName o)
                              (newObservations (n_observations m) (contents o)))
                  (filter (isMemory (oa_entityName o)) (nodes (graph st))))
           obs
    /\ (forall o, In o mine -> In (mkAdded (oa_entityName o) (new o)) result)
    /\ (forall o s, In s (new o) <-> In s (contents o) /\ ~ In s existing)
    /\ (forall o s, ~ In s existing ->
                    count_occ string_dec (new o) s
                    = count_occ string_dec (contents o) s)
    /\ (forall s, In s existing ->
                  count_occ string_dec (existing ++ flat_map new mine) s
                  = count_occ string_dec existing s)
    /\ (forall o, mine = [o] -> NoDup existing -> NoDup (contents o) ->
                  NoDup (existing ++ flat_map new mine)).
Proof.
  intros obs n st Hnd Hin existing new mine result st'.
  subst result st'.
  destruct (addObservations_graph obs st) as [-> ->].
  assert (Hres : fst (addObservationsUpdate obs (graph st))
                 = flat_map
                     (fun o =>
                        map (fun m => mkAdded (oa_entityName o)
                                        (newObservations (n_observations m) (contents o)))
                            (filter (isMemory (oa_entityName o)) (nodes (graph st))))
                     obs)
    by now apply addObservations_result.
  assert (Hfind : findNode (nid n) (snd (addObservationsUpdate obs (graph st)))
                  = Some (applyRows (addObservationsRows obs (graph st)) n)).
  { unfold addObservationsUpdate. cbn [snd]. rewrite updateRows_graph.
    unfold findNode. cbn [nodes].
    apply find_by_id; [apply nid_applyRows | assumption | assumption]. }
  change (addObservationsRows obs (graph st))
    with (flat_map (fun o => rowsOf o (nodes (graph st))) obs) in Hfind.
  destruct (rowsOf_all obs (nodes (graph st)) n n Hnd Hin eq_refl)
    as (Hname & Hnone & Hsome).
  cbv zeta in Hname, Hnone, Hsome.
  fold mine in Hnone, Hsome.
  assert (Hnew : forall o s, In s (new o) <-> In s (contents o) /\ ~ In s existing)
    by (intros o s; apply newObservations_In).
  split; [| split; [| split; [| split; [| split; [| split; [| split]]]]]].
  - intros Hmine. eexists. split; [exact Hfind |]. split; [exact Hname |].
    now apply Hsome.
  - intros Hmine. rewrite Hfind. now rewrite (Hnone Hmine).
  - exact Hres.
  - intros o Ho. rewrite Hres. apply filter_In in Ho as [Ho Hmem].
    apply in_flat_map. exists o. split; [exact Ho |].
    apply in_map_iff. exists n. split; [reflexivity |].
    apply filter_In. now split.
  - exact Hnew.
  - intros o s Hs. unfold new, newObservations.
    induction (contents o) as [| c cs IH]; cbn [filter count_occ]; [reflexivity |].
    destruct (includes (coalesce (n_observations n)) c) eqn:E; cbn [negb count_occ].
    + apply includes_In in E.
      destruct (string_dec c s) as [-> | _]; [now contradiction Hs | exact IH].
    + destruct (string_dec c s); now rewrite IH.
  - intros s Hs. rewrite count_occ_app.
    assert (Hnot : ~ In s (flat_map new mine)).
    { intros H. apply in_flat_map in H as (o & _ & H). apply Hnew in H. tauto. }
    apply (count_occ_not_In string_dec) in Hnot. rewrite Hnot. lia.
  - intros o Hmine H1 H2. rewrite Hmine. cbn [flat_map]. rewrite app_nil_r.
    apply NoDup_app; [assumption | now apply NoDup_filter |].
    intros s Hs Hn. apply Hnew in Hn. tauto.
Qed.

Lemma C7_addObservations_set_difference_witness :
  let node := mkNode 1 ["Memory"] (Some "A") (Some "T") (Some ["o1"; "o2"])
                None None None in
  let st := mkStore (mkGraph [node] []) [] true in
  let obs := [ mkObservationAddition "A" ["o1"; "o3"];
               mkObservationAddition "B" ["o4"];
               mkObservationAddition "A" ["o5"; "o2"] ] in
  fst (addObservations obs st) = [ mkAdded "A" ["o3"]; mkAdded "A" ["o5"] ]
  /\ exists n', findNode 1 (graph (snd (addObservations obs st))) = Some n'
                /\ n_name n' = Some "A"
                /\ n_observations n' = Some ["o1"; "o2"; "o3"; "o5"].
Proof.
  cbv zeta.
  destruct (C7_addObservations_set_difference
              [ mkObservationAddition "A" ["o1"; "o3"];
                mkObservationAddition "B" ["o4"];
                mkObservationAddition "A" ["o5"; "o2"] ]
              (mkNode 1 ["Memory"] (Some "A") (Some "T") (Some ["o1"; "o2"])
                 None None None)
              (mkStore (mkGraph [mkNode 1 ["Memory"] (Some "A") (Some "T")
                                   (Some ["o1"; "o2"]) None None None] [])
                       [] true))
    as (Hnode & _ & Hres & _).
  - simpl. constructor; [intros [] | constructor].
  - now left.
  - split; [exact Hres |]. apply Hnode. discriminate.
Defined.

(** C7 as stated fails where a string is given more than once: a string
    repeated in [contents], or given by two items of the batch for the same
    entity, is tested against the observations the entity had before the
    call only, so it is stored and returned as often as it is given. *)
Lemma C7_counterexample :
  let node := mkNode 1 ["Memory"] (Some "A") (Some "T") (Some ["o1"])
                None None None in
  let st := mkStore (mkGraph [node] []) [] true in
  (fst (addObservations [mkObservationAddition "A" ["x"; "x"]] st)
   = [mkAdded "A" ["x"; "x"]]
   /\ map n_observations
          (nodes (graph (snd (addObservations
                                [mkObservationAddition "A" ["x"; "x"]] st))))
      = [Some ["o1"; "x"; "x"]])
  /\ (fst (addObservations [ mkObservationAddition "A" ["x"];
                             mkObservationAddition "A" ["x"] ] st)
      = [mkAdded "A" ["x"]; mkAdded "A" ["x"]]
      /\ map n_observations
             (nodes (graph (snd (addObservations
                                   [ mkObservationAddition "A" ["x"];
                                     mkObservationAddition "A" ["x"] ] st))))
         = [Some ["o1"; "x"; "x"]]).
Proof. cbv zeta. repeat split; reflexivity. Qed.

(** ** C8: [deleteEntities] cascades *)

Lemma detachDeletes_nodes (ids : list nat) (g : Graph) (n : Node) :
  In n (nodes (fold_left (fun g i => detachDelete i g) ids g))
  <-> In n (nodes g) /\ ~ In (nid n) ids.
Proof.
  revert g. induction ids as [| i ids IH]; intros g; simpl.
  - tauto.
  - rewrite IH. unfold detachDelete. cbn [nodes].
    rewrite filter_In, negb_true_iff, Nat.eqb_neq.
    split; [intros [[H1 H2] H3] | intros [H1 H2]]; repeat split; auto.
    intros [E | E]; [now apply H2 | now apply H3].
Qed.

Lemma detachDeletes_edges (ids : list nat) (g : Graph) (e : Edge) :
  In e (edges (fold_left (fun g i => detachDelete i g) ids g))
  <-> In e (edges g) /\ forall i, In i ids -> src e <> i /\ tgt e <> i.
Proof.
  revert g. induction ids as [| i ids IH]; intros g; simpl.
  - split; [intros H; split; [assumption | intros i []] | tauto].
  - rewrite IH. unfold detachDelete, touches. cbn [edges].
    rewrite filter_In, negb_true_iff, orb_false_iff, !Nat.eqb_neq.
    split.
    + intros [[H1 [H2 H3]] H4]. split; [assumption |].
      intros j [<- | Hj]; [now split | now apply H4].
    + intros [H1 H2]. split; [split; [assumption | apply H2; now left] |].
      intros j Hj. apply H2. now right.
Qed.

Lemma flat_map_all_nil {A B : Type} (f : A -> list B) (l : list A) :
  (forall x, In x l -> f x = []) -> flat_map f l = [].
Proof.
  induction l as [| x l IH]; intros H; simpl; [reflexivity |].
  rewrite (H x) by now left. apply IH. intros y Hy. apply H. now right.
Qed.

Lemma filter_all_false {A : Type} (f : A -> bool) (l : list A) :
  (forall x, In x l -> f x = false) -> filter f l = [].
Proof.
  induction l as [| x l IH]; intros H; simpl; [reflexivity |].
  rewrite (H x) by now left. apply IH. intros y Hy. apply H. now right.
Qed.

Lemma distinctFrom_In {A : Type} (eqb : A -> A -> bool) (seen l : list A) (x : A) :
  In x (distinctFrom eqb seen l) -> In x l.
Proof.
  revert seen. induction l as [| y l IH]; intros seen; simpl; [tauto |].
  destruct (existsb (eqb y) seen).
  - intros H. right. now apply (IH seen).
  - intros [-> | H]; [now left | right; now apply (IH (y :: seen))].
Qed.

Lemma filterMap_In {A B : Type} (f : A -> option B) (l : list A) (y : B) :
  In y (filterMap f l) -> exists x, In x l /\ f x = Some y.
Proof.
  induction l as [| x l IH]; simpl; [tauto |].
  destruct (f x) as [z |] eqn:E.
  - intros [-> | H]; [exists x; auto |].
    destruct (IH H) as [x' [H1 H2]]. exists x'. auto.
  - intros H. destruct (IH H) as [x' [H1 H2]]. exists x'. auto.
Qed.

Lemma deleted_not_matched (names : list string) (s : string) (g : Graph) (m : Node) :
  In s names ->
  In m (nodes (deleteEntitiesUpdate names g)) -> isMemory s m = false.
Proof.
  intros Hs Hm. unfold deleteEntitiesUpdate in Hm.
  apply detachDeletes_nodes in Hm as [Hin Hnot].
  destruct (isMemory s m) eqn:E; [| reflexivity].
  exfalso. apply Hnot. apply in_flat_map. exists s. split; [assumption |].
  unfold matchMemory. apply in_map. apply filter_In. now split.
Qed.

Lemma findNodes_result queryNodes (names : list string) (st : Store) :
  fst (findNodes queryNodes names st)
  = loadGraphResult queryNodes (findNodesFilter names) (graph st).
Proof. reflexivity. Qed.

(** C8 (as the code has it).  After [deleteEntities] on a list of names
    that contains [name], the graph has no entity named [name] (its
    observations, which are a property of the node, go with it) and no
    relationship that starts or ends at a node that was such an entity.  A
    following [findNodes] for the name gives no entity of that name; its
    result is empty when the [name:(...)] query yields, among the nodes of
    the graph, only nodes of that name, and it need not be empty otherwise.
    When no name of the list names an entity the graph is unchanged; the
    call returns in every case. *)
Theorem C8_deleteEntities_cascade :
  forall (queryNodes : string -> Node -> bool) (names : list string)
         (name : string) (st : Store),
    In name names ->
    (forall m, In m (nodes (graph (deleteEntities names st))) ->
               isMemory name m = false)
    /\ (forall n e,
           In n (nodes (graph st)) -> isMemory name n = true ->
           In e (edges (graph (deleteEntities names st))) ->
           src e <> nid n /\ tgt e <> nid n)
    /\ (forall ent,
           In ent (entities (fst (findNodes queryNodes [name]
                                    (deleteEntities names st)))) ->
           e_name ent <> name)
    /\ ((forall m, In m (nodes (graph st)) ->
                   queryNodes (findNodesFilter [name]) m = true ->
                   nameIs name m = true) ->
        fst (findNodes queryNodes [name] (deleteEntities names st))
        = mkKnowledgeGraph [] [])
    /\ ((forall s, In s names -> matchMemory s (graph st) = []) ->
        graph (deleteEntities names st) = graph st).
Proof.
  intros queryNodes names name st Hname.
  assert (Hgone : forall m, In m (nodes (graph (deleteEntities names st))) ->
                            isMemory name m = false).
  { intros m Hm. apply (deleted_not_matched names name (graph st)); assumption. }
  split; [exact Hgone | split; [| split; [| split]]].
  - intros n e Hn Hmem He. cbn in He. unfold deleteEntitiesUpdate in He.
    apply detachDeletes_edges in He as [_ He]. apply He.
    apply in_flat_map. exists name. split; [assumption |].
    unfold matchMemory. apply in_map. apply filter_In. now split.
  - intros ent Hent. rewrite findNodes_result in Hent.
    unfold loadGraphResult in Hent. cbn [entities] in Hent.
    apply filterMap_In in Hent as [nm [Hnm Hto]].
    apply distinctFrom_In in Hnm. apply in_map_iff in Hnm as [m [<- Hm]].
    apply filter_In in Hm as [Hm Hq]. apply andb_true_iff in Hq as [Hlabel _].
    specialize (Hgone m Hm).
    unfold toEntity, truthyName, nodeMapOf in Hto. cbn [fst snd] in Hto.
    destruct (n_name m) as [[| c s] |] eqn:En; cbn in Hto; try discriminate.
    injection Hto as <-. cbn [e_name]. intros E.
    unfold isMemory, nameIs in Hgone. rewrite Hlabel, En, E in Hgone.
    rewrite String.eqb_refl in Hgone. discriminate.
  - intros Hexact. rewrite findNodes_result. unfold loadGraphResult.
    assert (Hnone : yielded queryNodes (findNodesFilter [name])
                      (graph (deleteEntities names st)) = []).
    { unfold yielded. apply filter_all_false. intros m Hm.
      assert (Hin : In m (nodes (graph st))).
      { cbn in Hm. unfold deleteEntitiesUpdate in Hm.
        now apply detachDeletes_nodes in Hm as [Hin _]. }
      specialize (Hgone m Hm). unfold isMemory in Hgone.
      destruct (hasLabel "Memory" m); [| reflexivity].
      destruct (queryNodes (findNodesFilter [name]) m) eqn:Eq; [| reflexivity].
      rewrite (Hexact m Hin Eq) in Hgone. discriminate. }
    rewrite Hnone. reflexivity.
  - intros Hnone. cbn. unfold deleteEntitiesUpdate.
    rewrite (flat_map_all_nil _ names Hnone). reflexivity.
Qed.

Lemma C8_deleteEntities_cascade_witness :
  fst (findNodes wordIndex ["Alice"]
         (deleteEntities ["Alice"]
            (mkStore
               (mkGraph [ mkNode 1 ["Memory"] (Some "Alice") (Some "T") (Some ["o1"]) None None None;
                          mkNode 2 ["Memory"] (Some "Bob") (Some "T") (Some []) None None None ]
                        [ mkEdge 1 2 "LIKES"; mkEdge 2 1 "KNOWS" ])
               [] true)))
  = mkKnowledgeGraph [] []
  /\ graph (deleteEntities ["Alice"]
              (mkStore
                 (mkGraph [ mkNode 1 ["Memory"] (Some "Alice") (Some "T") (Some ["o1"]) None None None;
                            mkNode 2 ["Memory"] (Some "Bob") (Some "T") (Some []) None None None ]
                          [ mkEdge 1 2 "LIKES"; mkEdge 2 1 "KNOWS" ])
                 [] true))
     = mkGraph [ mkNode 2 ["Memory"] (Some "Bob") (Some "T") (Some []) None None None ] []
  /\ graph (deleteEntities ["Z"]
              (mkStore
                 (mkGraph [ mkNode 1 ["Memory"] (Some "A") (Some "T") (Some ["o1"]) None None None ]
                          [])
                 [] true))
     = mkGraph [ mkNode 1 ["Memory"] (Some "A") (Some "T") (Some ["o1"]) None None None ] [].
Proof.
  split; [| split; [reflexivity |]].
  - apply (proj1 (proj2 (proj2 (proj2
             (C8_deleteEntities_cascade
                wordIndex ["Alice"] "Alice"
                (mkStore
                   (mkGraph [ mkNode 1 ["Memory"] (Some "Alice") (Some "T") (Some ["o1"]) None None None;
                              mkNode 2 ["Memory"] (Some "Bob") (Some "T") (Some []) None None None ]
                            [ mkEdge 1 2 "LIKES"; mkEdge 2 1 "KNOWS" ])
                   [] true)
                (or_introl eq_refl)))))).
    intros m [<- | [<- | []]] H; [reflexivity | vm_compute in H; discriminate H].
  - apply (proj2 (proj2 (proj2 (proj2
             (C8_deleteEntities_cascade
                wordIndex ["Z"] "Z"
                (mkStore
                   (mkGraph [ mkNode 1 ["Memory"] (Some "A") (Some "T") (Some ["o1"]) None None None ]
                            [])
                   [] true)
                (or_introl eq_refl)))))).
    intros s [<- | []]. reflexivity.
Defined.

(** C8 as stated fails on the result of [findNodes]: the lookup is a
    full-text query on the words of the names, so after "Alice" has been
    deleted, [findNodes] for "Alice" still returns the entity
    "Alice Smith". *)
Lemma C8_counterexample :
  ~ (forall (queryNodes : string -> Node -> bool) (names : list string)
            (name : string) (st : Store),
        In name names ->
        fst (findNodes queryNodes [name] (deleteEntities names st))
        = mkKnowledgeGraph [] [])
  /\ fst (findNodes wordIndex ["Alice"]
            (deleteEntities ["Alice"]
               (mkStore
                  (mkGraph [ mkNode 1 ["Memory"] (Some "Alice") (Some "person")
                               (Some ["o1"]) None None None;
                             mkNode 2 ["Memory"] (Some "Alice Smith") (Some "person")
                               (Some []) None None None ]
                           [ mkEdge 1 2 "KNOWS" ])
                  [] true)))
     = mkKnowledgeGraph [mkEntity "Alice Smith" "person" []] [].
Proof.
  assert (H0 : fst (findNodes wordIndex ["Alice"]
                      (deleteEntities ["Alice"]
                         (mkStore
                            (mkGraph [ mkNode 1 ["Memory"] (Some "Alice") (Some "person")
                                         (Some ["o1"]) None None None;
                                       mkNode 2 ["Memory"] (Some "Alice Smith")
                                         (Some "person") (Some []) None None None ]
                                     [ mkEdge 1 2 "KNOWS" ])
                            [] true)))
                 = mkKnowledgeGraph [mkEntity "Alice Smith" "person" []] [])
    by reflexivity.
  split; [| exact H0].
  intros H.
  rewrite (H wordIndex ["Alice"] "Alice" _ (or_introl eq_refl)) in H0.
  discriminate H0.
Qed.

(** ** C6: creating an entity twice *)

Lemma nid_applyUpdates (F : Node -> Node) (ids : list nat) (n : Node) :
  (forall m, nid (F m) = nid m) -> nid (applyUpdates F ids n) = nid n.
Proof.
  intros HF. unfold applyUpdates. revert n.
  induction ids as [| i ids IH]; intros n; simpl; [reflexivity |].
  rewrite IH. destruct (nid n =? i); [apply HF | reflexivity].
Qed.

Lemma applyUpdates_miss (F : Node -> Node) (ids : list nat) (n : Node) :
  ~ In (nid n) ids -> applyUpdates F ids n = n.
Proof.
  unfold applyUpdates. induction ids as [| i ids IH]; intros H; simpl;
    [reflexivity |].
  destruct (Nat.eqb_spec (nid n) i) as [E | _].
  - exfalso. apply H. now left.
  - apply IH. intros Hin. apply H. now right.
Qed.

Lemma applyUpdates_hit (F : Node -> Node) (ids : list nat) (n : Node) :
  (forall m, nid (F m) = nid m) ->
  NoDup ids -> In (nid n) ids -> applyUpdates F ids n = F n.
Proof.
  intros HF. induction ids as [| i ids IH]; intros Hnd Hin; [destruct Hin |].
  apply NoDup_cons_iff in Hnd as [Hi Hnd].
  unfold applyUpdates. simpl.
  destruct (Nat.eqb_spec (nid n) i) as [E | Hne].
  - apply (applyUpdates_miss F ids (F n)). rewrite HF, E. exact Hi.
  - destruct Hin as [E | Hin]; [now symmetry in E |]. now apply IH.
Qed.

Lemma updates_graph (F : Node -> Node) (ids : list nat) (g : Graph) :
  fold_left (fun g i => updateNode i F g) ids g
  = mkGraph (map (applyUpdates F ids) (nodes g)) (edges g).
Proof.
  revert g. induction ids as [| i ids IH]; intros g; simpl.
  - destruct g as [ns es]. simpl. f_equal.
    induction ns as [| n ns IHn]; simpl; [reflexivity | now rewrite <- IHn].
  - rewrite IH. unfold updateNode. cbn [nodes edges]. now rewrite map_map.
Qed.

Lemma fold_rows_as_ids {E : Type} (H : E -> Node -> Node) (e : E)
  (ids : list nat) (g : Graph) :
  fold_left (fun g (r : E * nat) => updateNode (snd r) (H (fst r)) g)
            (map (pair e) ids) g
  = fold_left (fun g i => updateNode i (H e) g) ids g.
Proof.
  revert g. induction ids as [| i ids IH]; intros g; simpl; [reflexivity |].
  apply IH.
Qed.

(** The ids of the nodes a pattern matches are pairwise distinct. *)
Lemma matched_ids_distinct (pattern : Node -> bool) (ns : list Node) :
  NoDup (map nid ns) -> NoDup (map nid (filter pattern ns)).
Proof.
  intros Hnd. induction ns as [| n ns IH]; simpl; [constructor |].
  simpl in Hnd. apply NoDup_cons_iff in Hnd as [Hn Hnd].
  destruct (pattern n); simpl; [| now apply IH].
  constructor; [| now apply IH].
  intros Hin. apply Hn. apply in_map_iff in Hin as [m [E Hm]].
  apply filter_In in Hm as [Hm _]. rewrite <- E. now apply in_map.
Qed.

Lemma freshId_above (g : Graph) (i : nat) :
  In i (map nid (nodes g)) -> i < freshId g.
Proof.
  unfold freshId. induction (map nid (nodes g)) as [| j l IH]; simpl;
    intros H; [destruct H |].
  destruct H as [-> | H]; [lia |]. specialize (IH H). lia.
Qed.

Lemma freshId_fresh (g : Graph) : ~ In (freshId g) (map nid (nodes g)).
Proof. intros H. apply freshId_above in H. lia. Qed.

(** The nodes a [SET] over the rows of a pattern [p] rewrites are the
    nodes the pattern matched, also after an earlier [SET] ([G]) that
    keeps the ids. *)
Lemma updates_on_matched (p : Node -> bool) (F G : Node -> Node) (l : list Node) :
  (forall m, nid (F m) = nid m) ->
  (forall m, nid (G m) = nid m) ->
  NoDup (map nid l) ->
  map (applyUpdates F (map nid (filter p l))) (map G l)
  = map (fun n => if p n then F (G n) else G n) l.
Proof.
  intros HF HG Hnd. rewrite map_map. apply map_ext_in. intros n Hn.
  destruct (p n) eqn:E.
  - apply applyUpdates_hit; [assumption | now apply matched_ids_distinct |].
    rewrite HG. apply in_map. apply filter_In. now split.
  - apply applyUpdates_miss. rewrite HG. intros Hin.
    apply in_map_iff in Hin as [m [Em Hm]]. apply filter_In in Hm as [Hm Hp].
    assert (m = n) by (now apply (nid_inj l)). subst m. congruence.
Qed.

Lemma filter_map_matched (p : Node -> bool) (F : Node -> Node) (l : list Node) :
  (forall m, p m = true -> p (F m) = true) ->
  filter p (map (fun n => if p n then F n else n) l) = map F (filter p l).
Proof.
  intros HF. induction l as [| n l IH]; simpl; [reflexivity |].
  destruct (p n) eqn:E.
  - rewrite (HF n E). simpl. now rewrite IH.
  - rewrite E. exact IH.
Qed.

Lemma isMemory_stored (entity : Entity) (n : Node) :
  isMemory (e_name entity) n = true ->
  isMemory (e_name entity) (stored entity n) = true.
Proof.
  unfold isMemory, hasLabel, nameIs. intros H.
  apply andb_true_iff in H as [Hl _]. apply andb_true_iff. split.
  - unfold stored, addLabel. cbn [labels setEntity].
    destruct (includes (labels n) entityTypeLabel); [assumption |].
    apply includes_In. apply in_or_app. left. now apply includes_In.
  - unfold stored, addLabel. cbn [n_name setEntity]. apply String.eqb_refl.
Qed.

Lemma createEntitiesUpdate_single (entity : Entity) (g : Graph) :
  createEntitiesUpdate [entity] g
  = match matchMemory (e_name entity) g with
    | [] =>
        updateNode (freshId g) (addLabel entityTypeLabel)
          (updateNode (freshId g) (setEntity entity)
             (mkGraph (nodes g ++ [newMemory (freshId g) (e_name entity)])
                      (edges g)))
    | _ =>
        fold_left (fun g i => updateNode i (addLabel entityTypeLabel) g)
          (matchMemory (e_name entity) g)
          (fold_left (fun g i => updateNode i (setEntity entity) g)
             (matchMemory (e_name entity) g) g)
    end.
Proof.
  unfold createEntitiesUpdate, mergeAll, mergeMemory.
  destruct (matchMemory (e_name entity) g) as [| i ids]; [reflexivity |].
  rewrite app_nil_r.
  rewrite (fold_rows_as_ids setEntity entity).
  rewrite (fold_rows_as_ids (fun _ => addLabel entityTypeLabel) entity).
  reflexivity.
Qed.

Lemma createEntity_existing (entity : Entity) (g : Graph) :
  NoDup (map nid (nodes g)) ->
  matchMemory (e_name entity) g <> [] ->
  createEntitiesUpdate [entity] g
  = mkGraph (map (fun n => if isMemory (e_name entity) n
                           then stored entity n else n) (nodes g))
            (edges g).
Proof.
  intros Hnd Hne. rewrite createEntitiesUpdate_single.
  destruct (matchMemory (e_name entity) g) as [| i ids] eqn:Em; [contradiction |].
  rewrite <- Em. clear Em Hne i ids.
  rewrite !updates_graph. cbn [nodes edges]. unfold matchMemory. f_equal.
  pose proof (updates_on_matched (isMemory (e_name entity)) (setEntity entity)
                (fun n => n) (nodes g)
                (fun m => eq_refl) (fun m => eq_refl) Hnd) as H1.
  rewrite map_id in H1. rewrite H1.
  rewrite (updates_on_matched _ (addLabel entityTypeLabel)); auto.
  - apply map_ext. intros n. destruct (isMemory (e_name entity) n); reflexivity.
  - intros m. destruct (isMemory (e_name entity) m); reflexivity.
Qed.

Lemma createEntity_fresh (entity : Entity) (g : Graph) :
  matchMemory (e_name entity) g = [] ->
  createEntitiesUpdate [entity] g
  = mkGraph (nodes g ++ [stored entity (newMemory (freshId g) (e_name entity))])
            (edges g).
Proof.
  intros Em. rewrite createEntitiesUpdate_single, Em.
  pose proof (freshId_fresh g) as Hfresh.
  set (f := freshId g) in *.
  assert (Hold : forall (F : Node -> Node) (l : list Node),
             (forall n, In n l -> In (nid n) (map nid (nodes g))) ->
             map (fun n => if nid n =? f then F n else n) l = l).
  { intros F l Hl. induction l as [| n l IH]; simpl; [reflexivity |].
    destruct (Nat.eqb_spec (nid n) f) as [E | _].
    - exfalso. apply Hfresh. rewrite <- E. apply Hl. now left.
    - f_equal. apply IH. intros n' Hn'. apply Hl. now right. }
  unfold updateNode. cbn [nodes edges].
  rewrite !map_app. cbn [map nid newMemory setEntity addLabel].
  rewrite !Nat.eqb_refl.
  rewrite (Hold (setEntity entity) (nodes g)) by (intros n Hn; now apply in_map).
  rewrite (Hold (addLabel entityTypeLabel) (nodes g))
    by (intros n Hn; now apply in_map).
  reflexivity.
Qed.

(** One call of [createEntities] with one entity: the entities of that
    name afterwards are the former ones rewritten, or a single new one. *)
Lemma createEntity_once (entity : Entity) (g : Graph) :
  NoDup (map nid (nodes g)) ->
  exists ms,
    length ms = Nat.max 1 (length (filter (isMemory (e_name entity)) (nodes g)))
    /\ filter (isMemory (e_name entity)) (nodes (createEntitiesUpdate [entity] g))
       = map (stored entity) ms
    /\ NoDup (map nid (nodes (createEntitiesUpdate [entity] g))).
Proof.
  intros Hnd.
  destruct (filter (isMemory (e_name entity)) (nodes g)) as [| m0 ms0] eqn:Ef.
  - rewrite createEntity_fresh by (unfold matchMemory; now rewrite Ef).
    exists [newMemory (freshId g) (e_name entity)]. cbn [nodes].
    split; [reflexivity | split].
    + rewrite filter_app, Ef. cbn [app filter map].
      rewrite isMemory_stored; [reflexivity |].
      unfold isMemory, nameIs, newMemory. cbn [n_name].
      rewrite String.eqb_refl. reflexivity.
    + rewrite map_app. apply NoDup_app;
        [assumption | constructor; [intros [] | constructor] |].
      intros a Ha [<- | []]. now apply (freshId_fresh g).
  - rewrite createEntity_existing;
      [| assumption | unfold matchMemory; rewrite Ef; discriminate].
    exists (m0 :: ms0). cbn [nodes].
    split; [cbn [length]; lia | split].
    + rewrite filter_map_matched by (apply isMemory_stored). now rewrite Ef.
    + rewrite map_map.
      erewrite map_ext; [exact Hnd |].
      intros n. destruct (isMemory (e_name entity) n); reflexivity.
Qed.

Lemma createEntities_twice (e1 e2 : Entity) (g : Graph) :
  NoDup (map nid (nodes g)) ->
  length (filter (isMemory (e_name e1)) (nodes g)) <= 1 ->
  e_name e2 = e_name e1 ->
  exists m,
    filter (isMemory (e_name e1))
           (nodes (createEntitiesUpdate [e2] (createEntitiesUpdate [e1] g)))
    = [m]
    /\ n_name m = Some (e_name e1)
    /\ n_type m = Some (e_type e2)
    /\ n_observations m = Some (e_observations e2).
Proof.
  intros Hnd Hcount Hname.
  destruct (createEntity_once e1 g Hnd) as [ms1 [Hlen1 [Hf1 Hnd1]]].
  destruct (createEntity_once e2 (createEntitiesUpdate [e1] g) Hnd1)
    as [ms2 [Hlen2 [Hf2 _]]].
  rewrite Hname in Hlen2, Hf2. rewrite Hf1, length_map in Hlen2.
  assert (Hone : length ms2 = 1) by lia.
  destruct ms2 as [| m [| m' ms2]]; try discriminate.
  exists (stored e2 m). split; [rewrite Hf2; reflexivity |].
  unfold stored, addLabel, setEntity. cbn. rewrite Hname. auto.
Qed.

(** *** The API-key server *)

Lemma find_app_in (l l' : list Node) (j : nat) :
  In j (map nid l) ->
  find (fun n => nid n =? j) (l ++ l') = find (fun n => nid n =? j) l.
Proof.
  induction l as [| n l IH]; simpl; intros H; [destruct H |].
  destruct (Nat.eqb_spec (nid n) j) as [E | Hne]; [reflexivity |].
  destruct H as [E | H]; [contradiction | now apply IH].
Qed.

Lemma find_app_notin (l l' : list Node) (j : nat) :
  ~ In j (map nid l) ->
  find (fun n => nid n =? j) (l ++ l') = find (fun n => nid n =? j) l'.
Proof.
  induction l as [| n l IH]; simpl; intros H; [reflexivity |].
  destruct (Nat.eqb_spec (nid n) j) as [E | Hne].
  - exfalso. apply H. now left.
  - apply IH. intros Hin. apply H. now right.
Qed.

Lemma find_map_id (H : Node -> Node) (l : list Node) (j : nat) :
  (forall n, nid (H n) = nid n) ->
  find (fun n => nid n =? j) (map H l)
  = option_map H (find (fun n => nid n =? j) l).
Proof.
  intros HH. induction l as [| n l IH]; simpl; [reflexivity |].
  rewrite HH. destruct (nid n =? j); [reflexivity | exact IH].
Qed.

Lemma flat_map_ext_in {A B : Type} (f g : A -> list B) (l : list A) :
  (forall x, In x l -> f x = g x) -> flat_map f l = flat_map g l.
Proof.
  induction l as [| x l IH]; intros H; simpl; [reflexivity |].
  rewrite (H x) by now left. f_equal. apply IH. intros y Hy. apply H. now right.
Qed.

Lemma observationsOf_ext (g g' : Graph) (x : nat) :
  edges g' = edges g ->
  (forall e, In e (edges g) ->
             ApiKeyServer.contentOf g' (tgt e) = ApiKeyServer.contentOf g (tgt e)) ->
  ApiKeyServer.observationsOf g' x = ApiKeyServer.observationsOf g x.
Proof.
  intros He Hc. unfold ApiKeyServer.observationsOf. rewrite He.
  apply flat_map_ext_in. intros e Hin.
  destruct ((src e =? x) && String.eqb (etype e) "HAS_OBSERVATION");
    [now apply Hc | reflexivity].
Qed.

Lemma wellFormed_add_node (g : Graph) (n : Node) :
  wellFormed g -> nid n = freshId g ->
  wellFormed (mkGraph (nodes g ++ [n]) (edges g)).
Proof.
  intros [Hnd Hed] Hn. split; cbn [nodes edges].
  - rewrite map_app. apply NoDup_app;
      [assumption | constructor; [intros [] | constructor] |].
    intros a Ha [<- | []]. rewrite Hn in Ha. now apply (freshId_fresh g).
  - intros e He. destruct (Hed e He) as [H1 H2].
    rewrite map_app. split; apply in_or_app; now left.
Qed.

Lemma attachObservation_spec (now : nat) (c : string) (g : Graph) (e : nat) :
  wellFormed g -> In e (map nid (nodes g)) ->
  wellFormed (ApiKeyServer.attachObservation now c g e)
  /\ (forall s, filter (ApiKeyServer.isEntity s)
                       (nodes (ApiKeyServer.attachObservation now c g e))
                = filter (ApiKeyServer.isEntity s) (nodes g))
  /\ (forall x, ApiKeyServer.observationsOf (ApiKeyServer.attachObservation now c g e) x
                = ApiKeyServer.observationsOf g x ++ (if e =? x then [c] else [])).
Proof.
  intros Hwf He. pose proof Hwf as [Hnd Hed].
  unfold ApiKeyServer.attachObservation.
  set (o := freshId g).
  set (new := ApiKeyServer.newObservation now o c).
  split; [| split].
  - split; cbn [nodes edges].
    + apply (wellFormed_add_node g new Hwf). reflexivity.
    + intros r Hr. rewrite map_app. apply in_app_or in Hr as [Hr | [<- | []]].
      * destruct (Hed r Hr). split; apply in_or_app; now left.
      * cbn [src tgt]. split; apply in_or_app; [now left | right; now left].
  - intros s. cbn [nodes]. rewrite filter_app. cbn [filter].
    assert (E : ApiKeyServer.isEntity s new = false) by reflexivity.
    rewrite E. apply app_nil_r.
  - intros x. unfold ApiKeyServer.observationsOf. cbn [edges].
    rewrite flat_map_app. f_equal.
    + apply flat_map_ext_in. intros r Hr.
      destruct ((src r =? x) && String.eqb (etype r) "HAS_OBSERVATION");
        [| reflexivity].
      unfold ApiKeyServer.contentOf, findNode. cbn [nodes].
      rewrite find_app_in; [reflexivity | apply (Hed r Hr)].
    + cbn [flat_map src etype tgt]. rewrite app_nil_r.
      change (String.eqb "HAS_OBSERVATION" "HAS_OBSERVATION") with true.
      rewrite andb_true_r. destruct (e =? x); [| reflexivity].
      unfold ApiKeyServer.contentOf, findNode. cbn [nodes].
      rewrite find_app_notin by (apply freshId_fresh).
      cbn [find nid new ApiKeyServer.newObservation]. rewrite Nat.eqb_refl.
      reflexivity.
Qed.

Lemma attachAll_spec (now : nat) (nm : string) (obs : list string) (g : Graph)
  (e : nat) :
  wellFormed g -> ApiKeyServer.matchEntity nm g = [e] ->
  let g' := fold_left (fun g c => ApiKeyServer.createObservationUpdate now nm c g)
                      obs g in
  wellFormed g'
  /\ (forall s, filter (ApiKeyServer.isEntity s) (nodes g')
                = filter (ApiKeyServer.isEntity s) (nodes g))
  /\ ApiKeyServer.observationsOf g' e = ApiKeyServer.observationsOf g e ++ obs.
Proof.
  revert g. induction obs as [| c obs IH]; intros g Hwf Hm; cbn [fold_left].
  - split; [assumption | split; [reflexivity | now rewrite app_nil_r]].
  - assert (He : In e (map nid (nodes g))).
    { unfold ApiKeyServer.matchEntity in Hm.
      assert (Hin : In e (map nid (filter (ApiKeyServer.isEntity nm) (nodes g))))
        by (rewrite Hm; now left).
      apply in_map_iff in Hin as [m [<- Hin]]. apply filter_In in Hin as [Hin _].
      now apply in_map. }
    assert (Hstep : ApiKeyServer.createObservationUpdate now nm c g
                    = ApiKeyServer.attachObservation now c g e).
    { unfold ApiKeyServer.createObservationUpdate. rewrite Hm. reflexivity. }
    destruct (attachObservation_spec now c g e Hwf He) as [Hwf1 [Hf1 Ho1]].
    rewrite Hstep.
    destruct (IH (ApiKeyServer.attachObservation now c g e) Hwf1) as [Hwf2 [Hf2 Ho2]].
    { unfold ApiKeyServer.matchEntity. rewrite Hf1. exact Hm. }
    split; [assumption | split].
    + intros s. now rewrite Hf2, Hf1.
    + rewrite Ho2, Ho1, Nat.eqb_refl, <- app_assoc. reflexivity.
Qed.

Lemma map_update_fresh (F : Node -> Node) (f : nat) (l : list Node) :
  ~ In f (map nid l) ->
  map (fun n => if nid n =? f then F n else n) l = l.
Proof.
  induction l as [| n l IH]; simpl; intros H; [reflexivity |].
  destruct (Nat.eqb_spec (nid n) f) as [E | _].
  - exfalso. apply H. now left.
  - f_equal. apply IH. intros Hin. apply H. now right.
Qed.

Lemma isEntity_setType (now : nat) (t s : string) (n : Node) :
  ApiKeyServer.isEntity s (ApiKeyServer.setType now t n) = ApiKeyServer.isEntity s n.
Proof. reflexivity. Qed.

Lemma mergeEntity_existing (now : nat) (i : ApiKeyServer.EntityInput) (g : Graph) :
  NoDup (map nid (nodes g)) ->
  ApiKeyServer.matchEntity (ApiKeyServer.name i) g <> [] ->
  ApiKeyServer.mergeEntityUpdate now i g
  = mkGraph (map (fun n => if ApiKeyServer.isEntity (ApiKeyServer.name i) n
                           then ApiKeyServer.setType now (ApiKeyServer.type i) n
                           else n) (nodes g))
            (edges g).
Proof.
  intros Hnd Hne. unfold ApiKeyServer.mergeEntityUpdate.
  destruct (ApiKeyServer.matchEntity (ApiKeyServer.name i) g) as [| j ids] eqn:Em;
    [contradiction |].
  rewrite <- Em. clear Em Hne j ids.
  rewrite updates_graph. unfold ApiKeyServer.matchEntity. f_equal.
  pose proof (updates_on_matched (ApiKeyServer.isEntity (ApiKeyServer.name i))
                (ApiKeyServer.setType now (ApiKeyServer.type i))
                (fun n => n) (nodes g)
                (fun m => eq_refl) (fun m => eq_refl) Hnd) as H1.
  rewrite map_id in H1. exact H1.
Qed.

Lemma mergeEntity_fresh (now : nat) (i : ApiKeyServer.EntityInput) (g : Graph) :
  ApiKeyServer.matchEntity (ApiKeyServer.name i) g = [] ->
  ApiKeyServer.mergeEntityUpdate now i g
  = mkGraph (nodes g
             ++ [ApiKeyServer.setType now (ApiKeyServer.type i)
                   (ApiKeyServer.newEntity (freshId g) (ApiKeyServer.name i))])
            (edges g).
Proof.
  intros Em. unfold ApiKeyServer.mergeEntityUpdate. rewrite Em.
  cbn [fold_left]. unfold updateNode. cbn [nodes edges].
  rewrite map_app. cbn [map nid ApiKeyServer.newEntity]. rewrite Nat.eqb_refl.
  rewrite map_update_fresh by (apply freshId_fresh). reflexivity.
Qed.

Lemma contentOf_map (H : Node -> Node) (g : Graph) (es : list Edge) (j : nat) :
  (forall n, nid (H n) = nid n) ->
  (forall n, labels (H n) = labels n) ->
  (forall n, n_content (H n) = n_content n) ->
  ApiKeyServer.contentOf (mkGraph (map H (nodes g)) es) j = ApiKeyServer.contentOf g j.
Proof.
  intros H1 H2 H3. unfold ApiKeyServer.contentOf, findNode. cbn [nodes].
  rewrite find_map_id by assumption.
  destruct (find (fun n => nid n =? j) (nodes g)) as [n |]; [| reflexivity].
  cbn [option_map]. unfold hasLabel. now rewrite H2, H3.
Qed.

(** One call of [create_entities] with one entity, on the graph. *)
Lemma apikey_create_once (now : nat) (i : ApiKeyServer.EntityInput) (g : Graph) :
  wellFormed g ->
  length (filter (ApiKeyServer.isEntity (ApiKeyServer.name i)) (nodes g)) <= 1 ->
  let g' := fold_left
              (fun g c => ApiKeyServer.createObservationUpdate now (ApiKeyServer.name i) c g)
              (coalesce (ApiKeyServer.observations i))
              (ApiKeyServer.mergeEntityUpdate now i g) in
  wellFormed g'
  /\ exists m,
      filter (ApiKeyServer.isEntity (ApiKeyServer.name i)) (nodes g') = [m]
      /\ n_type m = Some (ApiKeyServer.type i)
      /\ ApiKeyServer.observationsOf g' (nid m)
         = ApiKeyServer.observationsOf g (nid m)
           ++ coalesce (ApiKeyServer.observations i)
      /\ (forall m0,
             In m0 (filter (ApiKeyServer.isEntity (ApiKeyServer.name i)) (nodes g)) ->
             nid m = nid m0).
Proof.
  intros Hwf Hcount. pose proof Hwf as [Hnd Hed].
  set (nm := ApiKeyServer.name i) in *.
  set (t := ApiKeyServer.type i).
  destruct (filter (ApiKeyServer.isEntity nm) (nodes g)) as [| m0 [| m1 ms]] eqn:Ef;
    [| | cbn in Hcount; lia].
  - (* absent: MERGE creates the entity *)
    assert (Em : ApiKeyServer.matchEntity nm g = [])
      by (unfold ApiKeyServer.matchEntity; now rewrite Ef).
    rewrite (mergeEntity_fresh now i g Em). fold nm t.
    set (new := ApiKeyServer.setType now t (ApiKeyServer.newEntity (freshId g) nm)).
    set (g1 := mkGraph (nodes g ++ [new]) (edges g)).
    assert (Hwf1 : wellFormed g1) by (now apply wellFormed_add_node).
    assert (Hnew : ApiKeyServer.isEntity nm new = true).
    { unfold ApiKeyServer.isEntity, nameIs, new. cbn [n_name ApiKeyServer.setType
        ApiKeyServer.newEntity]. rewrite String.eqb_refl. reflexivity. }
    assert (Hf1 : filter (ApiKeyServer.isEntity nm) (nodes g1) = [new]).
    { unfold g1. cbn [nodes]. rewrite filter_app, Ef. cbn [app filter].
      now rewrite Hnew. }
    assert (Hm1 : ApiKeyServer.matchEntity nm g1 = [freshId g])
      by (unfold ApiKeyServer.matchEntity; now rewrite Hf1).
    destruct (attachAll_spec now nm (coalesce (ApiKeyServer.observations i))
                g1 (freshId g) Hwf1 Hm1) as [Hwf2 [Hf2 Ho2]].
    cbv zeta. split; [exact Hwf2 |]. exists new.
    split; [now rewrite Hf2 | split; [reflexivity | split; [| intros m0 []]]].
    change (nid new) with (freshId g). rewrite Ho2. f_equal.
    apply observationsOf_ext; [reflexivity |].
    intros e He. unfold ApiKeyServer.contentOf, findNode, g1. cbn [nodes].
    rewrite find_app_in; [reflexivity | apply (Hed e He)].
  - (* present: MERGE binds it and SET rewrites its type *)
    assert (Em : ApiKeyServer.matchEntity nm g = [nid m0])
      by (unfold ApiKeyServer.matchEntity; now rewrite Ef).
    rewrite (mergeEntity_existing now i g Hnd)
      by (fold nm; rewrite Em; discriminate).
    fold nm t.
    set (H := fun n => if ApiKeyServer.isEntity nm n
                       then ApiKeyServer.setType now t n else n).
    set (g1 := mkGraph (map H (nodes g)) (edges g)).
    assert (HH : forall n, nid (H n) = nid n)
      by (intros n; unfold H; destruct (ApiKeyServer.isEntity nm n); reflexivity).
    assert (Hids : map nid (nodes g1) = map nid (nodes g)).
    { unfold g1. cbn [nodes]. rewrite map_map. apply map_ext. exact HH. }
    assert (Hwf1 : wellFormed g1).
    { split; [now rewrite Hids |]. intros e He. rewrite Hids. now apply Hed. }
    assert (Hf1 : filter (ApiKeyServer.isEntity nm) (nodes g1)
                  = [ApiKeyServer.setType now t m0]).
    { unfold g1, H. cbn [nodes]. rewrite filter_map_matched, Ef; [reflexivity |].
      intros m Hm. now rewrite isEntity_setType. }
    assert (Hm1 : ApiKeyServer.matchEntity nm g1 = [nid m0])
      by (unfold ApiKeyServer.matchEntity; now rewrite Hf1).
    destruct (attachAll_spec now nm (coalesce (ApiKeyServer.observations i))
                g1 (nid m0) Hwf1 Hm1) as [Hwf2 [Hf2 Ho2]].
    cbv zeta. split; [exact Hwf2 |]. exists (ApiKeyServer.setType now t m0).
    split; [now rewrite Hf2 | split; [reflexivity | split]].
    + change (nid (ApiKeyServer.setType now t m0)) with (nid m0).
      rewrite Ho2. f_equal.
      apply observationsOf_ext; [reflexivity |].
      intros e He. unfold g1. apply contentOf_map; [exact HH | |];
        intros n; unfold H; destruct (ApiKeyServer.isEntity nm n); reflexivity.
    + intros m [<- | []]. reflexivity.
Qed.

Lemma graph_createObservationSteps (now : nat) (nm : string) (obs : list string)
  (st : Store) :
  graph (fold_left (ApiKeyServer.createObservationStep now nm) obs st)
  = fold_left (fun g c => ApiKeyServer.createObservationUpdate now nm c g)
              obs (graph st).
Proof.
  revert st. induction obs as [| c obs IH]; intros st; simpl; [reflexivity |].
  now rewrite IH.
Qed.

Lemma create_entities_graph (now : nat) (i : ApiKeyServer.EntityInput)
  (session : ApiKeyServer.ApiKeyAuthSession) (st : Store) :
  ApiKeyServer.hasPermission session "mcp:write" = true ->
  graph (snd (ApiKeyServer.create_entities now [i] session st))
  = fold_left
      (fun g c => ApiKeyServer.createObservationUpdate now (ApiKeyServer.name i) c g)
      (coalesce (ApiKeyServer.observations i))
      (ApiKeyServer.mergeEntityUpdate now i (graph st)).
Proof.
  intros Hp. unfold ApiKeyServer.create_entities, ApiKeyServer.requirePermission.
  rewrite Hp. cbn [negb fold_left ApiKeyServer.createEntityStep].
  destruct (ApiKeyServer.observations i) as [obs |];
    cbn [snd closeSession record graph coalesce fold_left].
  - now rewrite graph_createObservationSteps.
  - reflexivity.
Qed.

(** C6 (as the code has it).  Creating an entity of the same name twice,
    with the same or another type, leaves exactly one entity record of
    that name, and it carries the type of the second call.  With
    [createEntities] of the client the observations of the record are
    then the list supplied with the second call: the former ones are
    replaced.  With [create_entities] of the API-key server the
    observations the entity had stay, and every observation supplied is
    appended after them, whether the entity already has it or not. *)
Theorem C6_create_entities_twice :
  (forall (e1 e2 : Entity) (st : Store),
      NoDup (map nid (nodes (graph st))) ->
      length (filter (isMemory (e_name e1)) (nodes (graph st))) <= 1 ->
      e_name e2 = e_name e1 ->
      let st2 := snd (createEntities [e2] (snd (createEntities [e1] st))) in
      exists m,
        filter (isMemory (e_name e1)) (nodes (graph st2)) = [m]
        /\ n_name m = Some (e_name e1)
        /\ n_type m = Some (e_type e2)
        /\ n_observations m = Some (e_observations e2))
  /\ (forall (now1 now2 : nat) (i1 i2 : ApiKeyServer.EntityInput)
             (session : ApiKeyServer.ApiKeyAuthSession) (st : Store),
         wellFormed (graph st) ->
         length (filter (ApiKeyServer.isEntity (ApiKeyServer.name i1))
                        (nodes (graph st))) <= 1 ->
         ApiKeyServer.name i2 = ApiKeyServer.name i1 ->
         ApiKeyServer.hasPermission session "mcp:write" = true ->
         let st1 := snd (ApiKeyServer.create_entities now1 [i1] session st) in
         let st2 := snd (ApiKeyServer.create_entities now2 [i2] session st1) in
         exists m,
           filter (ApiKeyServer.isEntity (ApiKeyServer.name i1)) (nodes (graph st2))
           = [m]
           /\ n_type m = Some (ApiKeyServer.type i2)
           /\ ApiKeyServer.observationsOf (graph st2) (nid m)
              = ApiKeyServer.observationsOf (graph st1) (nid m)
                ++ coalesce (ApiKeyServer.observations i2)
           /\ ApiKeyServer.observationsOf (graph st1) (nid m)
              = ApiKeyServer.observationsOf (graph st) (nid m)
                ++ coalesce (ApiKeyServer.observations i1)).
Proof.
  split.
  - intros e1 e2 st Hnd Hcount Hname. cbv zeta.
    change (graph (snd (createEntities [e2] (snd (createEntities [e1] st)))))
      with (createEntitiesUpdate [e2] (createEntitiesUpdate [e1] (graph st))).
    now apply createEntities_twice.
  - intros now1 now2 i1 i2 session st Hwf Hcount Hname Hp. cbv zeta.
    rewrite (create_entities_graph now2 i2 session _ Hp).
    rewrite (create_entities_graph now1 i1 session st Hp).
    destruct (apikey_create_once now1 i1 (graph st) Hwf Hcount)
      as [Hwf1 [m1 [Hf1 [_ [Ho1 _]]]]].
    set (g1 := fold_left
                 (fun g c => ApiKeyServer.createObservationUpdate now1
                               (ApiKeyServer.name i1) c g)
                 (coalesce (ApiKeyServer.observations i1))
                 (ApiKeyServer.mergeEntityUpdate now1 i1 (graph st))) in *.
    assert (Hcount1 : length (filter (ApiKeyServer.isEntity (ApiKeyServer.name i2))
                                     (nodes g1)) <= 1)
      by (rewrite Hname, Hf1; cbn; lia).
    destruct (apikey_create_once now2 i2 g1 Hwf1 Hcount1)
      as [_ [m2 [Hf2 [Ht2 [Ho2 Hid]]]]].
    rewrite Hname, Hf1 in Hid.
    exists m2. split; [| split; [exact Ht2 | split; [exact Ho2 |]]].
    + rewrite <- Hname. exact Hf2.
    + rewrite (Hid m1) by now left. exact Ho1.
Qed.

Lemma C6_create_entities_twice_witness :
  (exists m,
      filter (isMemory "A")
             (nodes (graph (snd (createEntities [mkEntity "A" "U" ["o2"]]
                                   (snd (createEntities [mkEntity "A" "T" ["o1"]]
                                           (mkStore emptyGraph [] true))))))) = [m]
      /\ n_name m = Some "A"
      /\ n_type m = Some "U"
      /\ n_observations m = Some ["o2"])
  /\ (exists m,
         filter (ApiKeyServer.isEntity "A")
                (nodes (graph (snd (ApiKeyServer.create_entities 2
                                      [ApiKeyServer.mkEntityInput "A" "U" (Some ["x"])]
                                      (ApiKeyServer.mkApiKeyAuthSession true "k" ["mcp:write"] 0)
                                      (snd (ApiKeyServer.create_entities 1
                                              [ApiKeyServer.mkEntityInput "A" "T" (Some ["x"])]
                                              (ApiKeyServer.mkApiKeyAuthSession true "k" ["mcp:write"] 0)
                                              (mkStore emptyGraph [] true)))))))
         = [m]
         /\ n_type m = Some "U").
Proof.
  split.
  - apply (proj1 C6_create_entities_twice
             (mkEntity "A" "T" ["o1"]) (mkEntity "A" "U" ["o2"])
             (mkStore emptyGraph [] true)).
    + constructor.
    + cbn. lia.
    + reflexivity.
  - destruct (proj2 C6_create_entities_twice 1 2
                (ApiKeyServer.mkEntityInput "A" "T" (Some ["x"]))
                (ApiKeyServer.mkEntityInput "A" "U" (Some ["x"]))
                (ApiKeyServer.mkApiKeyAuthSession true "k" ["mcp:write"] 0)
                (mkStore emptyGraph [] true))
      as [m [Hf [Ht _]]].
    + split; [constructor | intros e []].
    + cbn. lia.
    + reflexivity.
    + reflexivity.
    + exists m. split; assumption.
Defined.

(** C6 as stated fails on both handlers.  The client replaces the
    observations of an entity that exists already, and the API-key server
    appends an observation the entity already has. *)
Lemma C6_counterexample :
  map n_observations
      (nodes (graph (snd (createEntities [mkEntity "A" "U" ["o2"]]
                            (snd (createEntities [mkEntity "A" "T" ["o1"]]
                                    (mkStore emptyGraph [] true)))))))
  = [Some ["o2"]]
  /\ ApiKeyServer.observationsOf
       (graph (snd (ApiKeyServer.create_entities 2
                      [ApiKeyServer.mkEntityInput "A" "U" (Some ["x"])]
                      (ApiKeyServer.mkApiKeyAuthSession true "k" ["mcp:write"] 0)
                      (snd (ApiKeyServer.create_entities 1
                              [ApiKeyServer.mkEntityInput "A" "T" (Some ["x"])]
                              (ApiKeyServer.mkApiKeyAuthSession true "k" ["mcp:write"] 0)
                              (mkStore emptyGraph [] true))))))
       1
     = ["x"; "x"].
Proof. split; reflexivity. Qed.

(* ===================================================================== *)
(** * Further properties of the code *)
(* ===================================================================== *)

(** ** The OAuth provider and the server built on it *)

Lemma length_mapString (f : ascii -> ascii) (s : string) :
  String.length (mapString f s) = String.length s.
Proof. induction s as [| c s IH]; simpl; [reflexivity | now rewrite IH]. Qed.

Lemma substring_prefix (a b : string) :
  substring 0 (String.length a) (a ++ b) = a.
Proof. induction a as [| c a IH]; simpl; [now destruct b | now rewrite IH]. Qed.

Lemma slice_prefix (a b : string) : slice (String.length a) (a ++ b)%string = b.
Proof. induction a as [| c a IH]; simpl; [reflexivity | exact IH]. Qed.

Lemma spanLength_run (ws t : string) :
  allChars isWhiteSpace ws = true ->
  match t with String c _ => isWhiteSpace c = false | EmptyString => True end ->
  spanLength isWhiteSpace (ws ++ t) = String.length ws.
Proof.
  intros Hws Ht. induction ws as [| c ws IH]; simpl.
  - destruct t as [| c t]; simpl; [reflexivity | now rewrite Ht].
  - simpl in Hws. apply andb_true_iff in Hws as [Hc Hws]. rewrite Hc.
    now rewrite IH.
Qed.

Lemma tryCapture_nonempty (j : nat) (rest token : string) :
  OAuth.tryCapture j rest = Some token -> token <> "".
Proof.
  induction j as [| j IH]; cbn [OAuth.tryCapture]; [discriminate |].
  destruct (negb (String.eqb (slice (S j) rest) "")
            && allChars (fun c => negb (isLineTerminator c)) (slice (S j) rest))
    eqn:E; [| exact IH].
  intros H. injection H as <-. apply andb_true_iff in E as [E _].
  apply negb_true_iff in E. now apply String.eqb_neq in E.
Qed.

Lemma extractToken_nonempty (request : Request) (token : string) :
  OAuth.extractTokenFromRequest request = Some token -> token <> "".
Proof.
  unfold OAuth.extractTokenFromRequest, OAuth.matchBearer.
  destruct (authorization request) as [[| c h] |]; cbn [truthy negb];
    try discriminate.
  destruct (String.eqb (toLowerCase (substring 0 6 (String c h))) "bearer").
  - destruct (OAuth.tryCapture _ _) as [tok |] eqn:E; intros H; injection H as <-.
    + now apply tryCapture_nonempty in E.
    + discriminate.
  - intros H. injection H as <-. discriminate.
Qed.

(** X1.  A header made of the scheme [Bearer] in any letter case, a
    non-empty run of white space and a token gives back that token,
    provided the token is not empty, does not start with white space and
    has no line terminator. *)
Theorem X1_bearer_token_round_trip :
  forall (scheme ws token : string) (key : option string),
    toLowerCase scheme = "bearer" ->
    ws <> "" -> allChars isWhiteSpace ws = true ->
    token <> "" ->
    match token with String c _ => isWhiteSpace c = false | EmptyString => True end ->
    allChars (fun c => negb (isLineTerminator c)) token = true ->
    OAuth.extractTokenFromRequest
      (mkRequest (Some (scheme ++ ws ++ token)%string) key)
    = Some token.
Proof.
  intros scheme ws token key Hscheme Hws1 Hws2 Htok1 Htok2 Htok3.
  assert (Hlen : String.length scheme = 6).
  { unfold toLowerCase in Hscheme.
    rewrite <- (length_mapString lowerChar scheme), Hscheme. reflexivity. }
  unfold OAuth.extractTokenFromRequest. cbn [authorization].
  assert (Htruthy : truthy (Some (scheme ++ ws ++ token)%string) = true).
  { destruct scheme as [| c scheme]; [discriminate | reflexivity]. }
  rewrite Htruthy. cbn [negb]. unfold OAuth.matchBearer.
  rewrite <- Hlen at 1. rewrite substring_prefix, Hscheme.
  change (String.eqb "bearer" "bearer") with true. cbv iota zeta.
  rewrite <- Hlen. rewrite slice_prefix.
  rewrite spanLength_run by assumption.
  destruct ws as [| w ws]; [contradiction |].
  cbn [String.length OAuth.tryCapture].
  change (S (String.length ws)) with (String.length (String w ws)).
  rewrite slice_prefix, Htok3.
  destruct token as [| c token]; [contradiction |]. reflexivity.
Qed.

Lemma X1_bearer_token_round_trip_witness :
  OAuth.extractTokenFromRequest (mkRequest (Some "bEaReR  abc.def") None)
  = Some "abc.def".
Proof.
  apply (X1_bearer_token_round_trip "bEaReR" "  " "abc.def" None);
    try reflexivity; discriminate.
Defined.

Lemma oauth_accepted (jwtVerify : string -> AuthSession + string) (now : nat)
  (request : Request) (session : AuthSession) :
  OAuth.authenticateRequest jwtVerify now request = Ok session ->
  exists token,
    OAuth.extractTokenFromRequest request = Some token
    /\ jwtVerify token = inl session
    /\ forall e, exp session = Some e -> now < e * 1000.
Proof.
  unfold OAuth.authenticateRequest, OAuth.verifyAndCheckExpiry, OAuth.verifyJWT.
  destruct (OAuth.extractTokenFromRequest request) as [token |];
    [| now destruct (negb (truthy None))].
  destruct (negb (truthy (Some token))); [discriminate |].
  destruct (jwtVerify token) as [s | message] eqn:Hjwt; [| discriminate].
  destruct (OAuth.expired now s) eqn:E; [discriminate |].
  intros H. injection H as <-. exists token.
  pose proof (proj1 (expired_spec now s) E) as Hexp.
  repeat split; assumption.
Qed.

Lemma oauth_accepts (jwtVerify : string -> AuthSession + string) (now : nat)
  (request : Request) (token : string) (session : AuthSession) :
  OAuth.extractTokenFromRequest request = Some token ->
  jwtVerify token = inl session ->
  (forall e, exp session = Some e -> now < e * 1000) ->
  OAuth.authenticateRequest jwtVerify now request = Ok session.
Proof.
  intros Htok Hjwt Hexp.
  unfold OAuth.authenticateRequest, OAuth.verifyAndCheckExpiry, OAuth.verifyJWT.
  rewrite Htok.
  assert (Ht : truthy (Some token) = true).
  { apply extractToken_nonempty in Htok. destruct token; [contradiction | reflexivity]. }
  rewrite Ht, Hjwt. cbn [negb].
  now rewrite (proj2 (expired_spec now session) Hexp).
Qed.

(** X2.  [authenticateRequest] of the OAuth provider returns a session
    exactly when the request carries a token that [jwt.verify] decodes to
    that session and that has not expired: the [exp] of the payload, when
    it has one, lies after the current time in milliseconds.  A verified
    payload without [exp] is never taken as expired, so such a token is
    accepted at any time.  Whatever else happens the function throws one of
    two responses with status 401; in particular an expired token is
    answered with "Invalid or expired token", never with "Token expired". *)
Theorem X2_oauth_authenticate_outcomes :
  forall (jwtVerify : string -> AuthSession + string) (now : nat)
         (request : Request),
    (forall session,
        OAuth.authenticateRequest jwtVerify now request = Ok session
        <-> exists token,
            OAuth.extractTokenFromRequest request = Some token
            /\ jwtVerify token = inl session
            /\ forall e, exp session = Some e -> now < e * 1000)
    /\ (forall token session,
           OAuth.extractTokenFromRequest request = Some token ->
           jwtVerify token = inl session -> exp session = None ->
           OAuth.authenticateRequest jwtVerify now request = Ok session)
    /\ (forall thrown,
          OAuth.authenticateRequest jwtVerify now request = Throw thrown ->
          (thrown = ThrownResponse OAuth.missingToken
           /\ OAuth.extractTokenFromRequest request = None)
          \/ (thrown = ThrownResponse OAuth.invalidOrExpired
              /\ exists token,
                  OAuth.extractTokenFromRequest request = Some token
                  /\ (forall session,
                         jwtVerify token = inl session ->
                         exists e, exp session = Some e /\ e * 1000 <= now))).
Proof.
  intros jwtVerify now request. split; [| split].
  - intros session. split.
    + apply oauth_accepted.
    + intros (token & H1 & H2 & H3). now apply (oauth_accepts _ _ _ token).
  - intros token session H1 H2 H3. apply (oauth_accepts _ _ _ token); try assumption.
    intros e He. congruence.
  - intros thrown.
    unfold OAuth.authenticateRequest, OAuth.verifyAndCheckExpiry, OAuth.verifyJWT.
    destruct (OAuth.extractTokenFromRequest request) as [token |] eqn:Htok.
    + assert (Ht : truthy (Some token) = true).
      { apply extractToken_nonempty in Htok.
        destruct token; [contradiction | reflexivity]. }
      rewrite Ht. cbn [negb].
      destruct (jwtVerify token) as [s | message] eqn:Hjwt.
      * destruct (OAuth.expired now s) eqn:E; [| discriminate].
        cbv beta iota. intros H. injection H as <-. right. split; [reflexivity |].
        exists token. split; [reflexivity |].
        intros s' Hs'. rewrite Hjwt in Hs'. injection Hs' as <-.
        unfold OAuth.expired in E. destruct (exp s) as [e |]; [| discriminate].
        exists e. split; [reflexivity | now apply Nat.leb_le].
      * intros H. injection H as <-. right. split; [reflexivity |].
        exists token. split; [reflexivity |]. intros s' Hs'.
        rewrite Hjwt in Hs'. discriminate.
    + cbn [truthy negb]. intros H. injection H as <-. left. now split.
Qed.

Lemma X2_oauth_authenticate_outcomes_witness :
  OAuth.authenticateRequest
    (fun t => inl (mkAuthSession t None ["read"] "Bearer" 0 None)) 5
    (mkRequest (Some "Bearer abc") None)
  = Ok (mkAuthSession "abc" None ["read"] "Bearer" 0 None).
Proof.
  apply (proj1 (proj2 (X2_oauth_authenticate_outcomes
                         (fun t => inl (mkAuthSession t None ["read"] "Bearer" 0 None))
                         5 (mkRequest (Some "Bearer abc") None)))
               "abc");
    reflexivity.
Defined.

(** X3.  Through the server of [src/server.ts] a request gets a payload
    back, or changes anything in the store (the graph or the log of the
    driver), only if it carries a token that [jwt.verify] accepts, that has
    not expired, and whose session holds the scope of the tool or
    ["admin"]. *)
Theorem X3_server_acts_only_when_authorised :
  forall (queryNodes : string -> Node -> bool)
         (jwtVerify : string -> AuthSession + string) (now : nat)
         (request : Request) (call : Server.ToolCall) (st st' : Store)
         (result : Result Server.Payload),
    Server.handle queryNodes jwtVerify now request call st = (result, st') ->
    (st' <> st \/ exists payload, result = Ok payload) ->
    exists token session,
      OAuth.extractTokenFromRequest request = Some token
      /\ jwtVerify token = inl session
      /\ (forall e, exp session = Some e -> now < e * 1000)
      /\ (In (Server.requiredScope call) (scopes session)
          \/ In "admin" (scopes session)).
Proof.
  intros queryNodes jwtVerify now request call st st' result Hrun Hacts.
  unfold Server.handle, FastMCP.serve in Hrun.
  destruct (OAuth.authenticateRequest jwtVerify now request) as [session | t] eqn:Ha.
  - destruct (oauth_accepted _ _ _ _ Ha) as (token & H1 & H2 & H3).
    exists token, session. repeat split; try assumption.
    apply hasScope_spec.
    destruct (OAuth.hasScope session (Server.requiredScope call)) eqn:Hs;
      [reflexivity |].
    rewrite (guarded_denied queryNodes call session st Hs) in Hrun.
    injection Hrun as <- <-.
    destruct Hacts as [Hne | [p Hp]]; [now contradiction Hne | discriminate].
  - injection Hrun as <- <-.
    destruct Hacts as [Hne | [p Hp]]; [now contradiction Hne | discriminate].
Qed.

Lemma X3_server_acts_only_when_authorised_witness :
  exists token session,
    OAuth.extractTokenFromRequest (mkRequest (Some "Bearer t1") None) = Some token
    /\ (fun t => if String.eqb t "t1"
                 then inl (mkAuthSession "u" (Some "u@x") ["read"] "Bearer" 0 (Some 2))
                 else inr "jwt malformed") token = inl session
    /\ (forall e, exp session = Some e -> 1500 < e * 1000)
    /\ (In (Server.requiredScope Server.read_graph) (scopes session)
        \/ In "admin" (scopes session)).
Proof.
  eapply (X3_server_acts_only_when_authorised
            (fun _ _ => true)
            (fun t => if String.eqb t "t1"
                      then inl (mkAuthSession "u" (Some "u@x") ["read"] "Bearer" 0 (Some 2))
                      else inr "jwt malformed")
            1500 (mkRequest (Some "Bearer t1") None) Server.read_graph
            (mkStore (mkGraph [] []) [] true)).
  - reflexivity.
  - right. eexists. reflexivity.
Defined.

(** X4.  For a session that holds the scope of the tool, [execute] of
    [src/server.ts] does to the store exactly what [execute] of
    [src/server-no-auth.ts] does, and returns the same payload, apart from
    the [session] member of the status of [health_check]. *)
Theorem X4_granted_call_runs_the_unguarded_tool :
  forall (queryNodes : string -> Node -> bool) (call : Server.ToolCall)
         (session : AuthSession) (st : Store),
    OAuth.hasScope session (Server.requiredScope call) = true ->
    exists payload,
      Server.execute queryNodes call (Some session) st
      = (Ok payload, snd (ServerNoAuth.execute queryNodes call st))
      /\ withoutSession payload
         = fst (ServerNoAuth.execute queryNodes call st).
Proof.
  intros queryNodes call session st H.
  destruct call as [es | rs | obs | ns | ds | rs | | q | ns |];
    cbn [Server.requiredScope] in H;
    unfold Server.execute, Server.guarded, ServerNoAuth.execute;
    rewrite H; cbn [negb].
  - destruct (createEntities es st). eexists; split; reflexivity.
  - destruct (createRelations rs st). eexists; split; reflexivity.
  - destruct (addObservations obs st). eexists; split; reflexivity.
  - eexists; split; reflexivity.
  - eexists; split; reflexivity.
  - eexists; split; reflexivity.
  - destruct (loadGraph queryNodes None st). eexists; split; reflexivity.
  - destruct (searchNodes queryNodes q st). eexists; split; reflexivity.
  - destruct (findNodes queryNodes ns st). eexists; split; reflexivity.
  - destruct (verifyConnection st). eexists; split; reflexivity.
Qed.

Lemma X4_granted_call_runs_the_unguarded_tool_witness :
  exists payload,
    Server.execute (fun _ _ => true) (Server.delete_entities ["A"])
      (Some (mkAuthSession "u" (Some "u@x") ["write"] "Bearer" 0 (Some 2)))
      (mkStore (mkGraph [] []) [] true)
    = (Ok payload,
       snd (ServerNoAuth.execute (fun _ _ => true) (Server.delete_entities ["A"])
              (mkStore (mkGraph [] []) [] true)))
    /\ withoutSession payload
       = fst (ServerNoAuth.execute (fun _ _ => true) (Server.delete_entities ["A"])
                (mkStore (mkGraph [] []) [] true)).
Proof.
  apply (X4_granted_call_runs_the_unguarded_tool (fun _ _ => true)
           (Server.delete_entities ["A"])
           (mkAuthSession "u" (Some "u@x") ["write"] "Bearer" 0 (Some 2))
           (mkStore (mkGraph [] []) [] true)).
  reflexivity.
Defined.

(** ** The client: relationships *)

Lemma filter_twice {A : Type} (p q : A -> bool) (l : list A) :
  filter p (filter q l) = filter (fun x => q x && p x) l.
Proof.
  induction l as [| x l IH]; cbn [filter]; [reflexivity |].
  destruct (q x); cbn [filter andb]; [| exact IH].
  destruct (p x); now rewrite IH.
Qed.

Lemma filter_all_true {A : Type} (p : A -> bool) (l : list A) :
  (forall x, In x l -> p x = true) -> filter p l = l.
Proof.
  induction l as [| x l IH]; intros H; cbn [filter]; [reflexivity |].
  rewrite (H x) by now left. rewrite IH; [reflexivity |].
  intros y Hy. apply H. now right.
Qed.

Lemma deleteRelationFold_spec (rs : list Relation) (g : Graph) :
  fold_left (fun g r => deleteRelationUpdate r g) rs g
  = mkGraph (nodes g)
            (filter (fun e => negb (existsb (fun r => linked r g e) rs)) (edges g)).
Proof.
  revert g. induction rs as [| r rs IH]; intros g; cbn [fold_left].
  - rewrite filter_all_true by reflexivity. now destruct g.
  - rewrite IH.
    assert (Hl : forall e, existsb (fun r' => linked r' (deleteRelationUpdate r g) e) rs
                           = existsb (fun r' => linked r' g e) rs).
    { intros e. clear IH.
      induction rs as [| r' rs IHrs]; cbn [existsb]; [reflexivity |].
      rewrite IHrs.
      now rewrite (linked_nodes r' g (deleteRelationUpdate r g) e). }
    rewrite (filter_ext _ (fun e => negb (existsb (fun r' => linked r' g e) rs)))
      by (intros e; now rewrite Hl).
    change (edges (deleteRelationUpdate r g))
      with (filter (fun e => negb (linked r g e)) (edges g)).
    rewrite filter_twice. cbn [nodes deleteRelationUpdate existsb]. f_equal.
    apply filter_ext. intros e. now rewrite negb_orb.
Qed.

Lemma graph_createRelations (rs : list Relation) (st : Store) :
  graph (snd (createRelations rs st))
  = fold_left (fun g r => createRelationUpdate r g) rs (graph st).
Proof.
  unfold createRelations. cbn [snd closeSession record graph].
  now rewrite graph_createRelationFold.
Qed.

Lemma graph_deleteRelations (rs : list Relation) (st : Store) :
  graph (deleteRelations rs st)
  = fold_left (fun g r => deleteRelationUpdate r g) rs (graph st).
Proof.
  unfold deleteRelations. cbn [closeSession record graph].
  now rewrite graph_deleteRelationFold.
Qed.

Lemma createRelationFold_present (rs : list Relation) (g : Graph) :
  (forall r i j, In r rs ->
                 In i (matchMemory (source r) g) ->
                 In j (matchMemory (target r) g) ->
                 In (mkEdge i j relationTypeName) (edges g)) ->
  fold_left (fun g r => createRelationUpdate r g) rs g = g.
Proof.
  induction rs as [| r rs IH]; intros H; cbn [fold_left]; [reflexivity |].
  rewrite createRelation_present by (intros i j; apply H; now left).
  apply IH. intros r' i j Hr'. apply H. now right.
Qed.

(** X5.  [createRelations] is idempotent: once a batch has been created,
    creating it again, or any relations of it, leaves the graph as it
    is. *)
Theorem X5_createRelations_idempotent :
  forall (rs again : list Relation) (st : Store),
    incl again rs ->
    graph (snd (createRelations again (snd (createRelations rs st))))
    = graph (snd (createRelations rs st)).
Proof.
  intros rs again st Hincl.
  rewrite (graph_createRelations again).
  rewrite (graph_createRelations rs).
  destruct (createRelationFold_spec rs (graph st)) as (Hn & Hall & _).
  cbv zeta in *.
  apply createRelationFold_present.
  intros r i j Hr Hi Hj.
  rewrite (matchMemory_nodes _ _ _ Hn) in Hi.
  rewrite (matchMemory_nodes _ _ _ Hn) in Hj.
  now apply (Hall r i j (Hincl r Hr)).
Qed.

Lemma X5_createRelations_idempotent_witness :
  let st := mkStore
              (mkGraph [ mkNode 1 ["Memory"] (Some "A") None None None None None;
                         mkNode 2 ["Memory"] (Some "B") None None None None None ]
                       [])
              [] true in
  let rs := [mkRelation "A" "B" "knows"; mkRelation "B" "A" "likes"] in
  edges (graph (snd (createRelations rs st)))
  = [ mkEdge 1 2 relationTypeName; mkEdge 2 1 relationTypeName ]
  /\ graph (snd (createRelations [mkRelation "B" "A" "likes"]
                   (snd (createRelations rs st))))
     = graph (snd (createRelations rs st)).
Proof.
  cbv zeta. split; [reflexivity |].
  apply X5_createRelations_idempotent.
  intros r [<- | []]. right. now left.
Defined.

Lemma existsb_linked_nodes (rs : list Relation) (g g' : Graph) (e : Edge) :
  nodes g' = nodes g ->
  existsb (fun r => linked r g' e) rs = existsb (fun r => linked r g e) rs.
Proof.
  intros H. induction rs as [| r rs IH]; cbn [existsb]; [reflexivity |].
  now rewrite IH, (linked_nodes r g g' e H).
Qed.

(** X6.  Deleting a batch of relations right after creating it gives the
    graph that deleting the batch from the original graph gives: whatever
    [createRelations] added, [deleteRelations] removes, and the batch may be
    part of a larger one. *)
Theorem X6_deleteRelations_undoes_createRelations :
  forall (rs deleted : list Relation) (st : Store),
    incl rs deleted ->
    graph (deleteRelations deleted (snd (createRelations rs st)))
    = graph (deleteRelations deleted st).
Proof.
  intros rs deleted st Hincl.
  rewrite !graph_deleteRelations, graph_createRelations, !deleteRelationFold_spec.
  destruct (createRelationFold_spec rs (graph st)) as (Hn & _ & extra & He & Hx).
  cbv zeta in *. rewrite Hn, He, filter_app. f_equal.
  rewrite (filter_all_false _ extra).
  - rewrite app_nil_r. apply filter_ext. intros e.
    now rewrite (existsb_linked_nodes deleted (graph st) _ e Hn).
  - intros x Hin. destruct (Hx x Hin) as (r & Hr & Hl).
    apply negb_false_iff. apply existsb_exists. exists r.
    split; [now apply Hincl |].
    now rewrite (linked_nodes r (graph st) _ x Hn).
Qed.

Lemma X6_deleteRelations_undoes_createRelations_witness :
  let st := mkStore
              (mkGraph [ mkNode 1 ["Memory"] (Some "A") None None None None None;
                         mkNode 2 ["Memory"] (Some "B") None None None None None ]
                       [ mkEdge 2 1 "likes" ])
              [] true in
  let rs := [mkRelation "A" "B" "knows"] in
  edges (graph (snd (createRelations rs st)))
  = [ mkEdge 2 1 "likes"; mkEdge 1 2 relationTypeName ]
  /\ graph (deleteRelations rs (snd (createRelations rs st)))
     = graph (deleteRelations rs st)
  /\ graph (deleteRelations rs st) = graph st.
Proof.
  cbv zeta. split; [reflexivity |]. split; [| reflexivity].
  apply X6_deleteRelations_undoes_createRelations.
  intros r Hr. exact Hr.
Defined.

(** ** The client: what every operation keeps *)

Lemma ids_updateNode (i : nat) (F : Node -> Node) (g : Graph) :
  (forall m, nid (F m) = nid m) ->
  map nid (nodes (updateNode i F g)) = map nid (nodes g).
Proof.
  intros HF. unfold updateNode. cbn [nodes]. rewrite map_map.
  apply map_ext. intros n. now destruct (nid n =? i).
Qed.

Lemma ids_updates {R : Type} (key : R -> nat) (K : R -> Node -> Node)
  (rows : list R) (g : Graph) :
  (forall r m, nid (K r m) = nid m) ->
  map nid (nodes (fold_left (fun g r => updateNode (key r) (K r) g) rows g))
  = map nid (nodes g)
  /\ edges (fold_left (fun g r => updateNode (key r) (K r) g) rows g) = edges g.
Proof.
  intros HK. revert g. induction rows as [| r rows IH]; intros g; cbn [fold_left].
  - now split.
  - destruct (IH (updateNode (key r) (K r) g)) as [H1 H2].
    rewrite H1, H2. split; [| reflexivity].
    apply ids_updateNode. apply HK.
Qed.

Lemma wellFormed_same (g g' : Graph) :
  map nid (nodes g') = map nid (nodes g) -> edges g' = edges g ->
  wellFormed g -> wellFormed g'.
Proof.
  intros Hn He [H1 H2]. unfold wellFormed. rewrite Hn, He. now split.
Qed.

Lemma wellFormed_fewer_edges (g : Graph) (p : Edge -> bool) :
  wellFormed g -> wellFormed (mkGraph (nodes g) (filter p (edges g))).
Proof.
  intros [H1 H2]. split; [exact H1 |]. cbn [nodes edges].
  intros e He. apply filter_In in He as [He _]. now apply H2.
Qed.

Lemma matchMemory_ids (s : string) (g : Graph) (i : nat) :
  In i (matchMemory s g) -> In i (map nid (nodes g)).
Proof.
  unfold matchMemory. intros H. apply in_map_iff in H as (n & <- & Hn).
  apply filter_In in Hn as [Hn _]. now apply in_map.
Qed.

Lemma wellFormed_mergeMemory (entity : Entity) (g : Graph) :
  wellFormed g -> wellFormed (fst (mergeMemory entity g)).
Proof.
  intros H. unfold mergeMemory.
  destruct (matchMemory (e_name entity) g); cbn [fst]; [| exact H].
  now apply wellFormed_add_node.
Qed.

Lemma wellFormed_mergeAll (es : list Entity) (g : Graph) :
  wellFormed g -> wellFormed (fst (mergeAll es g)).
Proof.
  revert g. induction es as [| e es IH]; intros g H; cbn [mergeAll];
    [exact H |].
  pose proof (wellFormed_mergeMemory e g H) as H1.
  destruct (mergeMemory e g) as [g1 rows1]. cbn [fst] in H1.
  pose proof (IH g1 H1) as H2.
  destruct (mergeAll es g1) as [g2 rows2]. exact H2.
Qed.

Lemma wellFormed_createEntities (es : list Entity) (g : Graph) :
  wellFormed g -> wellFormed (createEntitiesUpdate es g).
Proof.
  intros H. unfold createEntitiesUpdate.
  pose proof (wellFormed_mergeAll es g H) as H1.
  destruct (mergeAll es g) as [g1 rows]. cbn [fst] in H1.
  destruct (ids_updates (@snd Entity nat) (fun r => setEntity (fst r)) rows g1)
    as [Ha Hb]; [reflexivity |].
  destruct (ids_updates (@snd Entity nat) (fun _ => addLabel entityTypeLabel) rows
              (fold_left (fun g r => updateNode (snd r) (setEntity (fst r)) g) rows g1))
    as [Hc Hd]; [reflexivity |].
  eapply wellFormed_same; [| | exact H1].
  - now rewrite Hc, Ha.
  - now rewrite Hd, Hb.
Qed.

Lemma wellFormed_createRelation (r : Relation) (g : Graph) :
  wellFormed g -> wellFormed (createRelationUpdate r g).
Proof.
  intros [H1 H2].
  destruct (createRelation_spec r g) as (Hn & _ & extra & He & Hx).
  unfold wellFormed. rewrite Hn, He. split; [exact H1 |].
  intros e Hin. apply in_app_or in Hin as [Hin | Hin]; [now apply H2 |].
  apply Hx, linked_spec in Hin as (Hs & Ht & _).
  split; eapply matchMemory_ids; eassumption.
Qed.

Lemma wellFormed_addObservations (obs : list ObservationAddition) (g : Graph) :
  wellFormed g -> wellFormed (snd (addObservationsUpdate obs g)).
Proof.
  intros H. unfold addObservationsUpdate. cbn [snd].
  destruct (ids_updates row_e (fun r => appendObservations (row_new r))
              (addObservationsRows obs g) g) as [Ha Hb]; [reflexivity |].
  now apply (wellFormed_same g).
Qed.

Lemma wellFormed_detachDelete (i : nat) (g : Graph) :
  wellFormed g -> wellFormed (detachDelete i g).
Proof.
  intros [H1 H2]. unfold detachDelete. split; cbn [nodes edges].
  - now apply matched_ids_distinct.
  - intros e He. apply filter_In in He as [He Ht].
    apply negb_true_iff in Ht. unfold touches in Ht.
    apply orb_false_iff in Ht as [Hs Ht].
    apply Nat.eqb_neq in Hs, Ht.
    destruct (H2 e He) as [Ha Hb].
    split.
    + apply in_map_iff in Ha as (n & Hn & Hin). apply in_map_iff.
      exists n. split; [exact Hn |]. apply filter_In. split; [exact Hin |].
      apply negb_true_iff, Nat.eqb_neq. congruence.
    + apply in_map_iff in Hb as (n & Hn & Hin). apply in_map_iff.
      exists n. split; [exact Hn |]. apply filter_In. split; [exact Hin |].
      apply negb_true_iff, Nat.eqb_neq. congruence.
Qed.

Lemma wellFormed_deleteEntities (names : list string) (g : Graph) :
  wellFormed g -> wellFormed (deleteEntitiesUpdate names g).
Proof.
  unfold deleteEntitiesUpdate.
  generalize (flat_map (fun s => matchMemory s g) names) as ids.
  intros ids. revert g. induction ids as [| i ids IH]; intros g H; cbn [fold_left];
    [exact H |].
  apply IH. now apply wellFormed_detachDelete.
Qed.

Lemma wellFormed_deleteObservations (ds : list ObservationDeletion) (g : Graph) :
  wellFormed g -> wellFormed (deleteObservationsUpdate ds g).
Proof.
  intros H. unfold deleteObservationsUpdate.
  match goal with
  | |- wellFormed (fold_left _ ?rows g) =>
      destruct (ids_updates (@fst nat (list string))
                  (fun r => removeObservations (snd r)) rows g) as [Ha Hb];
        [reflexivity |]
  end.
  now apply (wellFormed_same g).
Qed.

Lemma wellFormed_createRelationFold (rs : list Relation) (g : Graph) :
  wellFormed g ->
  wellFormed (fold_left (fun g r => createRelationUpdate r g) rs g).
Proof.
  revert g. induction rs as [| r rs IH]; intros g H; cbn [fold_left];
    [exact H |].
  apply IH. now apply wellFormed_createRelation.
Qed.

Lemma graph_loadGraph queryNodes (q : option string) (st : Store) :
  graph (snd (loadGraph queryNodes q st)) = graph st.
Proof. reflexivity. Qed.

(** X7.  Every tool of [src/server.ts], whatever the session and the
    arguments, keeps the graph well formed: node ids stay unique and every
    relationship still joins two nodes of the graph. *)
Theorem X7_tools_keep_the_graph_well_formed :
  forall (queryNodes : string -> Node -> bool) (call : Server.ToolCall)
         (session : option AuthSession) (st : Store),
    wellFormed (graph st) ->
    wellFormed (graph (snd (Server.execute queryNodes call session st))).
Proof.
  intros queryNodes call session st H.
  destruct session as [s |];
    [| destruct call; exact H].
  destruct (OAuth.hasScope s (Server.requiredScope call)) eqn:Hs.
  - destruct call as [es | rs | obs | ns | ds | rs | | q | ns |];
      cbn [Server.requiredScope] in Hs;
      unfold Server.execute, Server.guarded; rewrite Hs; cbn [negb].
    + now apply wellFormed_createEntities.
    + change (wellFormed (graph (snd (createRelations rs st)))).
      rewrite graph_createRelations. now apply wellFormed_createRelationFold.
    + destruct (addObservations_graph obs st) as [_ Hg].
      destruct (addObservations obs st) as [r st']. cbn [snd] in *.
      rewrite Hg. now apply wellFormed_addObservations.
    + now apply wellFormed_deleteEntities.
    + now apply wellFormed_deleteObservations.
    + cbn [snd]. rewrite graph_deleteRelations, deleteRelationFold_spec.
      now apply wellFormed_fewer_edges.
    + exact H.
    + exact H.
    + exact H.
    + exact H.
  - rewrite (guarded_denied queryNodes call s st Hs). exact H.
Qed.

Lemma X7_tools_keep_the_graph_well_formed_witness :
  let st := mkStore
              (mkGraph [ mkNode 1 ["Memory"] (Some "A") None None None None None;
                         mkNode 2 ["Memory"] (Some "B") None None None None None ]
                       [ mkEdge 1 2 "knows" ])
              [] true in
  wellFormed
    (graph (snd (Server.execute (fun _ _ => true) (Server.delete_entities ["B"])
                   (Some (mkAuthSession "u" None ["write"] "Bearer" 0 (Some 2))) st)))
  /\ nodes (graph (snd (Server.execute (fun _ _ => true) (Server.delete_entities ["B"])
                          (Some (mkAuthSession "u" None ["write"] "Bearer" 0 (Some 2))) st)))
     = [ mkNode 1 ["Memory"] (Some "A") None None None None None ].
Proof.
  cbv zeta. split; [| reflexivity].
  apply X7_tools_keep_the_graph_well_formed.
  split.
  - cbn. repeat constructor; cbn; intuition discriminate.
  - cbn. intros e [<- | []]. cbn. auto.
Defined.

(** ** The client: [createEntities] over a batch *)

Lemma isMemory_newMemory (i : nat) (name s : string) :
  isMemory s (newMemory i name) = String.eqb name s.
Proof.
  unfold isMemory, hasLabel, nameIs, newMemory, includes.
  cbn [labels n_name existsb]. now rewrite String.eqb_refl.
Qed.

Lemma matchMemory_nil (s : string) (g : Graph) :
  matchMemory s g = [] -> filter (isMemory s) (nodes g) = [].
Proof. unfold matchMemory. apply map_eq_nil. Qed.

Lemma mergeMemory_spec (entity : Entity) (g g1 : Graph) (rows : list (Entity * nat)) :
  mergeMemory entity g = (g1, rows) ->
  NoDup (map nid (nodes g)) -> uniqueNames g ->
  (exists added, nodes g1 = nodes g ++ added
                 /\ forall n, In n added -> isMemory (e_name entity) n = true)
  /\ edges g1 = edges g
  /\ NoDup (map nid (nodes g1))
  /\ uniqueNames g1
  /\ (forall e i, In (e, i) rows ->
                  e = entity
                  /\ exists n, In n (nodes g1) /\ nid n = i
                               /\ isMemory (e_name entity) n = true)
  /\ exists i, In (entity, i) rows.
Proof.
  unfold mergeMemory. intros Hm Hnd Hun.
  destruct (matchMemory (e_name entity) g) as [| i0 ids] eqn:E.
  - injection Hm as <- <-. cbn [nodes edges].
    assert (Hnew : isMemory (e_name entity) (newMemory (freshId g) (e_name entity)) = true).
    { rewrite isMemory_newMemory. apply String.eqb_refl. }
    split; [| split; [reflexivity | split; [| split; [| split]]]].
    + eexists. split; [reflexivity |]. intros n [<- | []]. exact Hnew.
    + rewrite map_app. cbn [map]. apply NoDup_app; [exact Hnd | | ].
      * repeat constructor. intros [].
      * intros x Hx [<- | []]. now apply (freshId_fresh g).
    + intros s. cbn [nodes]. rewrite filter_app, length_app. cbn [filter].
      rewrite isMemory_newMemory.
      destruct (String.eqb (e_name entity) s) eqn:Es.
      * apply String.eqb_eq in Es. subst s.
        rewrite (matchMemory_nil _ _ E). cbn. lia.
      * cbn [length]. specialize (Hun s). lia.
    + intros e i [Heq | []]. injection Heq as <- <-. split; [reflexivity |].
      eexists. split; [apply in_or_app; right; now left |].
      split; [reflexivity | exact Hnew].
    + exists (freshId g). now left.
  - injection Hm as <- <-.
    split; [| split; [reflexivity | split; [exact Hnd | split; [exact Hun | split]]]].
    + exists []. rewrite app_nil_r. split; [reflexivity | intros n []].
    + intros e i Hin. change (In (e, i) (map (pair entity) (i0 :: ids))) in Hin.
      apply in_map_iff in Hin as (j & Heq & Hj).
      injection Heq as <- <-. split; [reflexivity |].
      rewrite <- E in Hj. unfold matchMemory in Hj.
      apply in_map_iff in Hj as (n & Hn & Hf). apply filter_In in Hf as [Hf1 Hf2].
      now exists n.
    + exists i0. now left.
Qed.

Lemma mergeAll_spec (es : list Entity) (g g1 : Graph) (rows : list (Entity * nat)) :
  mergeAll es g = (g1, rows) ->
  NoDup (map nid (nodes g)) -> uniqueNames g ->
  (exists added, nodes g1 = nodes g ++ added
                 /\ forall n, In n added ->
                              exists e, In e es /\ isMemory (e_name e) n = true)
  /\ edges g1 = edges g
  /\ NoDup (map nid (nodes g1))
  /\ uniqueNames g1
  /\ (forall e i, In (e, i) rows ->
                  In e es
                  /\ exists n, In n (nodes g1) /\ nid n = i
                               /\ isMemory (e_name e) n = true)
  /\ forall e, In e es -> exists i, In (e, i) rows.
Proof.
  revert g g1 rows. induction es as [| e es IH]; intros g g1 rows Hm Hnd Hun.
  - cbn [mergeAll] in Hm. injection Hm as <- <-.
    split; [| split; [reflexivity | split; [exact Hnd | split; [exact Hun | split]]]].
    + exists []. rewrite app_nil_r. split; [reflexivity | intros n []].
    + intros e i [].
    + intros e [].
  - cbn [mergeAll] in Hm.
    destruct (mergeMemory e g) as [ga rowsa] eqn:Ea.
    destruct (mergeAll es ga) as [gb rowsb] eqn:Eb.
    injection Hm as <- <-.
    destruct (mergeMemory_spec e g ga rowsa Ea Hnd Hun)
      as ((added1 & Hn1 & Ha1) & He1 & Hnd1 & Hun1 & Hr1 & Hx1).
    destruct (IH ga gb rowsb Eb Hnd1 Hun1)
      as ((added2 & Hn2 & Ha2) & He2 & Hnd2 & Hun2 & Hr2 & Hx2).
    split; [| split; [congruence | split; [exact Hnd2 | split; [exact Hun2 | split]]]].
    + exists (added1 ++ added2). rewrite Hn2, Hn1, app_assoc.
      split; [reflexivity |].
      intros n Hn. apply in_app_or in Hn as [Hn | Hn].
      * exists e. split; [now left | now apply Ha1].
      * destruct (Ha2 n Hn) as (e' & He' & Hm'). exists e'. split; [now right | exact Hm'].
    + intros e' i Hin. apply in_app_or in Hin as [Hin | Hin].
      * destruct (Hr1 e' i Hin) as (-> & n & Hn & Hi & Hmem).
        split; [now left |]. exists n. split; [| now split].
        rewrite Hn2. apply in_or_app. now left.
      * destruct (Hr2 e' i Hin) as (He' & Hex). split; [now right | exact Hex].
    + intros e' [<- | He'].
      * destruct Hx1 as (i & Hi). exists i. apply in_or_app. now left.
      * destruct (Hx2 e' He') as (i & Hi). exists i. apply in_or_app. now right.
Qed.

Lemma related_step (Q : Node -> Node -> Prop) (f : Node -> Node)
  (l l' : list Node) :
  (forall n m, Q n m -> Q n (f m)) ->
  Forall2 Q l l' -> Forall2 Q l (map f l').
Proof.
  intros Hf. induction 1 as [| n m l l' Hnm HQ IH]; cbn [map]; constructor;
    [now apply Hf | exact IH].
Qed.

Lemma updates_related {R : Type} (key : R -> nat) (K : R -> Node -> Node)
  (Q : Node -> Node -> Prop) (rows : list R) (l : list Node) (g : Graph) :
  (forall n m r, In r rows -> Q n m -> nid m = key r -> Q n (K r m)) ->
  Forall2 Q l (nodes g) ->
  Forall2 Q l (nodes (fold_left (fun g r => updateNode (key r) (K r) g) rows g))
  /\ edges (fold_left (fun g r => updateNode (key r) (K r) g) rows g) = edges g.
Proof.
  revert g. induction rows as [| r rows IH]; intros g HK HQ; cbn [fold_left].
  - now split.
  - destruct (IH (updateNode (key r) (K r) g)) as [H1 H2].
    + intros n m r' Hr'. apply HK. now right.
    + unfold updateNode. cbn [nodes]. apply related_step; [| exact HQ].
      intros n m Hnm. destruct (nid m =? key r) eqn:E; [| exact Hnm].
      apply Nat.eqb_eq in E. apply (HK n m r); [now left | exact Hnm | exact E].
    + split; [exact H1 | exact H2].
Qed.

Lemma Forall2_diag (Q : Node -> Node -> Prop) (l : list Node) :
  (forall n, In n l -> Q n n) -> Forall2 Q l l.
Proof.
  induction l as [| n l IH]; intros H; constructor.
  - apply H. now left.
  - apply IH. intros m Hm. apply H. now right.
Qed.

Lemma hasLabel_addLabel (n : Node) :
  hasLabel "Memory" (addLabel entityTypeLabel n) = hasLabel "Memory" n.
Proof.
  unfold hasLabel, addLabel. cbn [labels].
  destruct (includes (labels n) entityTypeLabel); [reflexivity |].
  unfold includes. rewrite existsb_app. cbn [existsb].
  change (String.eqb "Memory" entityTypeLabel) with false.
  now rewrite !orb_false_r.
Qed.

Lemma isMemory_addLabel (s : string) (n : Node) :
  isMemory s (addLabel entityTypeLabel n) = isMemory s n.
Proof.
  unfold isMemory. rewrite hasLabel_addLabel. reflexivity.
Qed.

Lemma isMemory_same_name (s t : string) (n : Node) :
  isMemory s n = true -> isMemory t n = true -> s = t.
Proof.
  intros Hs Ht. apply isMemory_name in Hs, Ht. congruence.
Qed.

Lemma related_matches (p q : Node -> bool) (l l' : list Node) :
  Forall2 (fun n m => nid m = nid n /\ q m = p n) l l' ->
  map nid (filter q l') = map nid (filter p l).
Proof.
  induction 1 as [| n m l l' [Hid Hp] HQ IH]; cbn [filter]; [reflexivity |].
  rewrite Hp. destruct (p n); cbn [map]; now rewrite ?Hid, IH.
Qed.

Lemma related_untouched (p : Node -> bool) (l l' : list Node) :
  Forall2 (fun n m => p m = p n /\ (p n = true -> m = n)) l l' ->
  filter p l' = filter p l.
Proof.
  induction 1 as [| n m l l' [Hp Heq] HQ IH]; cbn [filter]; [reflexivity |].
  rewrite Hp. destruct (p n) eqn:E; [| exact IH].
  now rewrite IH, Heq.
Qed.

Lemma createEntities_related (es : list Entity) (g g1 : Graph)
  (rows : list (Entity * nat)) :
  mergeAll es g = (g1, rows) ->
  NoDup (map nid (nodes g)) -> uniqueNames g ->
  Forall2 (fun n m =>
             nid m = nid n
             /\ (forall s, isMemory s m = isMemory s n)
             /\ ((forall e, In e es -> isMemory (e_name e) n = false) -> m = n))
          (nodes g1) (nodes (createEntitiesUpdate es g))
  /\ edges (createEntitiesUpdate es g) = edges g.
Proof.
  intros Hm Hnd Hun.
  destruct (mergeAll_spec es g g1 rows Hm Hnd Hun)
    as (_ & He & Hnd1 & _ & Hrows & _).
  unfold createEntitiesUpdate. rewrite Hm.
  set (Q := fun n m : Node =>
              In n (nodes g1)
              /\ nid m = nid n
              /\ (forall s, isMemory s m = isMemory s n)
              /\ ((forall e, In e es -> isMemory (e_name e) n = false) -> m = n)).
  assert (Hhit : forall n m (r : Entity * nat),
             In r rows -> Q n m -> nid m = snd r ->
             In (fst r) es /\ isMemory (e_name (fst r)) n = true).
  { intros n m [e i] Hr (Hin & Hid & _) Hi. cbn [fst snd] in *.
    destruct (Hrows e i Hr) as (He' & n0 & Hn0 & Hi0 & Hmem).
    split; [exact He' |].
    assert (n = n0) as ->; [| exact Hmem].
    apply (nid_inj (nodes g1)); try assumption. congruence. }
  destruct (updates_related (@snd Entity nat) (fun r => setEntity (fst r)) Q rows
              (nodes g1) g1) as [H1 H2].
  { intros n m r Hr HQ Hi.
    destruct (Hhit n m r Hr HQ Hi) as [Hes Hmem].
    destruct HQ as (Hin & Hid & Hsame & Hkeep).
    split; [exact Hin |]. split; [exact Hid |]. split.
    - intros s. rewrite <- (Hsame (e_name (fst r))) in Hmem.
      unfold isMemory in *. apply andb_true_iff in Hmem as [Hl Hname].
      rewrite <- Hsame.
      unfold hasLabel, nameIs, setEntity in *. cbn [labels n_name].
      rewrite Hl. cbn [andb].
      destruct (n_name m) as [x |]; [| discriminate].
      apply String.eqb_eq in Hname. now subst x.
    - intros Hnone. rewrite (Hnone _ Hes) in Hmem. discriminate. }
  { apply Forall2_diag. intros n Hn. repeat split; auto. }
  destruct (updates_related (@snd Entity nat) (fun _ => addLabel entityTypeLabel) Q rows
              (nodes g1)
              (fold_left (fun g r => updateNode (snd r) (setEntity (fst r)) g) rows g1))
    as [H3 H4].
  { intros n m r Hr HQ Hi.
    destruct (Hhit n m r Hr HQ Hi) as [Hes Hmem].
    destruct HQ as (Hin & Hid & Hsame & Hkeep).
    split; [exact Hin |]. split; [exact Hid |]. split.
    - intros s. now rewrite isMemory_addLabel.
    - intros Hnone. rewrite (Hnone _ Hes) in Hmem. discriminate. }
  { exact H1. }
  split; [| congruence].
  eapply Forall2_impl; [| exact H3].
  intros n m (_ & Ha & Hb & Hc). auto.
Qed.

Lemma related_ids (Q : Node -> Node -> Prop) (l l' : list Node) :
  (forall n m, Q n m -> nid m = nid n) ->
  Forall2 Q l l' -> map nid l' = map nid l.
Proof.
  intros HQ. induction 1 as [| n m l l' Hnm H IH]; cbn [map]; [reflexivity |].
  now rewrite IH, (HQ n m Hnm).
Qed.

(** X8.  On a graph where node ids are unique and no two entities share a
    name, [createEntities] with any batch keeps both properties and all
    relationships; afterwards every name of the batch belongs to exactly
    one entity, also when the batch names it several times, and the
    entities with other names are as they were. *)
Theorem X8_createEntities_keeps_one_entity_per_name :
  forall (es : list Entity) (st : Store),
    NoDup (map nid (nodes (graph st))) ->
    uniqueNames (graph st) ->
    let g' := graph (snd (createEntities es st)) in
    NoDup (map nid (nodes g'))
    /\ uniqueNames g'
    /\ edges g' = edges (graph st)
    /\ (forall e, In e es ->
                  length (filter (isMemory (e_name e)) (nodes g')) = 1)
    /\ (forall s, (forall e, In e es -> e_name e <> s) ->
                  filter (isMemory s) (nodes g')
                  = filter (isMemory s) (nodes (graph st))).
Proof.
  intros es st Hnd Hun g'.
  change g' with (createEntitiesUpdate es (graph st)). clear g'.
  destruct (mergeAll es (graph st)) as [g1 rows] eqn:Hm.
  destruct (mergeAll_spec es _ g1 rows Hm Hnd Hun)
    as ((added & Hn1 & Hadded) & _ & Hnd1 & Hun1 & Hrows & Hall).
  destruct (createEntities_related es _ g1 rows Hm Hnd Hun) as [Hrel Hedges].
  set (g' := createEntitiesUpdate es (graph st)) in *.
  assert (Hids : map nid (nodes g') = map nid (nodes g1)).
  { eapply related_ids; [| exact Hrel]. intros n m H. apply H. }
  assert (Hmatch : forall s, map nid (filter (isMemory s) (nodes g'))
                             = map nid (filter (isMemory s) (nodes g1))).
  { intros s. apply related_matches.
    eapply Forall2_impl; [| exact Hrel].
    intros n m (Ha & Hb & _). split; [exact Ha | apply Hb]. }
  assert (Hlen : forall s, length (filter (isMemory s) (nodes g'))
                           = length (filter (isMemory s) (nodes g1))).
  { intros s. rewrite <- (length_map nid), Hmatch. apply length_map. }
  split; [now rewrite Hids |].
  split; [intros s; rewrite Hlen; apply Hun1 |].
  split; [exact Hedges |]. split.
  - intros e He. rewrite Hlen.
    destruct (Hall e He) as (i & Hi).
    destruct (Hrows e i Hi) as (_ & n & Hn & _ & Hmem).
    assert (Hin : In n (filter (isMemory (e_name e)) (nodes g1))).
    { apply filter_In. now split. }
    specialize (Hun1 (e_name e)).
    destruct (filter (isMemory (e_name e)) (nodes g1)); [destruct Hin |].
    cbn [length] in *. lia.
  - intros s Hs.
    rewrite (related_untouched (isMemory s) (nodes g1) (nodes g')).
    + rewrite Hn1, filter_app, (filter_all_false _ added); [apply app_nil_r |].
      intros n Hn. destruct (Hadded n Hn) as (e & He & Hmem).
      destruct (isMemory s n) eqn:E; [| reflexivity].
      exfalso. apply (Hs e He). now apply (isMemory_same_name _ _ n).
    + eapply Forall2_impl; [| exact Hrel].
      intros n m (_ & Hb & Hc). split; [apply Hb |].
      intros Hmem. apply Hc. intros e He.
      destruct (isMemory (e_name e) n) eqn:E; [| reflexivity].
      exfalso. apply (Hs e He). now apply (isMemory_same_name _ _ n).
Qed.

Lemma X8_createEntities_keeps_one_entity_per_name_witness :
  let st := mkStore
              (mkGraph [ mkNode 1 ["Memory"] (Some "A") (Some "person") (Some ["x"])
                           None None None ]
                       [ mkEdge 1 1 "self" ])
              [] true in
  let es := [ mkEntity "B" "city" ["y"]; mkEntity "A" "robot" [];
              mkEntity "B" "town" ["z"] ] in
  let g' := graph (snd (createEntities es st)) in
  map nid (nodes g') = [1; 2]
  /\ NoDup (map nid (nodes g'))
  /\ uniqueNames g'
  /\ edges g' = [ mkEdge 1 1 "self" ]
  /\ (forall e, In e es -> length (filter (isMemory (e_name e)) (nodes g')) = 1)
  /\ (forall s, (forall e, In e es -> e_name e <> s) ->
                filter (isMemory s) (nodes g') = filter (isMemory s) (nodes (graph st))).
Proof.
  cbv zeta. split; [reflexivity |].
  apply (X8_createEntities_keeps_one_entity_per_name
           [ mkEntity "B" "city" ["y"]; mkEntity "A" "robot" [];
             mkEntity "B" "town" ["z"] ]
           (mkStore
              (mkGraph [ mkNode 1 ["Memory"] (Some "A") (Some "person") (Some ["x"])
                           None None None ]
                       [ mkEdge 1 1 "self" ])
              [] true)).
  - cbn. repeat constructor. intros [].
  - intros s. cbn [graph nodes filter].
    destruct (isMemory s _); cbn; lia.
Defined.

(** ** The client: [deleteObservations], [deleteEntities], [addObservations] *)

Lemma updates_as_map {R : Type} (key : R -> nat) (K : R -> Node -> Node)
  (rows : list R) (g : Graph) :
  fold_left (fun g r => updateNode (key r) (K r) g) rows g
  = mkGraph (map (fun n => fold_left (fun n r => if nid n =? key r then K r n else n)
                                     rows n)
                 (nodes g))
            (edges g).
Proof.
  revert g. induction rows as [| r rows IH]; intros g; cbn [fold_left].
  - rewrite map_id. now destruct g.
  - rewrite IH. unfold updateNode. cbn [nodes edges]. now rewrite map_map.
Qed.

Lemma matchMemory_In (s : string) (g : Graph) (n : Node) :
  NoDup (map nid (nodes g)) -> In n (nodes g) ->
  In (nid n) (matchMemory s g) <-> isMemory s n = true.
Proof.
  intros Hnd Hn. unfold matchMemory. rewrite in_map_iff. split.
  - intros (m & Hid & Hm). apply filter_In in Hm as [Hm Hp].
    now rewrite <- (nid_inj (nodes g) m n Hnd Hm Hn Hid).
  - intros Hp. exists n. split; [reflexivity |]. apply filter_In. now split.
Qed.

Lemma removeObservations_twice (g1 g2 : list string) (n : Node) :
  removeObservations g2 (removeObservations g1 n) = removeObservations (g1 ++ g2) n.
Proof.
  unfold removeObservations. cbn [nid labels n_name n_type n_observations
                                   n_content n_created_at n_updated_at coalesce].
  f_equal. f_equal. rewrite filter_twice. apply filter_ext. intros o.
  unfold includes. now rewrite existsb_app, negb_orb.
Qed.

Lemma listedFor_unnamed (ds : list ObservationDeletion) (n : Node) :
  namedBy ds n = false -> listedFor ds n = [].
Proof.
  unfold namedBy, listedFor. induction ds as [| d ds IH]; cbn [existsb flat_map];
    [reflexivity |].
  intros H. apply orb_false_iff in H as [H1 H2]. now rewrite H1, IH.
Qed.

Lemma deletion_rows_one (gone : list string) (ids : list nat) (m : Node) :
  fold_left (fun n (r : nat * list string) =>
               if nid n =? fst r then removeObservations (snd r) n else n)
            (map (fun i => (i, gone)) ids) m
  = applyUpdates (removeObservations gone) ids m.
Proof.
  unfold applyUpdates. revert m.
  induction ids as [| i ids IH]; intros m; cbn [map fold_left fst snd];
    [reflexivity | apply IH].
Qed.

Lemma deletion_rows_all (ds : list ObservationDeletion) (g : Graph) (n m : Node) :
  NoDup (map nid (nodes g)) -> In n (nodes g) -> nid m = nid n ->
  fold_left (fun n (r : nat * list string) =>
               if nid n =? fst r then removeObservations (snd r) n else n)
            (flat_map (fun d => map (fun i => (i, od_observations d))
                                    (matchMemory (od_entityName d) g)) ds)
            m
  = if namedBy ds n then removeObservations (listedFor ds n) m else m.
Proof.
  intros Hnd Hn. revert m.
  induction ds as [| d ds IH]; intros m Hid; [reflexivity |].
  cbn [flat_map]. rewrite fold_left_app, deletion_rows_one.
  unfold namedBy, listedFor. cbn [existsb flat_map].
  fold (namedBy ds n). fold (listedFor ds n).
  destruct (isMemory (od_entityName d) n) eqn:E.
  - rewrite applyUpdates_hit.
    + rewrite IH by exact Hid. cbn [orb].
      destruct (namedBy ds n) eqn:En.
      * apply removeObservations_twice.
      * now rewrite (listedFor_unnamed ds n En), app_nil_r.
    + reflexivity.
    + apply matched_ids_distinct, Hnd.
    + rewrite Hid. now apply matchMemory_In.
  - rewrite applyUpdates_miss.
    + rewrite IH by exact Hid. reflexivity.
    + rewrite Hid. intros Hin. apply matchMemory_In in Hin; try assumption.
      congruence.
Qed.

(** X9.  On a graph with unique node ids, [deleteObservations] with a batch
    of deletions changes no relationship and no node but the entities the
    batch names; each of those loses, from its observations, exactly the
    ones that some deletion for its name lists, the others keeping their
    order.  An entity named by the batch gets an [observations] list even
    if it had none. *)
Theorem X9_deleteObservations_batch :
  forall (ds : list ObservationDeletion) (st : Store),
    NoDup (map nid (nodes (graph st))) ->
    graph (deleteObservations ds st)
    = mkGraph
        (map (fun n => if namedBy ds n
                       then removeObservations (listedFor ds n) n
                       else n)
             (nodes (graph st)))
        (edges (graph st)).
Proof.
  intros ds st Hnd.
  change (graph (deleteObservations ds st))
    with (deleteObservationsUpdate ds (graph st)).
  unfold deleteObservationsUpdate.
  rewrite (updates_as_map (@fst nat (list string))
             (fun r => removeObservations (snd r))).
  f_equal. apply map_ext_in. intros n Hn.
  now apply deletion_rows_all.
Qed.

Lemma X9_deleteObservations_batch_witness :
  let st := mkStore
              (mkGraph [ mkNode 1 ["Memory"] (Some "A") None (Some ["x"; "y"; "z"])
                           None None None;
                         mkNode 2 ["Memory"] (Some "B") None None None None None;
                         mkNode 3 ["Memory"] (Some "C") None (Some ["x"]) None None None ]
                       [ mkEdge 1 2 "knows" ])
              [] true in
  let ds := [ mkObservationDeletion "A" ["z"]; mkObservationDeletion "B" ["x"];
              mkObservationDeletion "A" ["x"; "w"];
              mkObservationDeletion "D" ["x"] ] in
  graph (deleteObservations ds st)
  = mkGraph [ mkNode 1 ["Memory"] (Some "A") None (Some ["y"]) None None None;
              mkNode 2 ["Memory"] (Some "B") None (Some []) None None None;
              mkNode 3 ["Memory"] (Some "C") None (Some ["x"]) None None None ]
            [ mkEdge 1 2 "knows" ].
Proof.
  cbv zeta. etransitivity.
  - apply X9_deleteObservations_batch.
    cbn. repeat constructor; cbn; intuition discriminate.
  - reflexivity.
Defined.

(** X10.  On a graph with unique node ids, [deleteEntities] removes the
    entities whose name is in the list and the relationships at them, and
    nothing else: every other node and every relationship between other
    nodes is kept. *)
Theorem X10_deleteEntities_removes_exactly_the_named :
  forall (names : list string) (st : Store),
    NoDup (map nid (nodes (graph st))) ->
    (forall n,
        In n (nodes (graph (deleteEntities names st)))
        <-> In n (nodes (graph st))
            /\ forall s, In s names -> isMemory s n = false)
    /\ (forall e,
           In e (edges (graph (deleteEntities names st)))
           <-> In e (edges (graph st))
               /\ forall s n, In s names -> In n (nodes (graph st)) ->
                              isMemory s n = true ->
                              src e <> nid n /\ tgt e <> nid n).
Proof.
  intros names st Hnd.
  change (graph (deleteEntities names st))
    with (deleteEntitiesUpdate names (graph st)).
  unfold deleteEntitiesUpdate. split.
  - intros n. rewrite detachDeletes_nodes. split.
    + intros [Hn Hids]. split; [exact Hn |].
      intros s Hs. destruct (isMemory s n) eqn:E; [| reflexivity].
      exfalso. apply Hids. apply in_flat_map. exists s. split; [exact Hs |].
      now apply matchMemory_In.
    + intros [Hn Hnone]. split; [exact Hn |].
      intros Hin. apply in_flat_map in Hin as (s & Hs & Hin).
      apply matchMemory_In in Hin; try assumption.
      rewrite (Hnone s Hs) in Hin. discriminate.
  - intros e. rewrite detachDeletes_edges. split.
    + intros [He Hids]. split; [exact He |].
      intros s n Hs Hn Hmem. apply Hids.
      apply in_flat_map. exists s. split; [exact Hs |].
      now apply matchMemory_In.
    + intros [He Hnone]. split; [exact He |].
      intros i Hin. apply in_flat_map in Hin as (s & Hs & Hin).
      unfold matchMemory in Hin. apply in_map_iff in Hin as (n & <- & Hf).
      apply filter_In in Hf as [Hn Hmem].
      now apply (Hnone s n).
Qed.

Lemma X10_deleteEntities_removes_exactly_the_named_witness :
  let st := mkStore
              (mkGraph [ mkNode 1 ["Memory"] (Some "A") None None None None None;
                         mkNode 2 ["Memory"] (Some "B") None None None None None;
                         mkNode 3 ["Memory"] (Some "C") None None None None None ]
                       [ mkEdge 1 2 "knows"; mkEdge 1 3 "knows" ])
              [] true in
  graph (deleteEntities ["B"; "D"] st)
  = mkGraph [ mkNode 1 ["Memory"] (Some "A") None None None None None;
              mkNode 3 ["Memory"] (Some "C") None None None None None ]
            [ mkEdge 1 3 "knows" ]
  /\ (forall n,
         In n (nodes (graph (deleteEntities ["B"; "D"] st)))
         <-> In n (nodes (graph st))
             /\ forall s, In s ["B"; "D"] -> isMemory s n = false).
Proof.
  cbv zeta. split; [reflexivity |].
  apply X10_deleteEntities_removes_exactly_the_named.
  cbn. repeat constructor; cbn; intuition discriminate.
Defined.

Lemma addObservationsRows_known (obs : list ObservationAddition) (g : Graph) :
  addObservationsRows
    (filter (fun o => existsb (isMemory (oa_entityName o)) (nodes g)) obs) g
  = addObservationsRows obs g.
Proof.
  unfold addObservationsRows.
  induction obs as [| o obs IH]; cbn [filter flat_map]; [reflexivity |].
  destruct (existsb (isMemory (oa_entityName o)) (nodes g)) eqn:E.
  - cbn [flat_map]. now rewrite IH.
  - rewrite IH. rewrite (filter_all_false (isMemory (oa_entityName o)) (nodes g));
      [reflexivity |].
    intros n Hn. destruct (isMemory (oa_entityName o) n) eqn:En; [| reflexivity].
    assert (Hex : existsb (isMemory (oa_entityName o)) (nodes g) = true)
      by (apply existsb_exists; now exists n).
    congruence.
Qed.

(** X11.  [addObservations] skips the items whose entity does not exist:
    they give no record in the result and change nothing, so the call
    behaves as on the batch without them.  When no item names an existing
    entity the result is empty and the graph is as it was. *)
Theorem X11_addObservations_skips_unknown_entities :
  forall (obs : list ObservationAddition) (st : Store),
    let known := filter (fun o => existsb (isMemory (oa_entityName o))
                                          (nodes (graph st))) obs in
    fst (addObservations obs st) = fst (addObservations known st)
    /\ graph (snd (addObservations obs st)) = graph (snd (addObservations known st))
    /\ (known = [] ->
        fst (addObservations obs st) = []
        /\ graph (snd (addObservations obs st)) = graph st).
Proof.
  intros obs st known.
  destruct (addObservations_graph obs st) as [H1 H2].
  destruct (addObservations_graph known st) as [H3 H4].
  assert (Hu : addObservationsUpdate known (graph st)
               = addObservationsUpdate obs (graph st)).
  { unfold addObservationsUpdate, known.
    now rewrite addObservationsRows_known. }
  rewrite H1, H2, H3, H4, Hu.
  split; [reflexivity |]. split; [reflexivity |].
  intros Hk. rewrite <- Hu, Hk. destruct (graph st). split; reflexivity.
Qed.

(** ** The client: [loadGraph] *)

Lemma optEqb_eq {A : Type} (eqb : A -> A -> bool) (a b : option A) :
  (forall x y, eqb x y = true <-> x = y) ->
  optEqb eqb a b = true <-> a = b.
Proof.
  intros H. destruct a as [x |], b as [y |]; cbn [optEqb].
  - rewrite H. split; [now intros -> | now intros [= ->]].
  - split; discriminate.
  - split; discriminate.
  - split; reflexivity.
Qed.

Lemma listEqb_eq (a b : list string) :
  listEqb String.eqb a b = true <-> a = b.
Proof.
  revert b. induction a as [| x a IH]; intros [| y b]; cbn [listEqb];
    try (split; [reflexivity || discriminate | reflexivity || discriminate]).
  rewrite andb_true_iff, String.eqb_eq, IH.
  split; [now intros [-> ->] | now intros [= -> ->]].
Qed.

Lemma nodeMapEqb_eq (a b : NodeMap) : nodeMapEqb a b = true <-> a = b.
Proof.
  destruct a as [[a1 a2] a3], b as [[b1 b2] b3]. unfold nodeMapEqb.
  cbn [fst snd].
  rewrite !andb_true_iff, !(optEqb_eq String.eqb) by apply String.eqb_eq.
  rewrite (optEqb_eq (listEqb String.eqb)) by apply listEqb_eq.
  split; [now intros [[-> ->] ->] | now intros [= -> -> ->]].
Qed.

Lemma relMapEqb_eq (a b : RelMap) : relMapEqb a b = true <-> a = b.
Proof.
  destruct a as [[a1 a2] a3], b as [[b1 b2] b3]. unfold relMapEqb.
  cbn [fst snd].
  rewrite !andb_true_iff, !(optEqb_eq String.eqb) by apply String.eqb_eq.
  split; [now intros [[-> ->] ->] | now intros [= -> -> ->]].
Qed.

Lemma distinctFrom_complete {A : Type} (eqb : A -> A -> bool) (seen l : list A)
  (x : A) :
  (forall a b, eqb a b = true <-> a = b) ->
  In x l -> ~ In x seen -> In x (distinctFrom eqb seen l).
Proof.
  intros Heq. revert seen. induction l as [| y l IH]; intros seen Hin Hseen;
    [destruct Hin |].
  cbn [distinctFrom].
  destruct (existsb (eqb y) seen) eqn:E.
  - destruct Hin as [-> | Hin]; [| now apply IH].
    exfalso. apply Hseen. apply existsb_exists in E as (z & Hz & Hxz).
    apply Heq in Hxz. now subst.
  - destruct Hin as [-> | Hin]; [now left |].
    assert (Hdec : x = y \/ x <> y).
    { destruct (eqb x y) eqn:Exy; [left; now apply Heq |].
      right. intros ->. assert (eqb y y = true) by now apply Heq. congruence. }
    destruct Hdec as [-> | Hne]; [now left |].
    right. apply IH; [exact Hin |]. intros [-> | H]; [now apply Hne | now apply Hseen].
Qed.

Lemma distinct_In {A : Type} (eqb : A -> A -> bool) (l : list A) (x : A) :
  (forall a b, eqb a b = true <-> a = b) ->
  In x (distinct eqb l) <-> In x l.
Proof.
  intros Heq. unfold distinct. split.
  - apply distinctFrom_In.
  - intros H. apply distinctFrom_complete; [exact Heq | exact H | intros []].
Qed.

Lemma filterMap_complete {A B : Type} (f : A -> option B) (l : list A) (x : A)
  (y : B) :
  In x l -> f x = Some y -> In y (filterMap f l).
Proof.
  induction l as [| a l IH]; intros Hin Hf; [destruct Hin |].
  cbn [filterMap]. destruct Hin as [-> | Hin].
  - rewrite Hf. now left.
  - destruct (f a); [right |]; now apply IH.
Qed.

Lemma relationRows_In (g : Graph) (n : Node) (m : RelMap) (r : Relation) :
  toRelation m = Some r ->
  In m (relationRows g n)
  <-> exists e, In e (edges g) /\ touches (nid n) e = true /\ m = relMapOf g e.
Proof.
  intros Hr. unfold relationRows.
  destruct (filter (touches (nid n)) (edges g)) as [| e0 es] eqn:E.
  - split.
    + intros [<- | []]. discriminate.
    + intros (e & He & Ht & _).
      assert (Hin : In e (filter (touches (nid n)) (edges g)))
        by (apply filter_In; now split).
      rewrite E in Hin. destruct Hin.
  - rewrite <- E. rewrite in_map_iff. split.
    + intros (e & <- & He). apply filter_In in He as [He Ht]. now exists e.
    + intros (e & He & Ht & ->). exists e. split; [reflexivity |].
      apply filter_In. now split.
Qed.

Lemma loadGraph_members :
  forall (queryNodes : string -> Node -> bool) (filterQuery : option string)
         (st : Store),
    let q := match filterQuery with Some q => q | None => "*" end in
    let result := fst (loadGraph queryNodes filterQuery st) in
    (forall ent,
        In ent (entities result)
        <-> exists n s,
            In n (nodes (graph st))
            /\ hasLabel "Memory" n = true /\ queryNodes q n = true
            /\ n_name n = Some s /\ s <> ""
            /\ ent = mkEntity s (match n_type n with Some t => t | None => "" end)
                              (coalesce (n_observations n)))
    /\ (forall r,
           In r (relations result)
           <-> exists n e,
               In n (nodes (graph st))
               /\ hasLabel "Memory" n = true /\ queryNodes q n = true
               /\ In e (edges (graph st))
               /\ (src e = nid n \/ tgt e = nid n)
               /\ propertyName (src e) (graph st) = Some (source r)
               /\ propertyName (tgt e) (graph st) = Some (target r)
               /\ etype e = relationType r
               /\ source r <> "" /\ target r <> "" /\ relationType r <> "")
    /\ graph (snd (loadGraph queryNodes filterQuery st)) = graph st.
Proof.
  intros queryNodes filterQuery st q result.
  assert (Hres : result = loadGraphResult queryNodes q (graph st)) by reflexivity.
  rewrite Hres. clear Hres result.
  assert (Hy : forall n, In n (yielded queryNodes q (graph st))
                         <-> In n (nodes (graph st))
                             /\ hasLabel "Memory" n = true /\ queryNodes q n = true).
  { intros n. unfold yielded. rewrite filter_In, andb_true_iff. tauto. }
  assert (Htruthy : forall (o : option string) s,
             truthyName o = Some s <-> o = Some s /\ s <> "").
  { intros [[| c x] |] s; unfold truthyName; cbn [truthy]; split;
      try discriminate; try (intros [H _]; discriminate).
    - intros [[= <-] H]. now contradiction H.
    - intros [= <-]. split; [reflexivity | discriminate].
    - intros [[= <-] _]. reflexivity. }
  split; [| split; [| reflexivity]].
  - intros ent. unfold loadGraphResult. cbn [entities]. split.
    + intros H. apply filterMap_In in H as (m & Hm & Hent).
      apply distinct_In in Hm; [| apply nodeMapEqb_eq].
      apply in_map_iff in Hm as (n & <- & Hn). apply Hy in Hn as (Hn & Hl & Hq).
      unfold toEntity, nodeMapOf in Hent. cbn [fst snd] in Hent.
      destruct (truthyName (n_name n)) as [s |] eqn:Et; [| discriminate].
      apply Htruthy in Et as [Hname Hs]. injection Hent as <-.
      exists n, s. repeat split; assumption.
    + intros (n & s & Hn & Hl & Hq & Hname & Hs & ->).
      apply (filterMap_complete _ _ (nodeMapOf n)).
      * apply distinct_In; [apply nodeMapEqb_eq |].
        apply in_map. apply Hy. now repeat split.
      * unfold toEntity, nodeMapOf. cbn [fst snd].
        assert (Et : truthyName (n_name n) = Some s) by now apply Htruthy.
        now rewrite Et.
  - intros r. unfold loadGraphResult. cbn [relations]. split.
    + intros H. apply filterMap_In in H as (m & Hm & Hr).
      apply distinct_In in Hm; [| apply relMapEqb_eq].
      apply in_flat_map in Hm as (n & Hn & Hm). apply Hy in Hn as (Hn & Hl & Hq).
      apply (relationRows_In _ _ _ r Hr) in Hm as (e & He & Ht & ->).
      unfold toRelation, relMapOf in Hr. cbn [fst snd] in Hr.
      destruct (truthyName (propertyName (src e) (graph st))) as [a |] eqn:Ea;
        [| discriminate].
      destruct (truthyName (propertyName (tgt e) (graph st))) as [b |] eqn:Eb;
        [| discriminate].
      destruct (truthyName (Some (etype e))) as [c |] eqn:Ec; [| discriminate].
      injection Hr as <-. cbn [source target relationType].
      apply Htruthy in Ea as [Ea1 Ea2]. apply Htruthy in Eb as [Eb1 Eb2].
      apply Htruthy in Ec as [Ec1 Ec2]. injection Ec1 as Ec1.
      exists n, e. unfold touches in Ht. apply orb_true_iff in Ht.
      rewrite !Nat.eqb_eq in Ht. repeat split; assumption.
    + intros (n & e & Hn & Hl & Hq & He & Ht & Hs & Htg & Hty & Hs' & Ht' & Hty').
      apply (filterMap_complete _ _ (relMapOf (graph st) e)).
      * apply distinct_In; [apply relMapEqb_eq |].
        apply in_flat_map. exists n. split; [apply Hy; now repeat split |].
        apply (relationRows_In _ _ _ r).
        -- unfold toRelation, relMapOf. cbn [fst snd].
           assert (Ea : truthyName (propertyName (src e) (graph st)) = Some (source r))
             by now apply Htruthy.
           assert (Eb : truthyName (propertyName (tgt e) (graph st)) = Some (target r))
             by now apply Htruthy.
           assert (Ec : truthyName (Some (etype e)) = Some (relationType r))
             by (apply Htruthy; split; [now rewrite Hty | exact Hty']).
           rewrite Ea, Eb, Ec. now destruct r.
        -- exists e. split; [exact He |]. split; [| reflexivity].
           unfold touches. apply orb_true_iff. rewrite !Nat.eqb_eq. exact Ht.
      * unfold toRelation, relMapOf. cbn [fst snd].
        assert (Ea : truthyName (propertyName (src e) (graph st)) = Some (source r))
          by now apply Htruthy.
        assert (Eb : truthyName (propertyName (tgt e) (graph st)) = Some (target r))
          by now apply Htruthy.
        assert (Ec : truthyName (Some (etype e)) = Some (relationType r))
          by (apply Htruthy; split; [now rewrite Hty | exact Hty']).
        rewrite Ea, Eb, Ec. now destruct r.
Qed.

(** X12.  What [loadGraph] returns, and with it [read_graph],
    [search_nodes] and [find_nodes].  Every entity of the result comes
    from a [Memory] node that the full-text index yields and whose name is
    a non-empty string: it has that name, the observations of the node (none
    when the node has no such property) and the type of the node when it
    has one; and every such node gives an entity of the result.  A relation
    is in the result exactly when it is a relationship at a yielded node, in
    either direction, whose two end nodes have non-empty names and whose
    type is not empty; its other end need not be among the returned
    entities.  The graph is left as it is. *)
Theorem X12_loadGraph_result :
  forall (queryNodes : string -> Node -> bool) (filterQuery : option string)
         (st : Store),
    let q := match filterQuery with Some q => q | None => "*" end in
    let result := fst (loadGraph queryNodes filterQuery st) in
    (forall ent,
        In ent (entities result) ->
        exists n,
          In n (nodes (graph st))
          /\ hasLabel "Memory" n = true /\ queryNodes q n = true
          /\ n_name n = Some (e_name ent) /\ e_name ent <> ""
          /\ e_observations ent = coalesce (n_observations n)
          /\ (forall t, n_type n = Some t -> e_type ent = t))
    /\ (forall n s,
           In n (nodes (graph st)) ->
           hasLabel "Memory" n = true -> queryNodes q n = true ->
           n_name n = Some s -> s <> "" ->
           exists ent,
             In ent (entities result)
             /\ e_name ent = s
             /\ e_observations ent = coalesce (n_observations n)
             /\ (forall t, n_type n = Some t -> e_type ent = t))
    /\ (forall r,
           In r (relations result)
           <-> exists n e,
               In n (nodes (graph st))
               /\ hasLabel "Memory" n = true /\ queryNodes q n = true
               /\ In e (edges (graph st))
               /\ (src e = nid n \/ tgt e = nid n)
               /\ propertyName (src e) (graph st) = Some (source r)
               /\ propertyName (tgt e) (graph st) = Some (target r)
               /\ etype e = relationType r
               /\ source r <> "" /\ target r <> "" /\ relationType r <> "")
    /\ graph (snd (loadGraph queryNodes filterQuery st)) = graph st.
Proof.
  intros queryNodes filterQuery st q result.
  destruct (loadGraph_members queryNodes filterQuery st) as (He & Hr & Hg).
  cbv zeta in He, Hr. fold q in He, Hr. fold result in He, Hr.
  split; [| split; [| split; [exact Hr | exact Hg]]].
  - intros ent Hin. apply He in Hin as (n & s & Hn & Hl & Hq & Hname & Hs & ->).
    exists n. cbn [e_name e_type e_observations].
    repeat split; try assumption. intros t Ht. now rewrite Ht.
  - intros n s Hn Hl Hq Hname Hs.
    eexists. split.
    + apply He. exists n, s. repeat split; try eassumption.
    + cbn [e_name e_type e_observations]. repeat split.
      intros t Ht. now rewrite Ht.
Qed.

(** ** The Descope provider: permissions, roles and sessions *)

Lemma descope_hasPermission_spec (session : Descope.DescopeSession) (p : string) :
  Descope.hasPermission session p = true
  <-> In p (Descope.permissions session)
      \/ In Descope.ADMIN (Descope.permissions session).
Proof.
  unfold Descope.hasPermission. rewrite orb_true_iff, !includes_In. tauto.
Qed.

(** X13.  The scope checks of the Descope provider.  [validateMCPScopes]
    holds exactly when the session has ["mcp:admin"] or every required
    scope, so it holds for every session when nothing is required;
    [hasAnyPermission] holds exactly when the list is not empty and the
    session has ["mcp:admin"] or one of the listed permissions, so it fails
    on the empty list even for an administrator. *)
Theorem X13_descope_scope_checks :
  forall (session : Descope.DescopeSession) (wanted : list string),
    (Descope.validateMCPScopes session wanted = true
     <-> In Descope.ADMIN (Descope.permissions session)
         \/ forall s, In s wanted -> In s (Descope.permissions session))
    /\ (Descope.hasAnyPermission session wanted = true
        <-> wanted <> []
            /\ (In Descope.ADMIN (Descope.permissions session)
                \/ exists s, In s wanted /\ In s (Descope.permissions session)))
    /\ Descope.validateMCPScopes session [] = true
    /\ Descope.hasAnyPermission session [] = false.
Proof.
  intros session wanted. split; [| split; [| split; reflexivity]].
  - unfold Descope.validateMCPScopes. rewrite forallb_forall. split.
    + intros H.
      destruct (includes (Descope.permissions session) Descope.ADMIN) eqn:E.
      * left. now apply includes_In.
      * right. intros s Hs. apply H, descope_hasPermission_spec in Hs.
        destruct Hs as [Hs | Hs]; [exact Hs |].
        apply includes_In in Hs. congruence.
    + intros [H | H] s Hs; apply descope_hasPermission_spec; auto.
  - unfold Descope.hasAnyPermission. rewrite existsb_exists. split.
    + intros (s & Hs & Hp). split; [intros ->; destruct Hs |].
      apply descope_hasPermission_spec in Hp as [Hp | Hp]; [right | left]; eauto.
    + intros [Hne [H | (s & Hs & Hp)]].
      * destruct wanted as [| s wanted]; [contradiction |].
        exists s. split; [now left |]. apply descope_hasPermission_spec. now right.
      * exists s. split; [exact Hs |]. apply descope_hasPermission_spec. now left.
Qed.

Lemma extractRoles_In (a : Descope.DescopeAuthInfo) (r : string) :
  In r (Descope.extractRoles a)
  <-> In r (Descope.orEmpty (Descope.token_roles (Descope.token a)))
      \/ exists ts kv, Descope.tenants (Descope.token a) = Some ts
                       /\ In kv ts
                       /\ In r (Descope.orEmpty (Descope.tenant_roles (snd kv))).
Proof.
  unfold Descope.extractRoles. rewrite uniq_In, in_app_iff.
  destruct (Descope.tenants (Descope.token a)) as [ts |].
  - rewrite in_flat_map. split.
    + intros [H | (kv & H1 & H2)]; [now left |]. right. now exists ts, kv.
    + intros [H | (ts' & kv & [= <-] & H1 & H2)]; [now left |]. right. now exists kv.
  - split.
    + intros [H | []]. now left.
    + intros [H | (ts' & kv & Hts & _)]; [now left | discriminate].
Qed.

(** X14.  The roles of a session built from verified authentication info
    are the roles of the token and of its tenants, each once, with no
    default (the list may be empty, where the permissions never are); and
    [hasRole] holds for such a session exactly when the role, or ["admin"]
    in exactly this spelling, is one of them. *)
Theorem X14_descope_session_roles :
  forall (now : nat) (a : Descope.DescopeAuthInfo) (m : Descope.AuthMethod),
    let session := Descope.toSession now a m in
    let granted r :=
      In r (Descope.orEmpty (Descope.token_roles (Descope.token a)))
      \/ exists ts kv, Descope.tenants (Descope.token a) = Some ts
                       /\ In kv ts
                       /\ In r (Descope.orEmpty (Descope.tenant_roles (snd kv))) in
    (forall r, In r (Descope.roles session) <-> granted r)
    /\ NoDup (Descope.roles session)
    /\ (forall role, Descope.hasRole session role = true
                     <-> granted role \/ granted "admin")
    /\ (Descope.token_roles (Descope.token a) = None ->
        Descope.tenants (Descope.token a) = None ->
        Descope.roles session = []
        /\ Descope.permissions session <> []).
Proof.
  intros now a m session granted.
  assert (Hin : forall r, In r (Descope.roles session) <-> granted r)
    by (intros r; apply extractRoles_In).
  split; [exact Hin |]. split; [apply uniq_NoDup |]. split.
  - intros role. unfold Descope.hasRole.
    rewrite orb_true_iff, !includes_In, !Hin. tauto.
  - intros Hr Ht. split.
    + unfold session, Descope.toSession. cbn [Descope.roles].
      unfold Descope.extractRoles. now rewrite Hr, Ht.
    + unfold session, Descope.toSession. cbn [Descope.permissions].
      intros Hnil.
      assert (Hread : In Descope.READ (Descope.extractPermissions a)).
      { apply extractPermissions_In.
        destruct (Descope.collectedPermissions a) as [| p ps] eqn:E.
        - right. now split.
        - exfalso.
          assert (Hp : In p (Descope.extractPermissions a)).
          { apply extractPermissions_In. left. rewrite E. now left. }
          rewrite Hnil in Hp. destruct Hp. }
      rewrite Hnil in Hread. destruct Hread.
Qed.

(** X15.  What [authenticateRequest] of the Descope provider gives.  A
    session it returns is marked authenticated, carries the time of the
    call, at least one permission and no permission or role twice; it was
    made from a bearer token exactly when the [Authorization] header starts
    with ["Bearer "], and then it carries the JWT and no key id, while a
    session made from an API key carries the subject as key id and no JWT.
    Whatever goes wrong, what is thrown is a response with status 401 and
    status text "Unauthorized". *)
Theorem X15_descope_authenticate_outcomes :
  forall (sdkV sdkK : string -> Descope.DescopeAuthInfo + string)
         (now : nat) (request : Request),
    (forall session,
        fst (Descope.authenticateRequest sdkV sdkK now request) = Ok session ->
        Descope.authenticated session = true
        /\ Descope.timestamp session = now
        /\ Descope.permissions session <> []
        /\ NoDup (Descope.permissions session)
        /\ NoDup (Descope.roles session)
        /\ (Descope.authMethod session = Descope.oauth
            <-> exists h, authorization request = Some h
                          /\ startsWith "Bearer " h = true)
        /\ match Descope.authMethod session with
           | Descope.oauth =>
               Descope.session_jwt session <> None
               /\ Descope.apiKeyId session = None
           | Descope.api_key =>
               Descope.session_jwt session = None
               /\ Descope.apiKeyId session = Some (Descope.userId session)
               /\ truthy (x_api_key request) = true
           end)
    /\ (forall thrown,
           fst (Descope.authenticateRequest sdkV sdkK now request) = Throw thrown ->
           exists body,
             thrown = ThrownResponse (mkResponse (Some body) 401 "Unauthorized")).
Proof.
  intros sdkV sdkK now request.
  assert (Hshape : forall a m,
             Descope.authenticated (Descope.toSession now a m) = true
             /\ Descope.timestamp (Descope.toSession now a m) = now
             /\ Descope.permissions (Descope.toSession now a m) <> []
             /\ NoDup (Descope.permissions (Descope.toSession now a m))
             /\ NoDup (Descope.roles (Descope.toSession now a m))).
  { intros a m. split; [reflexivity |]. split; [reflexivity |].
    split; [| split; apply uniq_NoDup].
    cbn [Descope.toSession Descope.permissions]. intros Hnil.
    assert (Hread : exists p, In p (Descope.extractPermissions a)).
    { destruct (Descope.collectedPermissions a) as [| p ps] eqn:E.
      - exists Descope.READ. apply extractPermissions_In. right. now split.
      - exists p. apply extractPermissions_In. left. rewrite E. now left. }
    destruct Hread as (p & Hp). rewrite Hnil in Hp. destruct Hp. }
  unfold Descope.authenticateRequest, Descope.resolveCredential, Descope.tryApiKey,
    Descope.withMethod, Descope.validateSession, Descope.validateApiKey.
  destruct (authorization request) as [h |] eqn:Eh.
  - destruct (startsWith "Bearer " h) eqn:Es.
    + cbn [fst snd]. destruct (sdkV (slice 7 h)) as [a | message]; cbn [fst].
      * split; [| discriminate].
        intros session [= <-].
        destruct (Hshape a Descope.oauth) as (H1 & H2 & H3 & H4 & H5).
        repeat split; try assumption.
        -- intros _. now exists h.
        -- discriminate.
      * split; [discriminate |]. intros thrown [= <-]. eexists. reflexivity.
    + destruct (x_api_key request) as [[| c k] |] eqn:Ek; cbn [truthy negb fst snd].
      * split; [discriminate |]. intros thrown [= <-]. eexists. reflexivity.
      * destruct (sdkK (String c k)) as [a | message]; cbn [fst].
        -- split; [| discriminate].
           intros session [= <-].
           destruct (Hshape a Descope.api_key) as (H1 & H2 & H3 & H4 & H5).
           repeat split; try assumption; try discriminate.
           intros (h' & [= <-] & Hs'). congruence.
        -- split; [discriminate |]. intros thrown [= <-]. eexists. reflexivity.
      * split; [discriminate |]. intros thrown [= <-]. eexists. reflexivity.
  - destruct (x_api_key request) as [[| c k] |] eqn:Ek; cbn [truthy negb fst snd].
    + split; [discriminate |]. intros thrown [= <-]. eexists. reflexivity.
    + destruct (sdkK (String c k)) as [a | message]; cbn [fst].
      * split; [| discriminate].
        intros session [= <-].
        destruct (Hshape a Descope.api_key) as (H1 & H2 & H3 & H4 & H5).
        repeat split; try assumption; try discriminate.
        intros (h' & Hh' & _). discriminate.
      * split; [discriminate |]. intros thrown [= <-]. eexists. reflexivity.
    + split; [discriminate |]. intros thrown [= <-]. eexists. reflexivity.
Qed.

(** ** The OAuth states of the Descope provider *)

Lemma get_set {V : Type} (k k' : string) (v : V) (m : JsMap.t V) :
  JsMap.get k' (JsMap.set k v m)
  = if String.eqb k k' then Some v else JsMap.get k' m.
Proof.
  induction m as [| [k0 v0] m IH]; cbn [JsMap.set JsMap.get].
  - reflexivity.
  - destruct (String.eqb k0 k) eqn:E0; cbn [JsMap.get].
    + apply String.eqb_eq in E0. subst k0.
      now destruct (String.eqb k k').
    + destruct (String.eqb k0 k') eqn:E1.
      * apply String.eqb_eq in E1. subst k0.
        rewrite String.eqb_sym in E0. now rewrite E0.
      * exact IH.
Qed.

Lemma get_delete {V : Type} (k k' : string) (m : JsMap.t V) :
  JsMap.get k' (snd (JsMap.delete k m))
  = if String.eqb k k' then None else JsMap.get k' m.
Proof.
  unfold JsMap.delete. cbn [snd].
  induction m as [| [k0 v0] m IH]; cbn [filter JsMap.get fst].
  - now destruct (String.eqb k k').
  - destruct (String.eqb k0 k) eqn:E0; cbn [negb JsMap.get].
    + apply String.eqb_eq in E0. subst k0. rewrite IH.
      now destruct (String.eqb k k').
    + rewrite IH. destruct (String.eqb k0 k') eqn:E1; [| reflexivity].
      apply String.eqb_eq in E1. subst k0.
      rewrite String.eqb_sym in E0. now rewrite E0.
Qed.

Lemma get_In {V : Type} (k : string) (v : V) (m : JsMap.t V) :
  NoDup (map fst m) -> JsMap.get k m = Some v <-> In (k, v) m.
Proof.
  induction m as [| [k0 v0] m IH]; cbn [map fst JsMap.get]; intros Hnd.
  - split; [discriminate | intros []].
  - apply NoDup_cons_iff in Hnd as [Hk0 Hnd].
    destruct (String.eqb k0 k) eqn:E.
    + apply String.eqb_eq in E. subst k0. split.
      * intros [= <-]. now left.
      * intros [[= <-] | Hin]; [reflexivity |].
        exfalso. apply Hk0. apply in_map_iff. now exists (k, v).
    + rewrite (IH Hnd). split; [now right |].
      intros [[= -> _] | Hin]; [| exact Hin].
      rewrite String.eqb_refl in E. discriminate.
Qed.

Lemma keys_delete {V : Type} (k : string) (m : JsMap.t V) :
  NoDup (map fst m) -> NoDup (map fst (snd (JsMap.delete k m))).
Proof.
  unfold JsMap.delete. cbn [snd].
  induction m as [| [k0 v0] m IH]; cbn [map fst filter]; intros Hnd;
    [constructor |].
  apply NoDup_cons_iff in Hnd as [Hk0 Hnd].
  destruct (negb (String.eqb k0 k)); [| now apply IH].
  cbn [map fst]. constructor; [| now apply IH].
  intros Hin. apply Hk0. apply in_map_iff in Hin as (kv & Hkv & Hf).
  apply filter_In in Hf as [Hf _]. apply in_map_iff. now exists kv.
Qed.

Lemma deletes_spec {V : Type} (keys : list string) (m : JsMap.t V) (k : string) :
  JsMap.get k (fold_left (fun m key => snd (JsMap.delete key m)) keys m)
  = if includes keys k then None else JsMap.get k m.
Proof.
  revert m. induction keys as [| k0 keys IH]; intros m; cbn [fold_left];
    [reflexivity |].
  rewrite IH, get_delete. unfold includes. cbn [existsb].
  rewrite (String.eqb_sym k k0).
  destruct (String.eqb k0 k); cbn [orb]; [| reflexivity].
  now destruct (existsb (String.eqb k) keys).
Qed.

Lemma deletes_keys {V : Type} (keys : list string) (m : JsMap.t V) :
  NoDup (map fst m) ->
  NoDup (map fst (fold_left (fun m key => snd (JsMap.delete key m)) keys m)).
Proof.
  revert m. induction keys as [| k0 keys IH]; intros m H; cbn [fold_left];
    [exact H |].
  apply IH. now apply keys_delete.
Qed.

(** X16.  The state map of the OAuth flow after [completeOAuthFlow]: no
    other state is touched; the state of the call is gone whenever it was
    expired or the code exchange answered, and it survives only when the
    exchange itself failed.  A completed flow has found its state
    unexpired and has exchanged the code with the verifier stored in it;
    every failure is an error whose message starts with
    "Failed to complete OAuth flow: ". *)
Theorem X16_completeOAuthFlow_state_use :
  forall (oauthExchange : string -> string -> DescopeFlow.Exchanged + string)
         (sdkV : string -> Descope.DescopeAuthInfo + string)
         (now : nat) (code state : string)
         (states : JsMap.t DescopeFlow.OAuthState),
    let run := DescopeFlow.completeOAuthFlow oauthExchange sdkV now code state states in
    (forall k, k <> state -> JsMap.get k (snd run) = JsMap.get k states)
    /\ JsMap.get state (snd run)
       = match JsMap.get state states with
         | Some s =>
             if DescopeFlow.expired now s then None
             else match oauthExchange code (DescopeFlow.codeVerifier s) with
                  | inl _ => None
                  | inr _ => Some s
                  end
         | None => None
         end
    /\ (forall done,
           fst run = Ok done ->
           exists s tok a,
             JsMap.get state states = Some s
             /\ DescopeFlow.expired now s = false
             /\ oauthExchange code (DescopeFlow.codeVerifier s) = inl tok
             /\ sdkV (DescopeFlow.sessionJwt tok) = inl a
             /\ done = DescopeFlow.mkCompleted (DescopeFlow.sessionJwt tok)
                         (Descope.token a) (DescopeFlow.refreshJwt tok))
    /\ (forall thrown,
           fst run = Throw thrown ->
           exists message,
             thrown = ThrownError ("Failed to complete OAuth flow: " ++ message)%string).
Proof.
  intros oauthExchange sdkV now code state states run.
  assert (Hother : forall k, k <> state ->
             JsMap.get k (snd (JsMap.delete state states)) = JsMap.get k states).
  { intros k Hk. rewrite get_delete.
    destruct (String.eqb state k) eqn:E; [| reflexivity].
    apply String.eqb_eq in E. congruence. }
  assert (Hgone : JsMap.get state (snd (JsMap.delete state states)) = None).
  { now rewrite get_delete, String.eqb_refl. }
  unfold run, DescopeFlow.completeOAuthFlow, DescopeFlow.completeSteps.
  destruct (JsMap.get state states) as [s |] eqn:Eg.
  - destruct (DescopeFlow.expired now s) eqn:Ee.
    + cbn [fst snd]. repeat split; try assumption; try discriminate.
      intros thrown [= <-]. eexists. reflexivity.
    + destruct (oauthExchange code (DescopeFlow.codeVerifier s)) as [tok | msg] eqn:Ex.
      * destruct (sdkV (DescopeFlow.sessionJwt tok)) as [a | msg] eqn:Ev;
          cbn [fst snd].
        -- repeat split; try assumption; try discriminate.
           intros done [= <-]. now exists s, tok, a.
        -- repeat split; try assumption; try discriminate.
           intros thrown [= <-]. eexists. reflexivity.
      * cbn [fst snd]. repeat split; try assumption; try discriminate.
        intros thrown [= <-]. eexists. reflexivity.
  - cbn [fst snd]. repeat split; try assumption; try discriminate.
    intros thrown [= <-]. eexists. reflexivity.
Qed.

(** X17.  A flow started by [initiateOAuthFlow] can be completed once.
    Whether or not the SDK call of the start succeeded, the state is
    stored under the drawn state value; a completion within 15 minutes
    whose code exchange and session validation succeed exchanges the code
    with the verifier drawn at the start, returns the tokens and removes
    the state, so that any later completion with the same state value is
    refused as "Invalid or expired OAuth state". *)
Theorem X17_oauth_flow_completes_once :
  forall (oauthStart : string -> string -> DescopeFlow.StartOptions -> string + string)
         (oauthExchange : string -> string -> DescopeFlow.Exchanged + string)
         (sdkV : string -> Descope.DescopeAuthInfo + string)
         (challenge : string -> string)
         (verifier state nonce provider redirectUri code : string)
         (scopes : list string) (now later : nat)
         (states : JsMap.t DescopeFlow.OAuthState)
         (tok : DescopeFlow.Exchanged) (a : Descope.DescopeAuthInfo),
    later - now <= DescopeFlow.stateLifetime ->
    oauthExchange code verifier = inl tok ->
    sdkV (DescopeFlow.sessionJwt tok) = inl a ->
    let started :=
      snd (DescopeFlow.initiateOAuthFlow oauthStart challenge verifier state nonce
             now provider redirectUri scopes states) in
    let run := DescopeFlow.completeOAuthFlow oauthExchange sdkV later code state
                 started in
    JsMap.get state started
    = Some (DescopeFlow.mkOAuthState verifier state nonce provider redirectUri now)
    /\ fst run = Ok (DescopeFlow.mkCompleted (DescopeFlow.sessionJwt tok)
                       (Descope.token a) (DescopeFlow.refreshJwt tok))
    /\ JsMap.get state (snd run) = None
    /\ (forall k, k <> state -> JsMap.get k (snd run) = JsMap.get k states)
    /\ (forall anytime code',
           DescopeFlow.completeOAuthFlow oauthExchange sdkV anytime code' state (snd run)
           = (Throw (ThrownError
                       "Failed to complete OAuth flow: Invalid or expired OAuth state"),
              snd run)).
Proof.
  intros oauthStart oauthExchange sdkV challenge verifier state nonce provider
    redirectUri code scopes now later states tok a Hlife Hex Hval started run.
  assert (Hstored : JsMap.get state started
                    = Some (DescopeFlow.mkOAuthState verifier state nonce provider
                              redirectUri now)).
  { unfold started, DescopeFlow.initiateOAuthFlow. cbn [snd].
    now rewrite get_set, String.eqb_refl. }
  assert (Hrun : run = (Ok (DescopeFlow.mkCompleted (DescopeFlow.sessionJwt tok)
                              (Descope.token a) (DescopeFlow.refreshJwt tok)),
                        snd (JsMap.delete state started))).
  { unfold run, DescopeFlow.completeOAuthFlow, DescopeFlow.completeSteps.
    rewrite Hstored. unfold DescopeFlow.expired.
    cbn [DescopeFlow.timestamp DescopeFlow.codeVerifier].
    assert (E : (DescopeFlow.stateLifetime <? later - now) = false)
      by now apply Nat.ltb_ge.
    now rewrite E, Hex, Hval. }
  assert (Hgone : JsMap.get state (snd run) = None).
  { rewrite Hrun. cbn [snd]. now rewrite get_delete, String.eqb_refl. }
  split; [exact Hstored |]. split; [now rewrite Hrun |].
  split; [exact Hgone |]. split.
  - intros k Hk. rewrite Hrun. cbn [snd]. rewrite get_delete.
    destruct (String.eqb state k) eqn:E;
      [apply String.eqb_eq in E; congruence |].
    unfold started, DescopeFlow.initiateOAuthFlow. cbn [snd].
    now rewrite get_set, E.
  - intros anytime code'.
    unfold DescopeFlow.completeOAuthFlow, DescopeFlow.completeSteps.
    now rewrite Hgone.
Qed.

Lemma X17_oauth_flow_completes_once_witness :
  let oauthStart := fun (_ _ : string) (_ : DescopeFlow.StartOptions) =>
                      @inr string string "network down" in
  let oauthExchange := fun (code verifier : string) =>
                         if String.eqb verifier "v1"
                         then inl (DescopeFlow.mkExchanged "jwt1" "refresh1")
                         else inr "bad verifier" in
  let sdkV := fun (j : string) =>
                @inl Descope.DescopeAuthInfo string
                  (Descope.mkAuthInfo j
                     (Descope.mkToken "user1" None None 0 None None None)) in
  let started :=
    snd (DescopeFlow.initiateOAuthFlow oauthStart (fun v => v) "v1" "s1" "n1"
           1000 "google" "http://localhost/cb" ["mcp:read"] []) in
  let run := DescopeFlow.completeOAuthFlow oauthExchange sdkV 2000 "c1" "s1" started in
  fst run = Ok (DescopeFlow.mkCompleted "jwt1"
                  (Descope.mkToken "user1" None None 0 None None None) "refresh1")
  /\ JsMap.get "s1" (snd run) = None.
Proof.
  cbv zeta.
  pose proof (X17_oauth_flow_completes_once
                (fun (_ _ : string) (_ : DescopeFlow.StartOptions) =>
                   @inr string string "network down")
                (fun (code verifier : string) =>
                   if String.eqb verifier "v1"
                   then inl (DescopeFlow.mkExchanged "jwt1" "refresh1")
                   else inr "bad verifier")
                (fun (j : string) =>
                   @inl Descope.DescopeAuthInfo string
                     (Descope.mkAuthInfo j
                        (Descope.mkToken "user1" None None 0 None None None)))
                (fun v => v) "v1" "s1" "n1" "google" "http://localhost/cb" "c1"
                ["mcp:read"] 1000 2000 []
                (DescopeFlow.mkExchanged "jwt1" "refresh1")
                (Descope.mkAuthInfo "jwt1"
                   (Descope.mkToken "user1" None None 0 None None None)))
    as H.
  cbv zeta in H.
  destruct H as (_ & H2 & H3 & _).
  - apply Nat.leb_le. vm_compute. reflexivity.
  - reflexivity.
  - reflexivity.
  - split; [exact H2 | exact H3].
Defined.

(** X18.  [cleanupExpiredStates] removes exactly the expired states: in a
    state map (whose keys are unique) a key is bound afterwards exactly
    when it was bound to a state that has not expired, to that same state;
    the keys stay unique. *)
Theorem X18_cleanupExpiredStates_removes_the_expired :
  forall (now : nat) (states : JsMap.t DescopeFlow.OAuthState),
    NoDup (map fst states) ->
    (forall k,
        JsMap.get k (DescopeFlow.cleanupExpiredStates now states)
        = match JsMap.get k states with
          | Some s => if DescopeFlow.expired now s then None else Some s
          | None => None
          end)
    /\ NoDup (map fst (DescopeFlow.cleanupExpiredStates now states)).
Proof.
  intros now states Hnd. unfold DescopeFlow.cleanupExpiredStates. split.
  - intros k. rewrite deletes_spec.
    destruct (includes _ k) eqn:E.
    + apply includes_In, in_map_iff in E as ([k0 s] & Hk & Hf).
      cbn [fst] in Hk. subst k0. apply filter_In in Hf as [Hin He].
      cbn [snd] in He. apply (get_In k s states Hnd) in Hin.
      now rewrite Hin, He.
    + destruct (JsMap.get k states) as [s |] eqn:Eg; [| reflexivity].
      destruct (DescopeFlow.expired now s) eqn:Ee; [| reflexivity].
      exfalso. apply includes_false in E. apply E.
      apply in_map_iff. exists (k, s). split; [reflexivity |].
      apply filter_In. split; [now apply get_In | exact Ee].
  - now apply deletes_keys.
Qed.

Lemma X18_cleanupExpiredStates_removes_the_expired_witness :
  let old := DescopeFlow.mkOAuthState "v1" "s1" "n1" "google" "cb" 0 in
  let fresh := DescopeFlow.mkOAuthState "v2" "s2" "n2" "google" "cb" 1 in
  DescopeFlow.cleanupExpiredStates (DescopeFlow.stateLifetime + 1) [("s1", old); ("s2", fresh)]
  = [("s2", fresh)]
  /\ forall k,
      JsMap.get k (DescopeFlow.cleanupExpiredStates (DescopeFlow.stateLifetime + 1) [("s1", old); ("s2", fresh)])
      = match JsMap.get k [("s1", old); ("s2", fresh)] with
        | Some s => if DescopeFlow.expired (DescopeFlow.stateLifetime + 1) s then None else Some s
        | None => None
        end.
Proof.
  cbv zeta. split; [vm_compute; reflexivity |].
  apply X18_cleanupExpiredStates_removes_the_expired.
  cbn [map fst]. repeat constructor; cbn [In]; intuition discriminate.
Defined.

(** ** The API-key provider and the key registry of the API-key server *)

(** X19.  For the key the constructor of [ApiKeyProvider] accepts, which
    is never empty and comes from [MCP_SERVER_API_KEY] before [API_KEY],
    [authenticateRequest] returns a session exactly when the key the
    request provides is that key; the session then holds the key, the time
    of the call and [authenticated: true], so that [isAuthenticated] holds
    for it.  Every refusal is a response with status 401. *)
Theorem X19_api_key_provider_accepts_the_configured_key_only :
  forall (mcpServerApiKey apiKeyVar : option string) (key : string)
         (now : nat) (request : Request),
    ApiKey.configuredKey mcpServerApiKey apiKeyVar = Ok key ->
    key <> ""
    /\ (mcpServerApiKey = Some key
        \/ (truthy mcpServerApiKey = false /\ apiKeyVar = Some key))
    /\ (forall session,
           ApiKey.authenticateRequest key now request = Ok session
           <-> ApiKey.providedKey request = Some key
               /\ session = ApiKey.mkApiKeySession key true now)
    /\ (forall session,
           ApiKey.authenticateRequest key now request = Ok session ->
           ApiKey.isAuthenticated (Some session) = true)
    /\ (forall thrown,
           ApiKey.authenticateRequest key now request = Throw thrown ->
           exists response, thrown = ThrownResponse response /\ status response = 401).
Proof.
  intros mcpVar apiVar key now request Hconf.
  assert (Hkey : key <> ""
                 /\ (mcpVar = Some key \/ (truthy mcpVar = false /\ apiVar = Some key))).
  { unfold ApiKey.configuredKey in Hconf.
    destruct mcpVar as [[| c m] |]; cbn [truthy] in Hconf.
    - destruct apiVar as [[| c a] |]; cbn [truthy negb] in Hconf; try discriminate.
      injection Hconf as <-. split; [discriminate | right; now split].
    - cbn [negb] in Hconf. injection Hconf as <-. split; [discriminate | now left].
    - destruct apiVar as [[| c a] |]; cbn [truthy negb] in Hconf; try discriminate.
      injection Hconf as <-. split; [discriminate | right; now split]. }
  destruct Hkey as [Hne Hfrom]. split; [exact Hne |]. split; [exact Hfrom |].
  unfold ApiKey.authenticateRequest.
  destruct (ApiKey.providedKey request) as [[| c k] |]; cbn [truthy negb].
  - split; [| split].
    + intros session. split; [discriminate |]. intros [[= <-] _]. now contradiction Hne.
    + discriminate.
    + intros thrown [= <-]. eexists. split; reflexivity.
  - destruct (String.eqb (String c k) key) eqn:E; cbn [negb].
    + apply String.eqb_eq in E. rewrite E. split; [| split].
      * intros session. split.
        -- intros [= <-]. split; reflexivity.
        -- intros [_ ->]. reflexivity.
      * intros session [= <-]. reflexivity.
      * discriminate.
    + apply String.eqb_neq in E. split; [| split].
      * intros session. split; [discriminate |]. intros [[= H] _]. now contradiction E.
      * discriminate.
      * intros thrown [= <-]. eexists. split; reflexivity.
  - split; [| split].
    + intros session. split; [discriminate |]. intros [H _]. discriminate.
    + discriminate.
    + intros thrown [= <-]. eexists. split; reflexivity.
Qed.

Lemma X19_api_key_provider_accepts_the_configured_key_only_witness :
  ApiKey.authenticateRequest "k2" 7 (mkRequest (Some "Bearer k2") None)
  = Ok (ApiKey.mkApiKeySession "k2" true 7).
Proof.
  destruct (X19_api_key_provider_accepts_the_configured_key_only
              (Some "") (Some "k2") "k2" 7 (mkRequest (Some "Bearer k2") None))
    as (_ & _ & H & _).
  - reflexivity.
  - apply H. split; reflexivity.
Defined.

Lemma auth_lookup (keys : ApiKeyRegistry.Keys) (now : nat) (request : Request) :
  ApiKeyRegistry.auth keys now request
  = match x_api_key request with
    | Some (String c k) =>
        match JsMap.get (String c k) keys with
        | Some permissions =>
            Ok (ApiKeyServer.mkApiKeyAuthSession true (String c k) permissions now)
        | None => Throw (ThrownResponse ApiKeyRegistry.invalidApiKey)
        end
    | _ => Throw (ThrownResponse ApiKeyRegistry.apiKeyRequired)
    end.
Proof.
  unfold ApiKeyRegistry.auth.
  now destruct (x_api_key request) as [[| c k] |].
Qed.

Lemma auth_same_binding (keys keys' : ApiKeyRegistry.Keys) (now : nat)
  (request : Request) :
  (forall k, x_api_key request = Some k -> JsMap.get k keys' = JsMap.get k keys) ->
  ApiKeyRegistry.auth keys' now request = ApiKeyRegistry.auth keys now request.
Proof.
  intros H. rewrite !auth_lookup.
  destruct (x_api_key request) as [[| c k] |]; try reflexivity.
  now rewrite (H (String c k) eq_refl).
Qed.

Lemma get_removed (keys : ApiKeyRegistry.Keys) (key k : string) :
  JsMap.get k (snd (ApiKeyRegistry.removeApiKey key keys))
  = if String.eqb key k then None else JsMap.get k keys.
Proof. exact (get_delete key k keys). Qed.

(** X20.  The key registry of the API-key server.  A key made by
    [addApiKey] is ["mcp_"] followed by the random text, and from then on
    a request with that key in [X-API-Key] gets a session with exactly the
    permissions given, ["mcp:read"] alone when none were given; a key
    taken out by [removeApiKey], which answers whether the key was
    registered, is refused afterwards with status 401.  In both cases
    requests with any other key are answered as before.  The registry the
    constructor makes holds one key, [DEFAULT_API_KEY] when that is set to
    a non-empty text and a generated key otherwise, with the three
    permissions. *)
Theorem X20_api_key_registry :
  forall (keys : ApiKeyRegistry.Keys) (now : nat),
    (forall (randomHex : string) (permissions : option (list string))
            (authHeader : option string),
        let key := fst (ApiKeyRegistry.addApiKey randomHex permissions keys) in
        let keys' := snd (ApiKeyRegistry.addApiKey randomHex permissions keys) in
        key = ("mcp_" ++ randomHex)%string
        /\ ApiKeyRegistry.auth keys' now (mkRequest authHeader (Some key))
           = Ok (ApiKeyServer.mkApiKeyAuthSession true key
                   (match permissions with Some p => p | None => ["mcp:read"] end)
                   now)
        /\ (forall request,
               x_api_key request <> Some key ->
               ApiKeyRegistry.auth keys' now request
               = ApiKeyRegistry.auth keys now request))
    /\ (forall (key : string) (authHeader : option string),
           let removed := fst (ApiKeyRegistry.removeApiKey key keys) in
           let keys' := snd (ApiKeyRegistry.removeApiKey key keys) in
           (removed = true <-> JsMap.get key keys <> None)
           /\ (exists response,
                  ApiKeyRegistry.auth keys' now (mkRequest authHeader (Some key))
                  = Throw (ThrownResponse response)
                  /\ status response = 401)
           /\ (forall request,
                  x_api_key request <> Some key ->
                  ApiKeyRegistry.auth keys' now request
                  = ApiKeyRegistry.auth keys now request))
    /\ (forall (defaultApiKeyVar : option string) (randomHex : string)
               (request : Request),
           let key := match defaultApiKeyVar with
                      | Some (String c k) => String c k
                      | _ => ("mcp_" ++ randomHex)%string
                      end in
           ApiKeyRegistry.auth (ApiKeyRegistry.initialKeys defaultApiKeyVar randomHex)
             now request
           = if truthy (x_api_key request)
             then if optEqb String.eqb (x_api_key request) (Some key)
                  then Ok (ApiKeyServer.mkApiKeyAuthSession true key
                             ["mcp:read"; "mcp:write"; "mcp:admin"] now)
                  else Throw (ThrownResponse ApiKeyRegistry.invalidApiKey)
             else Throw (ThrownResponse ApiKeyRegistry.apiKeyRequired)).
Proof.
  intros keys now. split; [| split].
  - intros randomHex permissions authHeader key keys'.
    split; [reflexivity |]. split.
    + rewrite auth_lookup. cbn [x_api_key].
      unfold key, keys', ApiKeyRegistry.addApiKey, ApiKeyRegistry.generateApiKey.
      cbn [fst snd append]. now rewrite get_set, String.eqb_refl.
    + intros request Hk. apply auth_same_binding. intros k Hreq.
      unfold keys', ApiKeyRegistry.addApiKey. cbn [snd]. rewrite get_set.
      change (ApiKeyRegistry.generateApiKey randomHex) with key.
      destruct (String.eqb key k) eqn:E; [| reflexivity].
      apply String.eqb_eq in E. congruence.
  - intros key authHeader removed keys'. split; [| split].
    + unfold removed, ApiKeyRegistry.removeApiKey, JsMap.delete. cbn [fst].
      destruct (JsMap.get key keys); split; congruence.
    + unfold keys'. clear removed keys'.
      rewrite auth_lookup. cbn [x_api_key].
      destruct key as [| c k].
      * eexists. split; reflexivity.
      * exists ApiKeyRegistry.invalidApiKey.
        rewrite get_removed, String.eqb_refl. split; reflexivity.
    + intros request Hk. apply auth_same_binding. intros k Hreq.
      unfold keys'. rewrite get_removed.
      destruct (String.eqb key k) eqn:E; [| reflexivity].
      apply String.eqb_eq in E. congruence.
  - intros defaultApiKeyVar randomHex request key.
    rewrite auth_lookup.
    assert (Hinit : ApiKeyRegistry.initialKeys defaultApiKeyVar randomHex
                    = [(key, ["mcp:read"; "mcp:write"; "mcp:admin"])]).
    { unfold key, ApiKeyRegistry.initialKeys, ApiKeyRegistry.generateApiKey.
      now destruct defaultApiKeyVar as [[| c k] |]. }
    rewrite Hinit.
    destruct (x_api_key request) as [[| c k] |]; cbn [truthy]; try reflexivity.
    cbn [JsMap.get optEqb]. rewrite (String.eqb_sym key).
    destruct (String.eqb (String c k) key) eqn:E; [| reflexivity].
    apply String.eqb_eq in E. now rewrite E.
Qed.

(** ** The API-key server: [create_entities] *)

Lemma matchEntity_ids (s : string) (g : Graph) (i : nat) :
  In i (ApiKeyServer.matchEntity s g) -> In i (map nid (nodes g)).
Proof.
  unfold ApiKeyServer.matchEntity. intros H. apply in_map_iff in H as (n & <- & Hn).
  apply filter_In in Hn as [Hn _]. now apply in_map.
Qed.

Lemma wellFormed_attachAll (now : nat) (c : string) (ids : list nat) (g : Graph) :
  wellFormed g -> (forall e, In e ids -> In e (map nid (nodes g))) ->
  wellFormed (fold_left (ApiKeyServer.attachObservation now c) ids g).
Proof.
  revert g. induction ids as [| e ids IH]; intros g Hwf Hids; cbn [fold_left];
    [exact Hwf |].
  destruct (attachObservation_spec now c g e Hwf) as (Hwf' & _); [apply Hids; now left |].
  apply IH; [exact Hwf' |].
  intros e' He'. unfold ApiKeyServer.attachObservation. cbn [nodes].
  rewrite map_app. apply in_or_app. left. apply Hids. now right.
Qed.

Lemma wellFormed_createObservation (now : nat) (nm c : string) (g : Graph) :
  wellFormed g -> wellFormed (ApiKeyServer.createObservationUpdate now nm c g).
Proof.
  intros H. unfold ApiKeyServer.createObservationUpdate.
  apply wellFormed_attachAll; [exact H |]. intros e. apply matchEntity_ids.
Qed.

Lemma wellFormed_mergeEntity (now : nat) (i : ApiKeyServer.EntityInput) (g : Graph) :
  wellFormed g -> wellFormed (ApiKeyServer.mergeEntityUpdate now i g).
Proof.
  intros H. unfold ApiKeyServer.mergeEntityUpdate.
  destruct (ApiKeyServer.matchEntity (ApiKeyServer.name i) g) as [| e ids].
  - destruct (ids_updates (fun j : nat => j)
                (fun _ => ApiKeyServer.setType now (ApiKeyServer.type i))
                [freshId g]
                (mkGraph (nodes g ++ [ApiKeyServer.newEntity (freshId g)
                                        (ApiKeyServer.name i)]) (edges g)))
      as [Ha Hb]; [reflexivity |].
    eapply wellFormed_same; [exact Ha | exact Hb |].
    now apply wellFormed_add_node.
  - destruct (ids_updates (fun j : nat => j)
                (fun _ => ApiKeyServer.setType now (ApiKeyServer.type i))
                (e :: ids) g) as [Ha Hb]; [reflexivity |].
    now apply (wellFormed_same g).
Qed.

Lemma events_createObservationSteps (now : nat) (nm : string) (obs : list string)
  (st : Store) :
  events (fold_left (ApiKeyServer.createObservationStep now nm) obs st)
  = events st
    ++ map (fun c => Ran (mkStatement ApiKeyServer.createObservationQuery
                            [ ("entityName", VString nm); ("content", VString c) ]))
           obs.
Proof.
  revert st. induction obs as [| c obs IH]; intros st; cbn [fold_left map].
  - now rewrite app_nil_r.
  - rewrite IH. cbn [ApiKeyServer.createObservationStep run events].
    now rewrite <- app_assoc.
Qed.

Lemma wellFormed_createObservationSteps (now : nat) (nm : string)
  (obs : list string) (st : Store) :
  wellFormed (graph st) ->
  wellFormed (graph (fold_left (ApiKeyServer.createObservationStep now nm) obs st)).
Proof.
  rewrite graph_createObservationSteps. generalize (graph st) as g.
  induction obs as [| c obs IH]; intros g H; cbn [fold_left]; [exact H |].
  apply IH. now apply wellFormed_createObservation.
Qed.

Lemma reachable_createObservationSteps (now : nat) (nm : string)
  (obs : list string) (st : Store) :
  reachable (fold_left (ApiKeyServer.createObservationStep now nm) obs st)
  = reachable st.
Proof.
  revert st. induction obs as [| c obs IH]; intros st; cbn [fold_left];
    [reflexivity |].
  now rewrite IH.
Qed.

Lemma createEntitySteps_spec (now : nat) (entities : list ApiKeyServer.EntityInput)
  (results : list ApiKeyServer.Created) (st : Store) :
  exists st',
    fold_left (ApiKeyServer.createEntityStep now) entities (results, st)
    = (results ++ map (fun i => ApiKeyServer.mkCreated (ApiKeyServer.name i)
                                  (ApiKeyServer.type i) true) entities,
       st')
    /\ events st'
       = events st
         ++ flat_map
              (fun i =>
                 Ran (mkStatement ApiKeyServer.mergeEntityQuery
                        [ ("name", VString (ApiKeyServer.name i));
                          ("type", VString (ApiKeyServer.type i)) ])
                 :: map (fun c => Ran (mkStatement ApiKeyServer.createObservationQuery
                                         [ ("entityName", VString (ApiKeyServer.name i));
                                           ("content", VString c) ]))
                        (coalesce (ApiKeyServer.observations i)))
              entities
    /\ reachable st' = reachable st
    /\ (wellFormed (graph st) -> wellFormed (graph st')).
Proof.
  revert results st. induction entities as [| i entities IH]; intros results st.
  - exists st. cbn [fold_left map flat_map]. rewrite !app_nil_r. auto.
  - cbn [fold_left ApiKeyServer.createEntityStep].
    set (st1 := run _ (ApiKeyServer.mergeEntityUpdate now i) st).
    set (st2 := match ApiKeyServer.observations i with
                | Some obs => fold_left (ApiKeyServer.createObservationStep now
                                           (ApiKeyServer.name i)) obs st1
                | None => st1
                end).
    destruct (IH (results ++ [ApiKeyServer.mkCreated (ApiKeyServer.name i)
                                (ApiKeyServer.type i) true]) st2)
      as (st' & Hfold & Hev & Hre & Hwf).
    exists st'. split; [| split; [| split]].
    + rewrite Hfold. cbn [map]. now rewrite <- app_assoc.
    + rewrite Hev. cbn [flat_map]. rewrite app_assoc. f_equal.
      unfold st2. destruct (ApiKeyServer.observations i) as [obs |]; cbn [coalesce map].
      * rewrite events_createObservationSteps. unfold st1. cbn [run events].
        now rewrite <- app_assoc.
      * reflexivity.
    + rewrite Hre. unfold st2.
      destruct (ApiKeyServer.observations i) as [obs |]; [| reflexivity].
      now rewrite reachable_createObservationSteps.
    + intros H. apply Hwf. unfold st2.
      assert (H1 : wellFormed (graph st1))
        by (unfold st1; cbn [run graph]; now apply wellFormed_mergeEntity).
      destruct (ApiKeyServer.observations i) as [obs |]; [| exact H1].
      now apply wellFormed_createObservationSteps.
Qed.

(** X21.  [create_entities] of the API-key server.  Without the permission
    ["mcp:write"] (or ["mcp:admin"]) the call fails before a database
    session is opened and the store is untouched.  With it, the call
    answers one record with [created: true] for every item, in order, also
    for an entity that existed already; it runs one [MERGE] statement for
    each item followed by one statement for each of its observations, in
    one session that is closed at the end; and it keeps the graph well
    formed. *)
Theorem X21_api_key_create_entities :
  forall (now : nat) (entities : list ApiKeyServer.EntityInput)
         (session : ApiKeyServer.ApiKeyAuthSession) (st : Store),
    (ApiKeyServer.hasPermission session "mcp:write" = false ->
     ApiKeyServer.create_entities now entities session st
     = (Throw (ThrownError "Insufficient permissions. Required: mcp:write"), st))
    /\ (ApiKeyServer.hasPermission session "mcp:write" = true ->
        let run := ApiKeyServer.create_entities now entities session st in
        fst run = Ok (map (fun i => ApiKeyServer.mkCreated (ApiKeyServer.name i)
                                      (ApiKeyServer.type i) true) entities)
        /\ events (snd run)
           = events st
             ++ [SessionOpened]
             ++ flat_map
                  (fun i =>
                     Ran (mkStatement ApiKeyServer.mergeEntityQuery
                            [ ("name", VString (ApiKeyServer.name i));
                              ("type", VString (ApiKeyServer.type i)) ])
                     :: map (fun c =>
                               Ran (mkStatement ApiKeyServer.createObservationQuery
                                      [ ("entityName", VString (ApiKeyServer.name i));
                                        ("content", VString c) ]))
                            (coalesce (ApiKeyServer.observations i)))
                  entities
             ++ [SessionClosed]
        /\ (wellFormed (graph st) -> wellFormed (graph (snd run)))).
Proof.
  intros now entities session st. split.
  - intros H. unfold ApiKeyServer.create_entities, ApiKeyServer.requirePermission.
    now rewrite H.
  - intros H run. unfold run, ApiKeyServer.create_entities,
      ApiKeyServer.requirePermission. rewrite H. cbn [negb].
    destruct (createEntitySteps_spec now entities [] (openSession st))
      as (st' & Hfold & Hev & _ & Hwf).
    rewrite Hfold. cbn [fst snd app closeSession record events graph].
    split; [reflexivity |]. split.
    + rewrite Hev. cbn [openSession record events]. now rewrite <- !app_assoc.
    + exact Hwf.
Qed.

(** ** The Descope server: relationship types and [add_observations] *)

Lemma replaceRuns_clean (b : bool) (s : string) :
  existsChar isWhiteSpace s = false -> replaceRuns b s = s.
Proof.
  revert b. induction s as [| c s IH]; intros b H; cbn [replaceRuns];
    [reflexivity |].
  cbn [existsChar] in H. apply orb_false_iff in H as [Hc Hs].
  now rewrite Hc, IH.
Qed.

Lemma upperChar_word (c : ascii) :
  isWhiteSpace (upperChar c) = false ->
  isWordChar c || isWhiteSpace c = true ->
  isWordChar (upperChar c) = true.
Proof. destruct c as [[] [] [] [] [] [] [] []]; vm_compute; congruence. Qed.

Lemma upperChar_letter (c : ascii) :
  isLetter c = true ->
  isLetter (upperChar c) = true /\ isWhiteSpace (upperChar c) = false.
Proof. destruct c as [[] [] [] [] [] [] [] []]; vm_compute; intuition congruence. Qed.

Lemma replaceRuns_word (b : bool) (s : string) :
  allChars (fun c => isWordChar c || isWhiteSpace c) s = true ->
  allChars isWordChar (replaceRuns b (toUpperCase s)) = true.
Proof.
  revert b. induction s as [| c s IH]; intros b H; [reflexivity |].
  cbn [allChars] in H. apply andb_true_iff in H as [Hc Hs].
  unfold toUpperCase. cbn [mapString replaceRuns]. fold (toUpperCase s).
  destruct (isWhiteSpace (upperChar c)) eqn:E.
  - destruct b; [now apply IH |]. cbn [allChars].
    rewrite IH by exact Hs. reflexivity.
  - cbn [allChars]. rewrite (upperChar_word c E Hc). now apply IH.
Qed.

(** X22.  The relationship-type text the Descope server writes into its
    statements is stable: applying [relationTypeToken] to a token gives the
    token back, so a type read out of the database can be passed to
    [delete_relations] as it is.  For a relation that starts with a letter
    and otherwise holds letters, digits, underscores and white space, the
    token is a relationship-type name. *)
Theorem X22_relation_type_token :
  (forall t : string,
      DescopeServer.relationTypeToken (DescopeServer.relationTypeToken t)
      = DescopeServer.relationTypeToken t)
  /\ (forall (c : ascii) (s : string),
         isLetter c = true ->
         allChars (fun x => isWordChar x || isWhiteSpace x) s = true ->
         DescopeServer.isTypeName (DescopeServer.relationTypeToken (String c s))
         = true).
Proof.
  split.
  - intros t. unfold DescopeServer.relationTypeToken, replaceWhiteSpace.
    rewrite replaceRuns_upper. apply replaceRuns_clean, replaceRuns_no_space.
  - intros c s Hc Hs. unfold DescopeServer.relationTypeToken, replaceWhiteSpace.
    unfold toUpperCase. cbn [mapString replaceRuns]. fold (toUpperCase s).
    destruct (upperChar_letter c Hc) as [Hl Hw]. rewrite Hw.
    cbn [DescopeServer.isTypeName]. rewrite Hl. cbn [orb andb].
    now apply replaceRuns_word.
Qed.

Lemma X22_relation_type_token_witness :
  DescopeServer.isTypeName (DescopeServer.relationTypeToken "works  for_2") = true
  /\ DescopeServer.relationTypeToken "works  for_2" = "WORKS_FOR_2".
Proof.
  split; [| reflexivity].
  apply (proj2 X22_relation_type_token "w"%char "orks  for_2"); reflexivity.
Defined.

Lemma addObservationSteps_missing (now : nat) (nm : string) (obs added : list string)
  (st : Store) :
  DescopeServer.matchEntity nm (graph st) = [] ->
  exists st',
    fold_left (DescopeTools.addObservationStep now nm) obs (added, st) = (added, st')
    /\ graph st' = graph st
    /\ length (events st') = length (events st) + length obs.
Proof.
  revert st. induction obs as [| c obs IH]; intros st Hm.
  - exists st. cbn [fold_left length]. repeat split. lia.
  - cbn [fold_left DescopeTools.addObservationStep].
    unfold runReturning, DescopeTools.addObservationUpdate. rewrite Hm.
    cbn [map fold_left].
    destruct (IH (mkStore (graph st)
                    (events st ++ [Ran (mkStatement DescopeTools.addObservationQuery
                                          [ ("entityName", VString nm);
                                            ("content", VString c) ])])
                    (reachable st)) Hm) as (st' & Hf & Hg & He).
    exists st'. split; [exact Hf |]. split; [exact Hg |].
    rewrite He. cbn [events length]. rewrite length_app. cbn [length]. lia.
Qed.

Lemma addObservationSteps_single (now : nat) (nm : string) (e : nat)
  (obs added : list string) (st : Store) :
  wellFormed (graph st) ->
  DescopeServer.matchEntity nm (graph st) = [e] ->
  exists st',
    fold_left (DescopeTools.addObservationStep now nm) obs (added, st)
    = (added ++ obs, st')
    /\ wellFormed (graph st')
    /\ DescopeServer.matchEntity nm (graph st') = [e]
    /\ ApiKeyServer.observationsOf (graph st') e
       = ApiKeyServer.observationsOf (graph st) e ++ obs.
Proof.
  revert added st. induction obs as [| c obs IH]; intros added st Hwf Hm.
  - exists st. cbn [fold_left]. rewrite !app_nil_r. auto.
  - cbn [fold_left DescopeTools.addObservationStep].
    unfold runReturning, DescopeTools.addObservationUpdate. rewrite Hm.
    cbn [map].
    destruct (attachAll_spec now nm [c] (graph st) e Hwf Hm) as (Hwf1 & Hsame & Hobs).
    cbn [fold_left] in Hwf1, Hsame, Hobs.
    unfold ApiKeyServer.createObservationUpdate in Hwf1, Hsame, Hobs.
    change (ApiKeyServer.matchEntity nm (graph st))
      with (DescopeServer.matchEntity nm (graph st)) in Hwf1, Hsame, Hobs.
    rewrite Hm in Hwf1, Hsame, Hobs.
    set (g1 := fold_left (ApiKeyServer.attachObservation now c) [e] (graph st)) in *.
    destruct (IH (added ++ [c])
                (mkStore g1
                   (events st ++ [Ran (mkStatement DescopeTools.addObservationQuery
                                         [ ("entityName", VString nm);
                                           ("content", VString c) ])])
                   (reachable st)))
      as (st' & Hf & Hwf' & Hm' & Hobs').
    + exact Hwf1.
    + cbn [graph]. unfold DescopeServer.matchEntity.
      change (DescopeServer.isEntity nm) with (ApiKeyServer.isEntity nm).
      rewrite Hsame. exact Hm.
    + exists st'. split; [| split; [exact Hwf' | split; [exact Hm' |]]].
      * rewrite Hf. now rewrite <- app_assoc.
      * rewrite Hobs'. cbn [graph]. rewrite Hobs. now rewrite <- app_assoc.
Qed.

(** X23.  [add_observations] of the Descope server, for a session with the
    permission ["mcp:write"].  When no entity has the name, nothing is
    added to the graph and the list of added observations is empty, yet the
    answer still says [success: true].  When exactly one entity has the
    name (in a well-formed graph), every observation of the call is
    appended to those of the entity, in order and with repetitions, none
    being skipped because it is there already, and the answer lists all of
    them. *)
Theorem X23_descope_add_observations :
  forall (now : nat) (args : DescopeTools.AddArgs)
         (session : Descope.DescopeSession) (st : Store),
    Descope.hasPermission session Descope.WRITE = true ->
    let run := DescopeTools.add_observations now args session st in
    (DescopeServer.matchEntity (DescopeTools.entity_name args) (graph st) = [] ->
     fst run = Ok (DescopeTools.mkAdded true (DescopeTools.entity_name args) [])
     /\ graph (snd run) = graph st)
    /\ (forall e,
           wellFormed (graph st) ->
           DescopeServer.matchEntity (DescopeTools.entity_name args) (graph st) = [e] ->
           fst run = Ok (DescopeTools.mkAdded true (DescopeTools.entity_name args)
                           (DescopeTools.observations args))
           /\ ApiKeyServer.observationsOf (graph (snd run)) e
              = ApiKeyServer.observationsOf (graph st) e
                ++ DescopeTools.observations args
           /\ wellFormed (graph (snd run))).
Proof.
  intros now args session st Hp run.
  unfold run, DescopeTools.add_observations, DescopeServer.requirePermission.
  rewrite Hp. cbn [negb]. split.
  - intros Hm.
    destruct (addObservationSteps_missing now (DescopeTools.entity_name args)
                (DescopeTools.observations args) [] (openSession st) Hm)
      as (st' & Hf & Hg & _).
    rewrite Hf. cbn [fst snd closeSession record graph]. now rewrite Hg.
  - intros e Hwf Hm.
    destruct (addObservationSteps_single now (DescopeTools.entity_name args) e
                (DescopeTools.observations args) [] (openSession st) Hwf Hm)
      as (st' & Hf & Hwf' & _ & Hobs).
    rewrite Hf. cbn [fst snd closeSession record graph app].
    split; [reflexivity |]. split; [exact Hobs | exact Hwf'].
Qed.

Lemma X23_descope_add_observations_witness :
  let st := mkStore
              (mkGraph [ mkNode 1 ["Entity"] (Some "A") None None None None None ] [])
              [] true in
  let session := Descope.mkSession "u" None None ["mcp:write"] [] Descope.api_key
                   None (Some "u") true 0 None in
  let run := DescopeTools.add_observations 5 (DescopeTools.mkAddArgs "A" ["x"; "x"])
               session st in
  fst run = Ok (DescopeTools.mkAdded true "A" ["x"; "x"])
  /\ ApiKeyServer.observationsOf (graph (snd run)) 1 = ["x"; "x"].
Proof.
  cbv zeta.
  destruct (X23_descope_add_observations 5 (DescopeTools.mkAddArgs "A" ["x"; "x"])
              (Descope.mkSession "u" None None ["mcp:write"] [] Descope.api_key
                 None (Some "u") true 0 None)
              (mkStore
                 (mkGraph [ mkNode 1 ["Entity"] (Some "A") None None None None None ] [])
                 [] true))
    as [_ H].
  - reflexivity.
  - destruct (H 1) as (H1 & H2 & _).
    + split; [cbn; repeat constructor; intros [] | intros e []].
    + reflexivity.
    + split; [exact H1 | exact H2].
Defined.

(** ** The arguments of [create_relations] and [delete_relations] *)

(** X24.  The schema of the [relations] argument accepts exactly the lists
    whose items all have the three members, and parsing keeps the items
    and their order: a list parses to [rs] exactly when it is [rs] written
    out member by member.  A call of [delete_relations] with such a list
    runs the tool on [rs]. *)
Theorem X24_relations_argument_round_trip :
  forall (raw : list Server.RawRelation) (rs : list Relation),
    (Server.parseRelations raw = Some rs
     <-> raw = map (fun r => Server.mkRawRelation (Some (source r)) (Some (target r))
                               (Some (relationType r))) rs)
    /\ (forall queryNodes (session : option AuthSession) (st : Store),
           Server.callDeleteRelations queryNodes
             (map (fun r => Server.mkRawRelation (Some (source r)) (Some (target r))
                              (Some (relationType r))) rs)
             session st
           = Server.execute queryNodes (Server.delete_relations rs) session st).
Proof.
  assert (Hparse : forall rs,
             Server.parseRelations
               (map (fun r => Server.mkRawRelation (Some (source r)) (Some (target r))
                                (Some (relationType r))) rs)
             = Some rs).
  { unfold Server.parseRelations.
    induction rs as [| [s t ty] rs IH]; cbn [map FastMCP.parseArray]; [reflexivity |].
    rewrite IH. reflexivity. }
  intros raw rs. split.
  - split.
    + unfold Server.parseRelations. revert rs.
      induction raw as [| [[s |] [t |] [ty |]] raw IH]; intros rs;
        cbn [FastMCP.parseArray Server.parseRelation Server.raw_source
               Server.raw_target Server.raw_relationType];
        try discriminate.
      * intros [= <-]. reflexivity.
      * destruct (FastMCP.parseArray Server.parseRelation raw) as [rs' |];
          [| discriminate].
        intros [= <-]. cbn [map source target relationType].
        now rewrite <- (IH rs' eq_refl).
    + intros ->. apply Hparse.
  - intros queryNodes session st.
    unfold Server.callDeleteRelations, FastMCP.withParameters.
    now rewrite Hparse.
Qed.
